(** * homey-bibliotheek-be: the library-account device and its API client

    A shallow embedding of
      - [src/drivers/library-account/device.js]  (class LibraryAccountDevice)
      - [src/lib/BibliotheekAPI.js]              (class BibliotheekAPI)
      - [src/drivers/library-account/driver.js]  (the Flow cards and pairing)
      - [src/app.js]                             (extendLoans of the user device)
      - [src/unnamed/part_000]                   (the widget's getLoans)
    together with the facts of the specification that were checked
    against them, and further facts read off the code.

    Conventions.  A JavaScript number that the code only ever uses as an
    integer is a [Z]; [NaN] is [None] where the code can meet it.  A
    value that may be [undefined]/[null] is an [option].  A JS [Map] is
    an association list in insertion order; an object walked with
    [Object.entries] is the list of its entries in enumeration order.
    An async method is a value of [Async]: the requests it awaits, the
    platform promises it awaits and its reads and writes of the
    instances, in program order.  [run] executes one call alone;
    [EventLoop] interleaves several calls at their awaits. *)

From Stdlib Require Import ZArith List Bool String Ascii Lia.
Import ListNotations.

Open Scope string_scope.
Open Scope Z_scope.

(* ================================================================== *)
(** * JavaScript values                                                *)
(* ================================================================== *)

Module JS.

(** [a || d] on a possibly missing string: [undefined], [null] and the
    empty string are falsy. *)
Definition str_or (a : option string) (d : string) : string :=
  match a with
  | Some EmptyString => d
  | Some s => s
  | None => d
  end.

(** truthiness of a possibly missing string *)
Definition truthy_str (a : option string) : bool :=
  match a with
  | Some EmptyString => false
  | Some _ => true
  | None => false
  end.

(** [a || null] on a possibly missing string *)
Definition str_or_null (a : option string) : option string :=
  if truthy_str a then a else None.

(** [a || d] on a possibly missing number: [0] is falsy. *)
Definition num_or (a : option Z) (d : Z) : Z :=
  match a with
  | Some 0 => d
  | Some n => n
  | None => d
  end.

(** [String.prototype.split] with a one-character separator. *)
Fixpoint split (sep : ascii) (s : string) : list string :=
  match s with
  | EmptyString => [EmptyString]
  | String c rest =>
      if Ascii.eqb c sep then EmptyString :: split sep rest
      else match split sep rest with
           | p :: ps => String c p :: ps
           | [] => [String c EmptyString]
           end
  end.

(** [Array.prototype.join] *)
Fixpoint join (sep : string) (l : list string) : string :=
  match l with
  | [] => ""
  | [x] => x
  | x :: r => x ++ sep ++ join sep r
  end.

Definition is_ws (c : ascii) : bool :=
  let n := nat_of_ascii c in
  (Nat.eqb n 32 || Nat.eqb n 9 || Nat.eqb n 10 || Nat.eqb n 11
   || Nat.eqb n 12 || Nat.eqb n 13)%bool.

Fixpoint trim_left (s : string) : string :=
  match s with
  | String c r => if is_ws c then trim_left r else s
  | EmptyString => EmptyString
  end.

Fixpoint rev_string (s acc : string) : string :=
  match s with
  | EmptyString => acc
  | String c r => rev_string r (String c acc)
  end.

Definition trim (s : string) : string :=
  rev_string (trim_left (rev_string (trim_left s) "")) "".

Definition digit_val (c : ascii) : option Z :=
  let n := nat_of_ascii c in
  if (Nat.leb 48 n && Nat.leb n 57)%bool then Some (Z.of_nat n - 48) else None.

Fixpoint digits_val (s : string) (acc : Z) : option Z :=
  match s with
  | EmptyString => Some acc
  | String c r =>
      match digit_val c with
      | Some d => digits_val r (10 * acc + d)
      | None => None
      end
  end.

Definition nonempty_digits (s : string) : option Z :=
  match s with
  | EmptyString => None
  | _ => digits_val s 0
  end.

(** [Number(s)] on the decimal-integer fragment of StringNumericLiteral:
    surrounding white space, an optional sign and decimal digits; the
    empty (or blank) string is [0]; [None] is [NaN].  Literals with a
    fraction, an exponent or a radix prefix are outside the fragment. *)
Definition Number (s : string) : option Z :=
  match trim s with
  | EmptyString => Some 0
  | String "+"%char r => nonempty_digits r
  | String "-"%char r => option_map Z.opp (nonempty_digits r)
  | t => nonempty_digits t
  end.

End JS.

(* ================================================================== *)
(** * The host's Date object (ECMA-262, section 21.4)                  *)
(* ================================================================== *)

Module JSDate.

Definition msPerDay : Z := 86400000.

Definition Day (t : Z) : Z := t / msPerDay.

Definition DayFromYear (y : Z) : Z :=
  365 * (y - 1970) + (y - 1969) / 4 - (y - 1901) / 100 + (y - 1601) / 400.

Definition InLeapYear (y : Z) : bool :=
  ((y mod 4 =? 0) && (negb (y mod 100 =? 0) || (y mod 400 =? 0)))%bool.

(** days of the year before month [mn] (0 = January) *)
Definition DaysBeforeMonth (leap : bool) (mn : Z) : Z :=
  let l := if leap then 1 else 0 in
  match mn with
  | 0 => 0
  | 1 => 31
  | 2 => 59 + l
  | 3 => 90 + l
  | 4 => 120 + l
  | 5 => 151 + l
  | 6 => 181 + l
  | 7 => 212 + l
  | 8 => 243 + l
  | 9 => 273 + l
  | 10 => 304 + l
  | _ => 334 + l
  end.

(** [MakeDay(year, month, date)]: months and days out of range carry
    over, as in the standard. *)
Definition MakeDay (year month date : Z) : Z :=
  let ym := year + month / 12 in
  let mn := month mod 12 in
  DayFromYear ym + DaysBeforeMonth (InLeapYear ym) mn + date - 1.

Definition MakeDate (day time : Z) : Z := day * msPerDay + time.

(** [TimeClip]: a time value beyond 8.64e15 ms is [NaN]. *)
Definition TimeClip (t : Z) : option Z :=
  if Z.abs t >? 8640000000000000 then None else Some t.

(** The local time zone of the host: the offset in force at a UTC
    time value and at a local time value. *)
Record TimeZone := {
  LocalTZA_utc : Z -> Z;
  LocalTZA_local : Z -> Z
}.

Definition LocalTime (tz : TimeZone) (t : Z) : Z := t + LocalTZA_utc tz t.
Definition UTC (tz : TimeZone) (t : Z) : Z := t - LocalTZA_local tz t.

(** [new Date(year, month, date)]: local midnight of that day; a year
    in 0..99 means 1900 + year; [None] is an invalid Date. *)
Definition Date_ymd (tz : TimeZone) (year month date : option Z) : option Z :=
  match year, month, date with
  | Some y, Some m, Some dt =>
      let yr := if ((0 <=? y) && (y <=? 99))%bool then 1900 + y else y in
      TimeClip (UTC tz (MakeDate (MakeDay yr m dt) 0))
  | _, _, _ => None
  end.

(** [d.setHours(0, 0, 0, 0)] on a valid time value: local midnight of
    the local day [t] falls in.  (For a clock and due dates anywhere
    near the present the result is far inside the range of [TimeClip],
    which is therefore not applied again.) *)
Definition setHours0 (tz : TimeZone) (t : Z) : Z :=
  UTC tz (MakeDate (Day (LocalTime tz t)) 0).

(** What the code needs of the host: its time zone and [Date.parse],
    which the standard fixes for ISO-8601 strings only. *)
Record Host := {
  tz : TimeZone;
  Date_parse : string -> option Z
}.

(** A zone with a constant offset (in ms). *)
Definition fixed_zone (off : Z) : TimeZone :=
  {| LocalTZA_utc := fun _ => off; LocalTZA_local := fun _ => off |}.

(** [Date.parse] on the date-only ISO form [YYYY-MM-DD], which the
    standard reads as UTC midnight. *)
Definition parse_iso_date (s : string) : option Z :=
  match JS.split "-" s with
  | [y; m; d] =>
      if ((Nat.eqb (String.length y) 4) && (Nat.eqb (String.length m) 2)
          && (Nat.eqb (String.length d) 2))%bool then
        match JS.nonempty_digits y, JS.nonempty_digits m, JS.nonempty_digits d with
        | Some yy, Some mm, Some dd =>
            if ((1 <=? mm) && (mm <=? 12) && (1 <=? dd) && (dd <=? 31))%bool
            then Some (MakeDate (MakeDay yy (mm - 1) dd) 0)
            else None
        | _, _, _ => None
        end
      else None
  | _ => None
  end.

(** Europe/Brussels during 2026: CET (+1h), and CEST (+2h) from
    29 March 01:00 UTC to 25 October 01:00 UTC. *)
Definition cest_2026_begin : Z := MakeDate (MakeDay 2026 2 29) 3600000.
Definition cest_2026_end : Z := MakeDate (MakeDay 2026 9 25) 3600000.

Definition brussels_2026 : TimeZone :=
  {| LocalTZA_utc := fun t =>
       if ((cest_2026_begin <=? t) && (t <? cest_2026_end))%bool
       then 7200000 else 3600000;
     LocalTZA_local := fun tl =>
       if ((cest_2026_begin + 7200000 <=? tl)
           && (tl <? cest_2026_end + 7200000))%bool
       then 7200000 else 3600000 |}.

Definition host_utc : Host :=
  {| tz := fixed_zone 0; Date_parse := parse_iso_date |}.

Definition host_brussels_2026 : Host :=
  {| tz := brussels_2026; Date_parse := parse_iso_date |}.

End JSDate.

(* ================================================================== *)
(** * device.js: _calculateDaysRemaining                               *)
(* ================================================================== *)

(** [_calculateDaysRemaining(dueDateStr)], with the host and the clock
    reading of [new Date()] made explicit. *)
Definition _calculateDaysRemaining
    (h : JSDate.Host) (now : Z) (dueDateStr : option string) : Z :=
  if negb (JS.truthy_str dueDateStr) then 0
  else
    let s := JS.str_or dueDateStr "" in
    let parts := JS.split "/" s in
    let dueDate :=
      match parts with
      | [day; month; year] =>
          JSDate.Date_ymd (JSDate.tz h) (JS.Number year)
            (option_map (fun m => m - 1) (JS.Number month)) (JS.Number day)
      | _ => JSDate.Date_parse h s
      end in
    match dueDate with
    | None => 0
    | Some due =>
        let today := JSDate.setHours0 (JSDate.tz h) now in
        let due0 := JSDate.setHours0 (JSDate.tz h) due in
        let diffMs := due0 - today in
        diffMs / (1000 * 60 * 60 * 24)
    end.

(* ================================================================== *)
(** * URLs (the WHATWG [URL] class, on plain absolute URLs)            *)
(* ================================================================== *)

Module URL.

Fixpoint prefix_of (p s : string) : option string :=
  match p, s with
  | EmptyString, _ => Some s
  | String a p', String b s' => if Ascii.eqb a b then prefix_of p' s' else None
  | _, EmptyString => None
  end.

(** the text before and after the first occurrence of [sep] *)
Fixpoint cut (sep : string) (s : string) : option (string * string) :=
  match prefix_of sep s with
  | Some rest => Some (EmptyString, rest)
  | None =>
      match s with
      | EmptyString => None
      | String c r =>
          match cut sep r with
          | Some (a, b) => Some (String c a, b)
          | None => None
          end
      end
  end.

Fixpoint take_until (stop : ascii -> bool) (s : string) : string :=
  match s with
  | EmptyString => EmptyString
  | String c r => if stop c then EmptyString else String c (take_until stop r)
  end.

Definition is_alpha (c : ascii) : bool :=
  let n := nat_of_ascii c in
  ((Nat.leb 65 n && Nat.leb n 90) || (Nat.leb 97 n && Nat.leb n 122))%bool.

Definition lower (c : ascii) : ascii :=
  let n := nat_of_ascii c in
  if (Nat.leb 65 n && Nat.leb n 90)%bool then ascii_of_nat (n + 32) else c.

Definition upper (c : ascii) : ascii :=
  let n := nat_of_ascii c in
  if (Nat.leb 97 n && Nat.leb n 122)%bool then ascii_of_nat (n - 32) else c.

Fixpoint map_string (f : ascii -> ascii) (s : string) : string :=
  match s with
  | EmptyString => EmptyString
  | String c r => String (f c) (map_string f r)
  end.

Definition ends_authority (c : ascii) : bool :=
  (Ascii.eqb c "/" || Ascii.eqb c "?" || Ascii.eqb c "#" || Ascii.eqb c ":")%bool.

(** [new URL(u).hostname]; [None] is the TypeError of the constructor.
    Covers [scheme://host[:port][/path][?query][#fragment]] with a host
    of letters and dots; user info, bracketed or encoded hosts and the
    constructor's check of the host's characters are outside it. *)
Definition hostname (u : string) : option string :=
  match cut "://" u with
  | Some (String c _, rest) =>
      if is_alpha c then
        match take_until ends_authority rest with
        | EmptyString => None
        | host => Some (map_string lower host)
        end
      else None
  | _ => None
  end.

Definition parses (u : string) : bool :=
  match hostname u with Some _ => true | None => false end.

(** the query string, without the leading [?] and without a fragment *)
Definition query (u : string) : string :=
  match cut "?" (take_until (fun c => Ascii.eqb c "#") u) with
  | Some (_, q) => q
  | None => EmptyString
  end.

Definition pair_of (kv : string) : string * string :=
  match cut "=" kv with
  | Some (k, v) => (k, v)
  | None => (kv, EmptyString)
  end.

Fixpoint assoc (k : string) (l : list (string * string)) : option string :=
  match l with
  | [] => None
  | (k', v) :: r => if String.eqb k k' then Some v else assoc k r
  end.

(** [new URL(u).searchParams.get(name)], without the decoding of [%]
    and [+]: the value as it is written in the query *)
Definition searchParams_get (u name : string) : option string :=
  match query u with
  | EmptyString => None
  | q => assoc name (map pair_of (JS.split "&" q))
  end.

(** [s.charAt(0).toUpperCase() + s.slice(1)] *)
Definition capitalize (s : string) : string :=
  match s with
  | EmptyString => EmptyString
  | String c r => String (upper c) r
  end.

End URL.

(* ================================================================== *)
(** * The data the API hands to the device                             *)
(* ================================================================== *)

(** One entry of the overview listing ([/my-library-overview-loans]). *)
Module Overview.
Record Location := {
  libraryName : option string;
  libraryUrl : option string
}.
Record Loan := {
  title : option string;
  author : option string;
  dueDate : option string;
  isRenewable : option bool;
  accountName : option string;
  location : option Location;
  extendLoanId : option string
}.
End Overview.

(** One entry scraped from an account's loans page ([getLoanDetails]). *)
Module Detail.
Record Loan := {
  title : string;
  author : string;
  loanType : string;
  url : string;
  imageSrc : string;
  daysRemaining : option Z;
  loanFrom : string;
  loanTill : string;
  extendLoanId : string;
  library : option string;
  accountId : option string;
  isExtendable : bool
}.
End Detail.

(** [userDetails[account.id]] as [refreshAllData] builds it. *)
Module User.
Record Account := {
  id : string;
  name : option string;
  barcode : option string;
  library_url : option string;
  libraryLongName : option string;
  hasError : bool;
  userName : option string;
  libraryName : string
}.
Record Counter := {
  count : Z;
  url : option string
}.
Record t := {
  accountDetails : option Account;
  loans : option Counter;
  reservations : option Counter;
  openAmounts : option Counter;
  loanDetails : option (list (string * Detail.Loan))
}.
End User.

(** The object [refreshAllData] returns and the device stores under
    ['lastData'] (of [reservations] the length, of [userLists] the
    name of each list). *)
Record Data := {
  userDetails : option (list (string * User.t));
  loans : option (list Overview.Loan);
  reservations : Z;
  libraryDetails : list (string * string);
  userLists : list (string * string);
  lastUpdated : Z
}.

(** A value of the [currentLoans] map of [_processData]. *)
Module Current.
Record Loan := {
  title : string;
  author : string;
  daysLeft : Z;
  libraryName : string;
  userName : string;
  isExtendable : bool;
  dueDate : option string;
  extendLoanId : option string
}.
End Current.

(** A JS [Map] from loan keys to loans, in insertion order. *)
Definition LoanMap := list (string * Current.Loan).

Module LoanMapOps.

Fixpoint get (k : string) (m : LoanMap) : option Current.Loan :=
  match m with
  | [] => None
  | (k', v) :: r => if String.eqb k k' then Some v else get k r
  end.

Definition has (k : string) (m : LoanMap) : bool :=
  match get k m with Some _ => true | None => false end.

(** [m.set(k, v)]: an existing key keeps its place; a new key goes last *)
Fixpoint set (k : string) (v : Current.Loan) (m : LoanMap) : LoanMap :=
  match m with
  | [] => [(k, v)]
  | (k', v') :: r =>
      if String.eqb k k' then (k', v) :: r else (k', v') :: set k v r
  end.

Definition values (m : LoanMap) : list Current.Loan := map snd m.

End LoanMapOps.

(** What the code throws. *)
Inductive Error :=
| FetchRejected (reason : string)
| NoOAuthLocation
| InvalidURL
| LoginFailed (status : Z)
| VerificationFailed
| FetchMembershipsFailed (status : Z)
| FetchActivitiesFailed (status : Z)
| FetchLoansFailed (status : Z)
| FetchReservationsFailed (status : Z)
| FetchLoanDetailsFailed (status : Z)
| ExtensionFormFailed (status : Z)
| JsonError.

(** The events handed to the Flow trigger cards, with their tokens. *)
Inductive Event :=
| days_changed (days : option Z) (loan_count : Z)
| loan_expiring (book_title : string) (days_left : Z) (library_name user_name : string)
| loan_expired (book_title : string) (days_overdue : Z) (library_name : string).

(* ================================================================== *)
(** * device.js: LibraryAccountDevice                                  *)
(* ================================================================== *)

(** [_extractLibraryFromUrl(url)] *)
Definition _extractLibraryFromUrl (url : option string) : option string :=
  if negb (JS.truthy_str url) then None
  else
    match URL.hostname (JS.str_or url "") with
    | None => None
    | Some hostname =>
        match JS.split "." hostname with
        | name :: _ => Some (URL.capitalize name)
        | [] => None
        end
    end.

(** The loop variables of [_processData]. *)
Record Totals := {
  minDaysRemaining : option Z;
  totalLoans : Z;
  totalReservations : Z;
  expiringSoon : Z;
  someNotExtendable : bool;
  currentLoans : LoanMap
}.

Definition totals0 : Totals :=
  {| minDaysRemaining := None; totalLoans := 0; totalReservations := 0;
     expiringSoon := 0; someNotExtendable := false; currentLoans := [] |}.

Definition loanKey (loan : Overview.Loan) : string :=
  JS.str_or (Overview.title loan) "" ++ "|" ++ JS.str_or (Overview.accountName loan) "".

(** the record stored in [currentLoans] for an overview entry *)
Definition coarse_record (daysLeft : Z) (loan : Overview.Loan) : Current.Loan :=
  let loc := Overview.location loan in
  let libName := match loc with Some l => Overview.libraryName l | None => None end in
  let libUrl := match loc with Some l => Overview.libraryUrl l | None => None end in
  {| Current.title := JS.str_or (Overview.title loan) "Unknown";
     Current.author := JS.str_or (Overview.author loan) "";
     Current.daysLeft := daysLeft;
     Current.libraryName :=
       JS.str_or
         (if JS.truthy_str libName then libName else _extractLibraryFromUrl libUrl)
         "Unknown";
     Current.userName := JS.str_or (Overview.accountName loan) "Unknown";
     Current.isExtendable :=
       match Overview.isRenewable loan with Some false => false | _ => true end;
     Current.dueDate := Overview.dueDate loan;
     Current.extendLoanId := JS.str_or_null (Overview.extendLoanId loan) |}.

(** body of [for (const loan of loans || [])] *)
Definition overview_step (h : JSDate.Host) (now warningThreshold : Z)
    (acc : Totals) (loan : Overview.Loan) : Totals :=
  let daysLeft := _calculateDaysRemaining h now (Overview.dueDate loan) in
  {| totalLoans := totalLoans acc + 1;
     minDaysRemaining :=
       match minDaysRemaining acc with
       | None => Some daysLeft
       | Some m => if daysLeft <? m then Some daysLeft else Some m
       end;
     totalReservations := totalReservations acc;
     expiringSoon :=
       if daysLeft <=? warningThreshold then expiringSoon acc + 1 else expiringSoon acc;
     someNotExtendable :=
       match Overview.isRenewable loan with
       | Some false => true
       | _ => someNotExtendable acc
       end;
     currentLoans :=
       LoanMapOps.set (loanKey loan) (coarse_record daysLeft loan) (currentLoans acc) |}.

Definition detailKey (userName : string) (loanDetail : Detail.Loan) : string :=
  Detail.title loanDetail ++ "|" ++ userName.

(** the three assignments to [existingLoan] *)
Definition merge_detail (existingLoan : Current.Loan) (daysRemaining : Z)
    (loanDetail : Detail.Loan) : Current.Loan :=
  {| Current.title := Current.title existingLoan;
     Current.author := Current.author existingLoan;
     Current.daysLeft := daysRemaining;
     Current.libraryName := Current.libraryName existingLoan;
     Current.userName := Current.userName existingLoan;
     Current.isExtendable := Detail.isExtendable loanDetail;
     Current.dueDate := Current.dueDate existingLoan;
     Current.extendLoanId := Some (Detail.extendLoanId loanDetail) |}.

Definition with_someNotExtendable (acc : Totals) : Totals :=
  {| minDaysRemaining := minDaysRemaining acc; totalLoans := totalLoans acc;
     totalReservations := totalReservations acc; expiringSoon := expiringSoon acc;
     someNotExtendable := true; currentLoans := currentLoans acc |}.

(** body of [for (const [key, loanDetail] of Object.entries(user.loanDetails))];
    in [daysRemaining < minDaysRemaining] a [null] minimum would count as 0 *)
Definition detail_step (userName : string) (acc : Totals)
    (entry : string * Detail.Loan) : Totals :=
  let loanDetail := snd entry in
  let acc1 := if negb (Detail.isExtendable loanDetail)
              then with_someNotExtendable acc else acc in
  match Detail.daysRemaining loanDetail with
  | None => acc1
  | Some dr =>
      let k := detailKey userName loanDetail in
      match LoanMapOps.get k (currentLoans acc1) with
      | None => acc1
      | Some existingLoan =>
          {| minDaysRemaining :=
               if dr <? match minDaysRemaining acc1 with Some m => m | None => 0 end
               then Some dr else minDaysRemaining acc1;
             totalLoans := totalLoans acc1;
             totalReservations := totalReservations acc1;
             expiringSoon := expiringSoon acc1;
             someNotExtendable := someNotExtendable acc1;
             currentLoans :=
               LoanMapOps.set k (merge_detail existingLoan dr loanDetail)
                 (currentLoans acc1) |}
      end
  end.

Definition user_userName (user : User.t) : string :=
  JS.str_or (match User.accountDetails user with
             | Some a => User.userName a
             | None => None
             end) "".

(** body of [for (const [userId, user] of Object.entries(userDetails || {}))] *)
Definition user_step (acc : Totals) (entry : string * User.t) : Totals :=
  let user := snd entry in
  let reservationCount :=
    match User.reservations user with
    | Some r => User.count r
    | None => 0
    end in
  let acc1 :=
    {| minDaysRemaining := minDaysRemaining acc; totalLoans := totalLoans acc;
       totalReservations := totalReservations acc + reservationCount;
       expiringSoon := expiringSoon acc;
       someNotExtendable := someNotExtendable acc;
       currentLoans := currentLoans acc |} in
  match User.loanDetails user with
  | Some details => fold_left (detail_step (user_userName user)) details acc1
  | None => acc1
  end.

(** "Recalculate expiring soon with accurate data" *)
Definition count_expiring (warningThreshold : Z) (m : LoanMap) : Z :=
  Z.of_nat (List.length
    (filter (fun l => Current.daysLeft l <=? warningThreshold) (LoanMapOps.values m))).

(** [_processData] up to the capability updates. *)
Definition aggregate (h : JSDate.Host) (now warningThreshold : Z) (data : Data) : Totals :=
  let t1 := fold_left (overview_step h now warningThreshold)
              (match loans data with Some l => l | None => [] end) totals0 in
  let t2 := fold_left user_step
              (match userDetails data with Some u => u | None => [] end) t1 in
  {| minDaysRemaining := minDaysRemaining t2; totalLoans := totalLoans t2;
     totalReservations := totalReservations t2;
     expiringSoon := count_expiring warningThreshold (currentLoans t2);
     someNotExtendable := someNotExtendable t2;
     currentLoans := currentLoans t2 |}.

(** body of [for (const [loanKey, loan] of currentLoans)] in
    [_checkAndTriggerFlows] *)
Definition loan_triggers (warningThreshold : Z) (previousLoans : LoanMap)
    (entry : string * Current.Loan) : list Event :=
  let loan := snd entry in
  let previousLoan := LoanMapOps.get (fst entry) previousLoans in
  let d := Current.daysLeft loan in
  let crossed :=
    match previousLoan with
    | None => true
    | Some p => ((Current.daysLeft p >? warningThreshold) && (d <=? warningThreshold))%bool
    end in
  (if crossed then
     if ((d <=? warningThreshold) && (d >=? 0))%bool then
       [loan_expiring (Current.title loan) d (Current.libraryName loan)
          (Current.userName loan)]
     else []
   else [])
  ++
  (if match previousLoan with
      | None => d <? 0
      | Some p => ((Current.daysLeft p >=? 0) && (d <? 0))%bool
      end
   then [loan_expired (Current.title loan) (Z.abs d) (Current.libraryName loan)]
   else []).

(** [_previousDaysRemaining !== minDaysRemaining] *)
Definition min_differs (a b : option Z) : bool :=
  match a, b with
  | None, None => false
  | Some x, Some y => negb (x =? y)
  | _, _ => true
  end.

(** [_checkAndTriggerFlows]: the events triggered, in order. *)
Definition _checkAndTriggerFlows
    (previousDaysRemaining : option Z) (previousLoans : LoanMap)
    (currentLoans : LoanMap) (minDaysRemaining : option Z) (totalLoans : Z)
    (warningThreshold : Z) : list Event :=
  (match previousDaysRemaining with
   | Some _ =>
       if min_differs previousDaysRemaining minDaysRemaining
       then [days_changed minDaysRemaining totalLoans] else []
   | None => []
   end)
  ++ flat_map (loan_triggers warningThreshold previousLoans) currentLoans.

(** The device: settings, store, instance fields, capabilities,
    availability, and the events triggered so far (oldest first). *)
Record Device := {
  username : string;
  password : string;
  poll_interval : option Z;
  warning_threshold : option Z;
  lastData : option Data;
  previousDaysRemaining : option Z;
  previousLoans : LoanMap;
  days_remaining : option Z;
  loan_count : Z;
  reservation_count : Z;
  loans_expiring_soon : Z;
  some_not_extendable : bool;
  unavailable : option Error;
  triggered : list Event
}.

(** A device as it is added: its settings and store, nothing processed yet. *)
Definition new_device (user pass : string) (poll warn : option Z)
    (stored : option Data) : Device :=
  {| username := user; password := pass; poll_interval := poll;
     warning_threshold := warn; lastData := stored;
     previousDaysRemaining := None; previousLoans := [];
     days_remaining := None; loan_count := 0; reservation_count := 0;
     loans_expiring_soon := 0; some_not_extendable := false;
     unavailable := None; triggered := [] |}.

(** [_processData(data, triggerFlows)] *)
Definition _processData (h : JSDate.Host) (now : Z) (data : Data)
    (triggerFlows : bool) (dev : Device) : Device :=
  let warningThreshold := JS.num_or (warning_threshold dev) 7 in
  let t := aggregate h now warningThreshold data in
  let events :=
    if triggerFlows then
      _checkAndTriggerFlows (previousDaysRemaining dev) (previousLoans dev)
        (currentLoans t) (minDaysRemaining t) (totalLoans t) warningThreshold
    else [] in
  {| username := username dev; password := password dev;
     poll_interval := poll_interval dev;
     warning_threshold := warning_threshold dev;
     lastData := lastData dev;
     previousDaysRemaining := minDaysRemaining t;
     previousLoans := currentLoans t;
     days_remaining := minDaysRemaining t;
     loan_count := totalLoans t;
     reservation_count := totalReservations t;
     loans_expiring_soon := expiringSoon t;
     some_not_extendable := someNotExtendable t;
     unavailable := unavailable dev;
     triggered := triggered dev ++ events |}.

(* ================================================================== *)
(** * Plain JS objects used as dictionaries                            *)
(* ================================================================== *)

Module Obj.

(** An "array index" property name: canonical decimal below 2^32 - 1.
    [Object.entries] lists these first, in ascending order, and the
    other names after them in insertion order. *)
Definition array_index (k : string) : option Z :=
  match k with
  | EmptyString => None
  | String "0"%char EmptyString => Some 0
  | String "0"%char _ => None
  | _ =>
      match JS.digits_val k 0 with
      | Some n => if n <? 4294967295 then Some n else None
      | None => None
      end
  end.

Fixpoint replace {A} (k : string) (v : A) (o : list (string * A))
  : option (list (string * A)) :=
  match o with
  | [] => None
  | (k', v') :: r =>
      if String.eqb k k' then Some ((k', v) :: r)
      else option_map (cons (k', v')) (replace k v r)
  end.

Fixpoint insert_index {A} (n : Z) (k : string) (v : A) (o : list (string * A))
  : list (string * A) :=
  match o with
  | [] => [(k, v)]
  | (k', v') :: r =>
      match array_index k' with
      | Some n' => if n <? n' then (k, v) :: o else (k', v') :: insert_index n k v r
      | None => (k, v) :: o
      end
  end.

(** [o[k] = v], the object being given by its [Object.entries] *)
Definition set {A} (k : string) (v : A) (o : list (string * A))
  : list (string * A) :=
  match replace k v o with
  | Some o' => o'
  | None =>
      match array_index k with
      | Some n => insert_index n k v o
      | None => o ++ [(k, v)]
      end
  end.

Fixpoint get {A} (k : string) (o : list (string * A)) : option A :=
  match o with
  | [] => None
  | (k', v) :: r => if String.eqb k k' then Some v else get k r
  end.

End Obj.

(* ================================================================== *)
(** * The network, as the API client sees it                           *)
(* ================================================================== *)

Module Http.

Inductive Method := GET | POST.
Inductive Redirect := manual | follow.

Record Request := {
  method : Method;
  url : string;
  headers : list (string * string);
  body : option (list (string * string));
  redirect : Redirect
}.

(** The accounts of one region of the memberships listing: an array,
    or an object whose values may be arrays. *)
Record RawAccount := {
  id : option string;
  hasError : bool;
  library : option string;
  barcode : option string;
  name : option string;
  libraryName : option string
}.
Inductive Accounts :=
| AccountArray (l : list RawAccount)
| AccountObject (o : list (string * option (list RawAccount))).
Record Region := {
  region_library : option Accounts;
  region_region : option Accounts
}.

Record Activities := {
  numberOfLoans : option Z;
  numberOfHolds : option Z;
  openAmount : option Z;
  loanHistoryUrl : option string
}.

(** What the selectors of [getLoanDetails] find in one
    [...__loan] element. *)
Record LoanElement := {
  title_href : option string;
  title_text : string;
  cover_src : option string;
  author_text : string;
  type_text : string;
  from_text : string;
  till_text : string;
  days_text : string;
  checkbox_id : option string
}.

Record ListRef := {
  list_url : string;
  list_title : string
}.

(** A response body, already read the way its consumer reads it
    ([response.json()], or [cheerio.load] and the selectors used);
    a body of another kind than the consumer's [json()] expects
    stands for a document that does not parse. *)
Inductive Document :=
| Blank
| MembershipsJson (m : list (string * Region))
| ActivitiesJson (a : Activities)
| LoansJson (l : list Overview.Loan)
| ReservationsJson (length : Z)
| LoansPage (wrappers : list (list LoanElement))
| ExtendPage (form_inputs : option (list (option string * option string)))
| ListsPage (lists : option (list ListRef))
| ListItemsJson (length : Z).

Record Response := {
  status : Z;
  location : option string;
  document : Document
}.

Definition ok (r : Response) : bool := ((200 <=? status r) && (status r <=? 299))%bool.

(** [fetch] resolves with a response or rejects (transport failure,
    timeout). *)
Inductive Result :=
| Reply (r : Response)
| Rejected (reason : string).

End Http.

(** The running app: the API client instance ([seq] requests sent so
    far, [authenticated]), the device instance, and the reading of
    [new Date()]. *)
Record World := {
  seq : nat;
  sent : list Http.Request;
  authenticated : bool;
  clock : Z;
  device : Device
}.

Inductive Outcome (A : Type) :=
| Ok (a : A)
| Throw (e : Error).
Arguments Ok {A} a.
Arguments Throw {A} e.

(** The promises of the platform that the device awaits. *)
Inductive Platform :=
| getStoreValue
| setStoreValue
| setCapabilityValues
| setAvailable
| setUnavailable
| setTimeout.

(** A write to the instances: it sets the client's [authenticated]
    flag, updates the device, or lets time pass. *)
Inductive Effect :=
| SetAuthenticated (b : bool)
| Update (f : Device -> Device)
| Elapse (ms : Z).

(** An async function, as the steps it takes: it returns, throws,
    awaits a [fetch] (and goes on with what the service answered),
    awaits a promise of the platform, or reads or writes the state of
    the instances (which takes no await). *)
Inductive Async (A : Type) : Type :=
| Done (a : A)
| Failed (e : Error)
| Fetch (req : Http.Request) (k : Http.Result -> Async A)
| Await (what : Platform) (k : Async A)
| Read (k : World -> Async A)
| Write (e : Effect) (k : Async A).
Arguments Done {A} a.
Arguments Failed {A} e.
Arguments Fetch {A} req k.
Arguments Await {A} what k.
Arguments Read {A} k.
Arguments Write {A} e k.

Definition ret {A} (a : A) : Async A := Done a.
Definition throw {A} (e : Error) : Async A := Failed e.

Fixpoint bind {A B} (m : Async A) (f : A -> Async B) : Async B :=
  match m with
  | Done a => f a
  | Failed e => Failed e
  | Fetch req k => Fetch req (fun r => bind (k r) f)
  | Await what k => Await what (bind k f)
  | Read k => Read (fun w => bind (k w) f)
  | Write e k => Write e (bind k f)
  end.

(** [try { m } catch (e) { handler(e) }] *)
Fixpoint try_catch {A} (m : Async A) (handler : Error -> Async A) : Async A :=
  match m with
  | Done a => Done a
  | Failed e => handler e
  | Fetch req k => Fetch req (fun r => try_catch (k r) handler)
  | Await what k => Await what (try_catch k handler)
  | Read k => Read (fun w => try_catch (k w) handler)
  | Write e k => Write e (try_catch k handler)
  end.

Declare Scope async_scope.
Delimit Scope async_scope with async.
Notation "x <- m ;; k" := (bind m (fun x => k))
  (at level 61, m at next level, right associativity) : async_scope.
Notation "m ;;; k" := (bind m (fun _ => k))
  (at level 61, right associativity) : async_scope.
Open Scope async_scope.

(** [for (const x of l) { acc = await f(acc, x) }] *)
Fixpoint for_each {A S} (f : S -> A -> Async S) (l : list A) (acc : S) : Async S :=
  match l with
  | [] => ret acc
  | x :: r => acc' <- f acc x ;; for_each f r acc'
  end.

(** [await this.fetch(url, options)]: resolves with the response or
    rejects *)
Definition fetch (req : Http.Request) : Async Http.Response :=
  Fetch req (fun result =>
               match result with
               | Http.Reply r => Done r
               | Http.Rejected reason => Failed (FetchRejected reason)
               end).

Definition await (what : Platform) : Async unit := Await what (Done tt).

Definition with_authenticated (b : bool) (w : World) : World :=
  {| seq := seq w; sent := sent w; authenticated := b; clock := clock w;
     device := device w |}.

Definition with_device (f : Device -> Device) (w : World) : World :=
  {| seq := seq w; sent := sent w; authenticated := authenticated w;
     clock := clock w; device := f (device w) |}.

Definition with_request (req : Http.Request) (w : World) : World :=
  {| seq := S (seq w); sent := sent w ++ [req];
     authenticated := authenticated w; clock := clock w; device := device w |}.

Definition with_clock (ms : Z) (w : World) : World :=
  {| seq := seq w; sent := sent w; authenticated := authenticated w;
     clock := clock w + ms; device := device w |}.

Definition apply_effect (e : Effect) (w : World) : World :=
  match e with
  | SetAuthenticated b => with_authenticated b w
  | Update f => with_device f w
  | Elapse ms => with_clock ms w
  end.

Definition set_authenticated (b : bool) : Async unit :=
  Write (SetAuthenticated b) (Done tt).

Definition read_clock : Async Z := Read (fun w => Done (clock w)).

Definition this : Async Device := Read (fun w => Done (device w)).

Definition update (f : Device -> Device) : Async unit :=
  Write (Update f) (Done tt).

(** [await new Promise(resolve => setTimeout(resolve, ms))] *)
Definition sleep (ms : Z) : Async unit :=
  Await setTimeout (Write (Elapse ms) (Done tt)).

(** One call run from start to end with nothing else in between: each
    request is answered by the service ([net n req] is the answer to
    the [n]-th request sent), each promise of the platform resolves. *)
Fixpoint run {A} (net : nat -> Http.Request -> Http.Result)
    (p : Async A) (w : World) : Outcome A * World :=
  match p with
  | Done a => (Ok a, w)
  | Failed e => (Throw e, w)
  | Fetch req k => run net (k (net (seq w) req)) (with_request req w)
  | Await _ k => run net k w
  | Read k => run net (k w) w
  | Write e k => run net k (apply_effect e w)
  end.

(* ================================================================== *)
(** * lib/BibliotheekAPI.js                                            *)
(* ================================================================== *)

Module JSString.

(** [s.replace(sub, '')]: the first occurrence only *)
Definition remove_first (sub s : string) : string :=
  match URL.cut sub s with
  | Some (a, b) => a ++ b
  | None => s
  end.

Definition toLowerCase (s : string) : string := URL.map_string URL.lower s.

Fixpoint digit_prefix (s : string) : string :=
  match s with
  | EmptyString => EmptyString
  | String c r =>
      match JS.digit_val c with
      | Some _ => String c (digit_prefix r)
      | None => EmptyString
      end
  end.

(** [parseInt(s, 10)]; [None] is [NaN].  The integer read is exact;
    that of JavaScript is its nearest double, the same below 2^53. *)
Definition parseInt (s : string) : option Z :=
  match JS.trim_left s with
  | String "-"%char r => option_map Z.opp (JS.nonempty_digits (digit_prefix r))
  | String "+"%char r => JS.nonempty_digits (digit_prefix r)
  | t => JS.nonempty_digits (digit_prefix t)
  end.

(** [s.split('/').pop()] *)
Definition last_segment (s : string) : string :=
  List.last (JS.split "/" s) EmptyString.

End JSString.

Definition baseHeaders : list (string * string) :=
  [("User-Agent", "Mozilla/5.0 (Windows NT 10.0; Win64; x64) AppleWebKit/537.36 (KHTML, like Gecko) Chrome/122.0.0.0 Safari/537.36");
   ("Accept", "application/json, text/html, application/xhtml+xml");
   ("Accept-Language", "nl-BE,nl;q=0.9,en;q=0.8")].

Definition loginHeaders (oauthLocation : string) : list (string * string) :=
  baseHeaders ++
  [("Content-Type", "application/x-www-form-urlencoded");
   ("Host", "mijn.bibliotheek.be");
   ("Origin", "https://bibliotheek.be");
   ("Referer", oauthLocation)].

Definition get_request (u : string) (r : Http.Redirect) : Http.Request :=
  {| Http.method := Http.GET; Http.url := u; Http.headers := baseHeaders;
     Http.body := None; Http.redirect := r |}.

(** [BibliotheekAPI.extractLibraryNameFromUrl(url)] *)
Definition extractLibraryNameFromUrl (url : string) : string :=
  match URL.hostname url with
  | Some hostname =>
      match JS.split "." hostname with
      | name :: _ => name
      | [] => "unknown"
      end
  | None => "unknown"
  end.

(** the body of [new URLSearchParams({hint, token, callback, email, password})] *)
Definition loginData (hint oauthToken : option string) (username password : string)
  : list (string * string) :=
  [("hint", JS.str_or hint "login");
   ("token", JS.str_or oauthToken "");
   ("callback", "https://bibliotheek.be/my-library/login/callback");
   ("email", username);
   ("password", password)].

Definition login_request (oauthLocation : string) (data : list (string * string))
  : Http.Request :=
  {| Http.method := Http.POST;
     Http.url := "https://mijn.bibliotheek.be/openbibid/rest/auth/login";
     Http.headers := loginHeaders oauthLocation;
     Http.body := Some data; Http.redirect := Http.manual |}.

Definition accessToken_request (oauthLocation : string) (data : list (string * string))
  : Http.Request :=
  {| Http.method := Http.POST;
     Http.url := "https://mijn.bibliotheek.be/openbibid/rest/accessToken";
     Http.headers := loginHeaders oauthLocation;
     Http.body := Some data; Http.redirect := Http.follow |}.

Definition auth_start_request : Http.Request :=
  {| Http.method := Http.GET;
     Http.url := "https://bibliotheek.be/mijn-bibliotheek/aanmelden";
     Http.headers := baseHeaders ++ [("Content-Type", "application/json")];
     Http.body := None; Http.redirect := Http.manual |}.

(** [/\/memberships\/(\d+)\//] on the loans URL *)
Definition accountId_of_url (url : string) : option string :=
  match URL.cut "/memberships/" url with
  | Some (_, rest) =>
      match JSString.digit_prefix rest with
      | EmptyString => None
      | ds =>
          match URL.prefix_of (ds ++ "/") rest with
          | Some _ => Some ds
          | None => None
          end
      end
  | None => None
  end.

(** the library name [getLoanDetails] derives from the title link:
    [href.split('.')[0].split('//')[1]], capitalised; when that part is
    missing the variable is left [undefined] *)
Definition libName_of_href (href : option string) : option string :=
  if JS.truthy_str href then
    match JS.split "." (JS.str_or href "") with
    | first :: _ =>
        match URL.cut "//" first with
        | Some (_, rest) =>
            Some (URL.capitalize
                    (match URL.cut "//" rest with
                     | Some (second, _) => second
                     | None => rest
                     end))
        | None => None
        end
    | [] => None
    end
  else Some EmptyString.

(** the days-remaining number read from the localized phrase *)
Definition days_of_text (text : string) : Z :=
  match JS.trim text with
  | EmptyString => 0
  | daysText =>
      let daysMatch :=
        JS.trim
          (JSString.remove_first " dag"
             (JSString.remove_first " dagen"
                (JSString.remove_first "nog " (JSString.toLowerCase daysText)))) in
      JS.num_or (JSString.parseInt daysMatch) 0
  end.

(** the record [getLoanDetails] builds for one loan element, with its key *)
Definition loan_of_element (accountId : option string) (el : Http.LoanElement)
  : string * Detail.Loan :=
  let title := JS.trim (Http.title_text el) in
  let extendLoanId := JS.str_or (Http.checkbox_id el) "" in
  (title ++ extendLoanId,
   {| Detail.title := title;
      Detail.author := JS.trim (Http.author_text el);
      Detail.loanType := JS.str_or (Some (JS.trim (Http.type_text el))) "Unknown";
      Detail.url := JS.str_or (Http.title_href el) "";
      Detail.imageSrc := JS.str_or (Http.cover_src el) "";
      Detail.daysRemaining := Some (days_of_text (Http.days_text el));
      Detail.loanFrom := JS.trim (Http.from_text el);
      Detail.loanTill := JS.trim (Http.till_text el);
      Detail.extendLoanId := extendLoanId;
      Detail.library := libName_of_href (Http.title_href el);
      Detail.accountId := accountId;
      Detail.isExtendable := negb (String.eqb extendLoanId "") |}).

Definition scrape_loans (accountId : option string)
    (wrappers : list (list Http.LoanElement)) : list (string * Detail.Loan) :=
  fold_left
    (fun loanDetails el =>
       let kv := loan_of_element accountId el in
       Obj.set (fst kv) (snd kv) loanDetails)
    (List.concat wrappers) [].

(** steps 4 and 5 of [login] *)
Definition login_finish (oauthLocation : string) (data : list (string * string))
    (loginResponse : Http.Response) : Async bool :=
  (if Http.status loginResponse =? 303 then
     match Http.location loginResponse with
     | Some loginLocation =>
         if JS.truthy_str (Some loginLocation) then
           callbackResponse <- fetch (get_request loginLocation Http.manual) ;;
           if Http.status callbackResponse =? 302 then
             fetch (accessToken_request oauthLocation data) ;;; ret tt
           else ret tt
         else ret tt
     | None => ret tt
     end
   else ret tt) ;;;
  verifyResponse <-
    fetch (get_request "https://bibliotheek.be/mijn-bibliotheek/lidmaatschappen"
             Http.manual) ;;
  if negb (Http.status verifyResponse =? 200) then throw VerificationFailed
  else set_authenticated true ;;; ret true.

(** [login(username, password)] *)
Definition login (username password : string) : Async bool :=
  authStartResponse <- fetch auth_start_request ;;
  if negb (Http.status authStartResponse =? 302) then
    set_authenticated true ;;; ret true
  else
    if negb (JS.truthy_str (Http.location authStartResponse)) then
      throw NoOAuthLocation
    else
      let oauthLocation := JS.str_or (Http.location authStartResponse) "" in
      if negb (URL.parses oauthLocation) then throw InvalidURL
      else
        let oauthCallback := URL.searchParams_get oauthLocation "oauth_callback" in
        let oauthToken := URL.searchParams_get oauthLocation "oauth_token" in
        let hint := URL.searchParams_get oauthLocation "hint" in
        fetch (get_request oauthLocation Http.follow) ;;;
        let data := loginData hint oauthToken username password in
        loginResponse <- fetch (login_request oauthLocation data) ;;
        if (negb (Http.status loginResponse =? 200)
            && negb (Http.status loginResponse =? 303))%bool
        then throw (LoginFailed (Http.status loginResponse))
        else login_finish oauthLocation data loginResponse.

(** The JSON endpoints.  [response.json()] is returned unchecked; a
    body is taken here to be of the shape of its endpoint, and one of
    another shape is treated as one that does not parse. *)
Definition getMemberships : Async (list (string * Http.Region)) :=
  response <- fetch (get_request "https://bibliotheek.be/api/my-library/memberships"
                       Http.follow) ;;
  if negb (Http.ok response) then throw (FetchMembershipsFailed (Http.status response))
  else match Http.document response with
       | Http.MembershipsJson m => ret m
       | _ => throw JsonError
       end.

Definition getActivities (accountId : string) : Async Http.Activities :=
  response <- fetch (get_request ("https://bibliotheek.be/api/my-library/"
                                    ++ accountId ++ "/activities") Http.follow) ;;
  if negb (Http.ok response) then throw (FetchActivitiesFailed (Http.status response))
  else match Http.document response with
       | Http.ActivitiesJson a => ret a
       | _ => throw JsonError
       end.

Definition getLoans : Async (list Overview.Loan) :=
  response <- fetch (get_request "https://bibliotheek.be/my-library-overview-loans"
                       Http.follow) ;;
  if negb (Http.ok response) then throw (FetchLoansFailed (Http.status response))
  else match Http.document response with
       | Http.LoansJson l => ret l
       | _ => throw JsonError
       end.

Definition getReservations : Async Z :=
  response <- fetch (get_request "https://bibliotheek.be/my-library-overview-reservations"
                       Http.follow) ;;
  if negb (Http.ok response) then throw (FetchReservationsFailed (Http.status response))
  else match Http.document response with
       | Http.ReservationsJson n => ret n
       | _ => throw JsonError
       end.

(** [getLoanDetails(url)]: a page without loan wrappers gives [{}] *)
Definition getLoanDetails (url : string) : Async (list (string * Detail.Loan)) :=
  response <- fetch (get_request url Http.follow) ;;
  if negb (Http.ok response) then throw (FetchLoanDetailsFailed (Http.status response))
  else match Http.document response with
       | Http.LoansPage wrappers => ret (scrape_loans (accountId_of_url url) wrappers)
       | _ => ret []
       end.

(** [getUserLists()]: list id and name (the items are fetched and
    attached to the list, which nothing in the device reads) *)
Definition getUserLists : Async (list (string * string)) :=
  response <- fetch (get_request "https://bibliotheek.be/mijn-bibliotheek/lijsten"
                       Http.follow) ;;
  if negb (Http.ok response) then ret []
  else match Http.document response with
       | Http.ListsPage (Some lists) =>
           for_each
             (fun listDetails item =>
                let listId := JSString.last_segment (Http.list_url item) in
                try_catch
                  (fetch (get_request ("https://bibliotheek.be/my-library/list/"
                                         ++ listId
                                         ++ "/list-items?items_per_page=300&status=1")
                            Http.follow) ;;;
                   ret (Obj.set listId (Http.list_title item) listDetails))
                  (fun _ => ret (Obj.set listId (Http.list_title item) listDetails)))
             lists []
       | _ => ret []
       end.

(** [extendLoans(baseUrl, extendLoanIds)] *)
Definition extendUrl (baseUrl : string) (extendLoanIds : list string) : string :=
  baseUrl ++ "/extend?loan-ids=" ++ JS.join "%2C" extendLoanIds.

Definition form_fields (inputs : list (option string * option string))
  : list (string * string) :=
  flat_map
    (fun nv => if JS.truthy_str (fst nv)
               then [(JS.str_or (fst nv) "", JS.str_or (snd nv) "")] else [])
    inputs.

Definition extend_post (u : string) (formData : list (string * string))
  : Http.Request :=
  {| Http.method := Http.POST; Http.url := u;
     Http.headers := baseHeaders
                     ++ [("Content-Type", "application/x-www-form-urlencoded")];
     Http.body := Some formData; Http.redirect := Http.follow |}.

Definition extendLoans (baseUrl : string) (extendLoanIds : list string) : Async Z :=
  match extendLoanIds with
  | [] => ret 0
  | _ =>
      let u := extendUrl baseUrl extendLoanIds in
      response <- fetch (get_request u Http.manual) ;;
      if (negb (Http.ok response) && negb (Http.status response =? 200))%bool
      then throw (ExtensionFormFailed (Http.status response))
      else
        match Http.document response with
        | Http.ExtendPage (Some inputs) =>
            fetch (extend_post u (form_fields inputs)) ;;;
            ret (Z.of_nat (List.length extendLoanIds))
        | _ => ret 0
        end
  end.

(** the accounts of one region, flattened *)
Definition accounts_of (regionType : Http.Region) : list Http.RawAccount :=
  let libraryAccounts :=
    match Http.region_library regionType with
    | Some a => Some a
    | None => Http.region_region regionType
    end in
  match libraryAccounts with
  | Some (Http.AccountArray l) => l
  | Some (Http.AccountObject o) =>
      flat_map (fun kv => match snd kv with Some l => l | None => [] end) o
  | None => []
  end.

Definition loans_url (accountId : string) : string :=
  "https://bibliotheek.be/my-library/memberships/" ++ accountId ++ "/loans".

Definition user_of_account (accountId : string) (account : Http.RawAccount)
    (activities : Http.Activities) : User.t :=
  let libraryUrl := JS.str_or (Http.library account) "" in
  {| User.accountDetails :=
       Some {| User.id := accountId;
               User.name := Http.name account;
               User.barcode := Http.barcode account;
               User.library_url := Http.library account;
               User.libraryLongName := Some (JS.str_or (Http.libraryName account) "");
               User.hasError := Http.hasError account;
               User.userName := Some (JS.str_or (Http.name account) "");
               User.libraryName :=
                 URL.capitalize (extractLibraryNameFromUrl libraryUrl) |};
     User.loans :=
       Some {| User.count := JS.num_or (Http.numberOfLoans activities) 0;
               User.url := Some (loans_url accountId) |};
     User.reservations :=
       Some {| User.count := JS.num_or (Http.numberOfHolds activities) 0;
               User.url := Some ("https://bibliotheek.be/my-library/memberships/"
                                   ++ accountId ++ "/holds") |};
     User.openAmounts :=
       Some {| User.count := JS.num_or (Http.openAmount activities) 0;
               User.url := Some ("https://bibliotheek.be/my-library/memberships/"
                                   ++ accountId ++ "/pay") |};
     User.loanDetails := None |}.

Definition with_loanDetails (user : User.t) (d : list (string * Detail.Loan))
  : User.t :=
  {| User.accountDetails := User.accountDetails user;
     User.loans := User.loans user;
     User.reservations := User.reservations user;
     User.openAmounts := User.openAmounts user;
     User.loanDetails := Some d |}.

(** body of [for (const account of accounts)] in [refreshAllData] *)
Definition account_step
    (st : list (string * User.t) * list (string * string))
    (account : Http.RawAccount)
  : Async (list (string * User.t) * list (string * string)) :=
  if (negb (Http.hasError account) && JS.truthy_str (Http.id account))%bool then
    let accountId := JS.str_or (Http.id account) "" in
    activities <- getActivities accountId ;;
    let libraryUrl := JS.str_or (Http.library account) "" in
    let user := user_of_account accountId account activities in
    let userDetails1 := Obj.set accountId user (fst st) in
    let libraryDetails1 :=
      if JS.truthy_str (Some libraryUrl)
      then Obj.set (extractLibraryNameFromUrl libraryUrl) libraryUrl (snd st)
      else snd st in
    if match Http.numberOfLoans activities with Some n => n >? 0 | None => false end
    then
      try_catch
        (loanDetails <- getLoanDetails (loans_url accountId) ;;
         ret (Obj.set accountId (with_loanDetails user loanDetails) userDetails1,
              libraryDetails1))
        (fun _ => ret (userDetails1, libraryDetails1))
    else ret (userDetails1, libraryDetails1)
  else ret st.

(** [refreshAllData(username, password)] *)
Definition refreshAllData (username password : string) : Async Data :=
  login username password ;;;
  memberships <- getMemberships ;;
  loans <- getLoans ;;
  reservations <- getReservations ;;
  st <- for_each
          (fun st region => for_each account_step (accounts_of (snd region)) st)
          memberships ([], []) ;;
  userLists <- try_catch getUserLists (fun _ => ret []) ;;
  now <- read_clock ;;
  ret {| userDetails := Some (fst st);
         loans := Some loans;
         reservations := reservations;
         libraryDetails := snd st;
         userLists := userLists;
         lastUpdated := now |}.

(* ================================================================== *)
(** * device.js: the async methods                                     *)
(* ================================================================== *)

Definition with_lastData (data : Data) (dev : Device) : Device :=
  {| username := username dev; password := password dev;
     poll_interval := poll_interval dev;
     warning_threshold := warning_threshold dev;
     lastData := Some data;
     previousDaysRemaining := previousDaysRemaining dev;
     previousLoans := previousLoans dev;
     days_remaining := days_remaining dev;
     loan_count := loan_count dev;
     reservation_count := reservation_count dev;
     loans_expiring_soon := loans_expiring_soon dev;
     some_not_extendable := some_not_extendable dev;
     unavailable := unavailable dev;
     triggered := triggered dev |}.

(** [setAvailable()] ([None]) and [setUnavailable(error.message)] *)
Definition with_unavailable (u : option Error) (dev : Device) : Device :=
  {| username := username dev; password := password dev;
     poll_interval := poll_interval dev;
     warning_threshold := warning_threshold dev;
     lastData := lastData dev;
     previousDaysRemaining := previousDaysRemaining dev;
     previousLoans := previousLoans dev;
     days_remaining := days_remaining dev;
     loan_count := loan_count dev;
     reservation_count := reservation_count dev;
     loans_expiring_soon := loans_expiring_soon dev;
     some_not_extendable := some_not_extendable dev;
     unavailable := u;
     triggered := triggered dev |}.

(** [s.replace(/\/loans$/, '')] *)
Fixpoint strip_suffix (suffix s : string) : string :=
  if String.eqb s suffix then EmptyString
  else match s with
       | EmptyString => EmptyString
       | String c r => String c (strip_suffix suffix r)
       end.

(** [user.loans?.url?.replace(/\/loans$/, '') || ''] *)
Definition baseUrl_of (user : User.t) : string :=
  match User.loans user with
  | Some l =>
      match User.url l with
      | Some u => strip_suffix "/loans" u
      | None => EmptyString
      end
  | None => EmptyString
  end.

(** the test in the inner loop of [extendAllLoans] *)
Definition eligible (maxDays : Z) (loan : Detail.Loan) : bool :=
  (Detail.isExtendable loan
   && negb (String.eqb (Detail.extendLoanId loan) "")
   && match Detail.daysRemaining loan with
      | Some d => d <=? maxDays
      | None => false
      end)%bool.

(** [loansToExtend] after the inner loop *)
Definition loansToExtend (maxDays : Z) (details : list (string * Detail.Loan))
  : list string :=
  map (fun kv => Detail.extendLoanId (snd kv))
      (filter (fun kv => eligible maxDays (snd kv)) details).

(** [refreshData()].  Of [_processData] the awaits come first (the
    capability updates), then its effect on the instance, which is
    [_processData]. *)
Definition refreshData (host : JSDate.Host) : Async bool :=
  try_catch
    (dev <- this ;;
     data <- refreshAllData (username dev) (password dev) ;;
     update (with_lastData data) ;;;
     await setStoreValue ;;;
     await setCapabilityValues ;;;
     now <- read_clock ;;
     update (_processData host now data true) ;;;
     update (with_unavailable None) ;;;
     await setAvailable ;;;
     ret true)
    (fun error =>
       update (with_unavailable (Some error)) ;;;
       await setUnavailable ;;;
       ret false).

(** [_setupPolling()]: the interval in ms, and the callback handed to
    [setInterval]; every tick of the timer is a call of the callback,
    whether or not an earlier one has returned *)
Definition intervalMs (dev : Device) : Z :=
  JS.num_or (poll_interval dev) 30 * 60 * 1000.

Definition pollingCallback (host : JSDate.Host) : Async bool :=
  refreshData host ;;; ret true.

(** body of [for (const [userId, user] of Object.entries(data.userDetails))]
    in [extendAllLoans] *)
Definition extend_account (maxDays : Z) (totalExtended : Z)
    (entry : string * User.t) : Async Z :=
  let user := snd entry in
  match User.loanDetails user with
  | None => ret totalExtended
  | Some details =>
      let ids := loansToExtend maxDays details in
      let baseUrl := baseUrl_of user in
      if (negb (Nat.eqb (List.length ids) 0)
          && negb (String.eqb baseUrl ""))%bool
      then count <- extendLoans baseUrl ids ;; ret (totalExtended + count)
      else ret totalExtended
  end.

(** [extendAllLoans(maxDays)] *)
Definition extendAllLoans (host : JSDate.Host) (maxDays : Z) : Async bool :=
  try_catch
    (await getStoreValue ;;;
     dev <- this ;;
     match lastData dev with
     | None => ret false
     | Some data =>
         match userDetails data with
         | None => ret false
         | Some users =>
             totalExtended <- for_each (extend_account maxDays) users 0 ;;
             (if totalExtended >? 0 then
                sleep 2000 ;;; refreshData host ;;; ret tt
              else ret tt) ;;;
             ret (totalExtended >? 0)
         end
     end)
    (fun _ => ret false).

(** the assignments at the top of [onInit] *)
Definition reset_fields (dev : Device) : Device :=
  {| username := username dev; password := password dev;
     poll_interval := poll_interval dev;
     warning_threshold := warning_threshold dev;
     lastData := lastData dev;
     previousDaysRemaining := None;
     previousLoans := [];
     days_remaining := days_remaining dev;
     loan_count := loan_count dev;
     reservation_count := reservation_count dev;
     loans_expiring_soon := loans_expiring_soon dev;
     some_not_extendable := some_not_extendable dev;
     unavailable := unavailable dev;
     triggered := triggered dev |}.

(** [onInit()]: the instance fields are reset, the stored snapshot is
    processed without triggers, then the first refresh is started (the
    method does not wait for it; here it is simply what comes next) *)
Definition onInit (host : JSDate.Host) : Async bool :=
  update reset_fields ;;;
  await getStoreValue ;;;
  dev <- this ;;
  (match lastData dev with
   | Some storedData =>
       await setCapabilityValues ;;;
       now <- read_clock ;;
       update (_processData host now storedData false)
   | None => ret tt
   end) ;;;
  refreshData host.

(* ================================================================== *)
(** * Calls on the event loop                                          *)
(* ================================================================== *)

(** Several calls can be under way at once: a call runs until it next
    awaits, and goes on from there when the loop resumes it; between
    two awaits nothing else runs. *)
Module EventLoop.

(** a call that has been started *)
Inductive Task :=
| AwaitingFetch (n : nat) (req : Http.Request) (k : Http.Result -> Async bool)
| AwaitingPlatform (what : Platform) (k : Async bool)
| Settled (result : Outcome bool).

(** where a task stands, without what it will do next *)
Inductive Stage :=
| InFetch (req : Http.Request)
| InPlatform (what : Platform)
| Returned (result : Outcome bool).

Definition stage (t : Task) : Stage :=
  match t with
  | AwaitingFetch _ req _ => InFetch req
  | AwaitingPlatform what _ => InPlatform what
  | Settled r => Returned r
  end.

(** run a call up to its next await *)
Fixpoint until_await (p : Async bool) (w : World) : Task * World :=
  match p with
  | Done a => (Settled (Ok a), w)
  | Failed e => (Settled (Throw e), w)
  | Fetch req k => (AwaitingFetch (seq w) req k, with_request req w)
  | Await what k => (AwaitingPlatform what k, w)
  | Read k => until_await (k w) w
  | Write e k => until_await k (apply_effect e w)
  end.

Record Loop := {
  tasks : list Task;
  world : World
}.

Fixpoint replace_nth (i : nat) (t : Task) (l : list Task) : list Task :=
  match l, i with
  | [], _ => []
  | _ :: r, O => t :: r
  | x :: r, S j => x :: replace_nth j t r
  end.

(** a call is made: it runs at once, up to its first await *)
Definition call (p : Async bool) (l : Loop) : Loop :=
  let tw := until_await p (world l) in
  {| tasks := tasks l ++ [fst tw]; world := snd tw |}.

(** the promise task [i] awaits settles: the task runs to its next await *)
Definition resume (net : nat -> Http.Request -> Http.Result) (i : nat) (l : Loop)
  : Loop :=
  match nth_error (tasks l) i with
  | Some (AwaitingFetch n req k) =>
      let tw := until_await (k (net n req)) (world l) in
      {| tasks := replace_nth i (fst tw) (tasks l); world := snd tw |}
  | Some (AwaitingPlatform _ k) =>
      let tw := until_await k (world l) in
      {| tasks := replace_nth i (fst tw) (tasks l); world := snd tw |}
  | _ => l
  end.

Inductive Input :=
| Call (p : Async bool)
| Resume (i : nat).

Definition step (net : nat -> Http.Request -> Http.Result) (l : Loop) (i : Input)
  : Loop :=
  match i with
  | Call p => call p l
  | Resume n => resume net n l
  end.

Definition steps (net : nat -> Http.Request -> Http.Result) (inputs : list Input)
    (l : Loop) : Loop :=
  fold_left (step net) inputs l.

Definition start (w : World) : Loop := {| tasks := []; world := w |}.

Definition is_settled (t : Task) : bool :=
  match t with Settled _ => true | _ => false end.

(** the calls that have been started and have not returned *)
Definition in_flight (l : Loop) : nat :=
  List.length (filter (fun t => negb (is_settled t)) (tasks l)).

End EventLoop.

(* ================================================================== *)
(** * Notions of the specification                                     *)
(* ================================================================== *)

(** The specification's days remaining: the signed number of calendar
    days from the local day of [now] to the date [day/month/year]. *)
Definition calendar_days_until (z : JSDate.TimeZone) (now : Z) (year month day : Z) : Z :=
  JSDate.MakeDay year (month - 1) day - JSDate.Day (JSDate.LocalTime z now).

(** The specification's aggregate: the least [daysLeft] over the loans
    of a snapshot, absent when there is none. *)
Definition min_daysLeft (m : LoanMap) : option Z :=
  fold_left
    (fun acc kv =>
       match acc with
       | None => Some (Current.daysLeft (snd kv))
       | Some a => Some (Z.min a (Current.daysLeft (snd kv)))
       end)
    m None.

(** Every loan of the map is at or above the reported minimum. *)
Definition min_bounds (t : Totals) : Prop :=
  forall kv, In kv (currentLoans t) ->
    exists m, minDaysRemaining t = Some m /\ m <= Current.daysLeft (snd kv).

Definition is_days_changed (e : Event) : bool :=
  match e with days_changed _ _ => true | _ => false end.
Definition is_loan_expiring (e : Event) : bool :=
  match e with loan_expiring _ _ _ _ => true | _ => false end.
Definition is_loan_expired (e : Event) : bool :=
  match e with loan_expired _ _ _ => true | _ => false end.

(** The specification's rule for LoanExpiringSoon. *)
Definition expiring_soon_rule (warningThreshold : Z) (previousLoans : LoanMap)
    (key : string) (loan : Current.Loan) : Prop :=
  (0 <= Current.daysLeft loan <= warningThreshold) /\
  (LoanMapOps.get key previousLoans = None \/
   exists p, LoanMapOps.get key previousLoans = Some p
             /\ Current.daysLeft p > warningThreshold).

(** What a loan yields when nothing is known of it from before: the
    events of a first observation. *)
Definition first_sight_events (warningThreshold : Z)
    (entry : string * Current.Loan) : list Event :=
  let loan := snd entry in
  let d := Current.daysLeft loan in
  (if ((0 <=? d) && (d <=? warningThreshold))%bool
   then [loan_expiring (Current.title loan) d (Current.libraryName loan)
           (Current.userName loan)]
   else [])
  ++
  (if d <? 0
   then [loan_expired (Current.title loan) (Z.abs d) (Current.libraryName loan)]
   else []).

(** The overview entries of a snapshot paired with the detail records of
    its accounts, in the order [_processData] walks them. *)
Definition detail_entries (users : list (string * User.t))
  : list (string * Detail.Loan) :=
  flat_map
    (fun entry =>
       match User.loanDetails (snd entry) with
       | Some details => map (fun kv => (user_userName (snd entry), snd kv)) details
       | None => []
       end)
    users.

(** What [detail_step] does to the map of loans. *)
Definition merge_map (m : LoanMap) (userName : string) (loanDetail : Detail.Loan)
  : LoanMap :=
  match Detail.daysRemaining loanDetail with
  | None => m
  | Some dr =>
      match LoanMapOps.get (detailKey userName loanDetail) m with
      | None => m
      | Some existingLoan =>
          LoanMapOps.set (detailKey userName loanDetail)
            (merge_detail existingLoan dr loanDetail) m
      end
  end.

(** Two records that agree on the fields the overview alone supplies. *)
Definition same_coarse (a b : Current.Loan) : Prop :=
  Current.title a = Current.title b
  /\ Current.author a = Current.author b
  /\ Current.libraryName a = Current.libraryName b
  /\ Current.userName a = Current.userName b
  /\ Current.dueDate a = Current.dueDate b.

(** A computation that only ever adds to the requests sent. *)
Definition extends {A} (m : World -> Outcome A * World) : Prop :=
  forall w, exists rest, sent (snd (m w)) = (sent w ++ rest)%list.

(** What every account record written by [refreshAllData] satisfies:
    it carries the URL of its loans page, and each of its detail
    records has a days-remaining value and is extendable exactly when
    it has a renewal identifier. *)
Definition scraped (loan : Detail.Loan) : Prop :=
  Detail.daysRemaining loan <> None
  /\ Detail.isExtendable loan = negb (String.eqb (Detail.extendLoanId loan) "").

Definition well_formed_user (user : User.t) : Prop :=
  baseUrl_of user <> EmptyString
  /\ forall details kv,
       User.loanDetails user = Some details -> In kv details -> scraped (snd kv).

(** Code of the API client: it never writes to the device. *)
Fixpoint api_only {A} (p : Async A) : Prop :=
  match p with
  | Done _ => True
  | Failed _ => True
  | Fetch _ k => forall r, api_only (k r)
  | Await _ k => api_only k
  | Read k => forall w, api_only (k w)
  | Write e k => match e with Update _ => False | _ => True end /\ api_only k
  end.

(** The batch an account is due in [extendAllLoans]. *)
Definition account_batch (maxDays : Z) (user : User.t) : list string :=
  match User.loanDetails user with
  | Some details => loansToExtend maxDays details
  | None => []
  end.

Definition has_batch (maxDays : Z) (entry : string * User.t) : bool :=
  negb (Nat.eqb (List.length (account_batch maxDays (snd entry))) 0).

(** The request that opens an account's batch: the renewal form
    addressed by the joined renewal identifiers. *)
Definition batch_request (maxDays : Z) (entry : string * User.t) : Http.Request :=
  get_request
    (extendUrl (baseUrl_of (snd entry)) (account_batch maxDays (snd entry)))
    Http.manual.

Definition is_form_get (r : Http.Request) : bool :=
  match Http.method r, Http.redirect r with
  | Http.GET, Http.manual => true
  | _, _ => false
  end.

(* ================================================================== *)
(** * Scenarios                                                        *)
(* ================================================================== *)

Module Scenario.

Definition reply (status : Z) (doc : Http.Document) : Http.Result :=
  Http.Reply {| Http.status := status; Http.location := None;
                Http.document := doc |}.

Definition redirect_to (status : Z) (loc : string) : Http.Result :=
  Http.Reply {| Http.status := status; Http.location := Some loc;
                Http.document := Http.Blank |}.

(** a service that answers the [n]-th request with the [n]-th entry *)
Definition script (answers : list Http.Result) : nat -> Http.Request -> Http.Result :=
  fun n _ => nth n answers (Http.Rejected "timeout").

(** Saturday 28 March 2026, 12:00 in Brussels (11:00 UTC) *)
Definition noon_28_march_2026 : Z :=
  JSDate.MakeDate (JSDate.MakeDay 2026 2 28) (11 * 3600000).

(** Monday 2 November 2026, 12:00 UTC *)
Definition noon_2_nov_2026 : Z :=
  JSDate.MakeDate (JSDate.MakeDay 2026 10 2) (12 * 3600000).

Definition account_an : Http.RawAccount :=
  {| Http.id := Some "1001"; Http.hasError := false;
     Http.library := Some "https://gent.bibliotheek.be";
     Http.barcode := Some "122255"; Http.name := Some "An";
     Http.libraryName := Some "Bibliotheek Gent" |}.

Definition account_bo : Http.RawAccount :=
  {| Http.id := Some "1002"; Http.hasError := false;
     Http.library := Some "https://gent.bibliotheek.be";
     Http.barcode := Some "122256"; Http.name := Some "Bo";
     Http.libraryName := Some "Bibliotheek Gent" |}.

Definition memberships (accounts : list Http.RawAccount) : Http.Document :=
  Http.MembershipsJson
    [("Oost-Vlaanderen",
      {| Http.region_library := Some (Http.AccountArray accounts);
         Http.region_region := None |})].

Definition activities (n : Z) : Http.Document :=
  Http.ActivitiesJson
    {| Http.numberOfLoans := Some n; Http.numberOfHolds := Some 0;
       Http.openAmount := Some 0; Http.loanHistoryUrl := None |}.

(** the overview entry of a loan due on [due] *)
Definition overview_loan (title account due : string) : Overview.Loan :=
  {| Overview.title := Some title; Overview.author := Some "";
     Overview.dueDate := Some due; Overview.isRenewable := Some true;
     Overview.accountName := Some account;
     Overview.location :=
       Some {| Overview.libraryName := Some "Gent";
               Overview.libraryUrl := Some "https://gent.bibliotheek.be" |};
     Overview.extendLoanId := None |}.

(** the same loan on the account's loans page *)
Definition loan_element (title days : string) (checkbox : option string)
  : Http.LoanElement :=
  {| Http.title_href := Some "https://gent.bibliotheek.be/catalogus/1";
     Http.title_text := title; Http.cover_src := None;
     Http.author_text := ""; Http.type_text := "Boek";
     Http.from_text := ""; Http.till_text := "";
     Http.days_text := days; Http.checkbox_id := checkbox |}.

(** One cycle: the session is still valid; one account with one loan
    that the overview gives as due on 5 November (in 3 days) while the
    account's page says "Nog 5 dagen". *)
Definition cycle_dune : list Http.Result :=
  [ reply 200 Http.Blank;
    reply 200 (memberships [account_an]);
    reply 200 (Http.LoansJson [overview_loan "Dune" "An" "05/11/2026"]);
    reply 200 (Http.ReservationsJson 0);
    reply 200 (activities 1);
    reply 200 (Http.LoansPage [[loan_element "Dune" "Nog 5 dagen" (Some "x1")]]);
    reply 200 (Http.ListsPage None) ].

(** One cycle of an account without loans. *)
Definition cycle_no_loans : list Http.Result :=
  [ reply 200 Http.Blank;
    reply 200 (memberships [account_an]);
    reply 200 (Http.LoansJson []);
    reply 200 (Http.ReservationsJson 0);
    reply 200 (activities 0);
    reply 200 (Http.ListsPage None) ].



Definition one_loan : Http.Activities :=
  {| Http.numberOfLoans := Some 1; Http.numberOfHolds := Some 0;
     Http.openAmount := Some 0; Http.loanHistoryUrl := None |}.

Definition dune_overview : Overview.Loan := overview_loan "Dune" "An" "05/11/2026".

Definition dune_detail : Detail.Loan :=
  snd (loan_of_element (Some "1001")
         (loan_element "Dune" "Nog 5 dagen" (Some "x1"))).

Definition users_dune : list (string * User.t) :=
  [("1001",
    with_loanDetails (user_of_account "1001" account_an one_loan)
      [("Dunex1", dune_detail)])].

(** the snapshot the cycle [cycle_dune] stores *)
Definition snapshot_dune : Data :=
  {| userDetails := Some users_dune;
     loans := Some [dune_overview];
     reservations := 0;
     libraryDetails := [("gent", "https://gent.bibliotheek.be")];
     userLists := [];
     lastUpdated := noon_2_nov_2026 |}.

(** An extension of that loan: the renewal form is served and its
    resubmission confirmed; then the follow-up refresh. *)
Definition extension_of_dune : list Http.Result :=
  [ reply 200 (Http.ExtendPage (Some [(Some "form_id", Some "extend_loan_form")]));
    reply 200 Http.Blank ]
  ++ cycle_dune.

Definition device_with_dune : Device :=
  new_device "an@example.org" "secret" None None (Some snapshot_dune).

Definition loan_at (days : Z) : Current.Loan :=
  {| Current.title := "Dune"; Current.author := ""; Current.daysLeft := days;
     Current.libraryName := "Gent"; Current.userName := "An";
     Current.isExtendable := true; Current.dueDate := None;
     Current.extendLoanId := None |}.

(** A cycle that starts with a full login: redirect to the
    authorization URL, authorization page, credentials accepted,
    verification, and then the requests of [cycle_dune]. *)
Definition authorize_url : string :=
  "https://mijn.bibliotheek.be/openbibid/rest/auth/authorize?oauth_token=t0k3n&hint=login".

Definition cycle_with_login : list Http.Result :=
  [ redirect_to 302 authorize_url;
    reply 200 Http.Blank;
    reply 200 Http.Blank;
    reply 200 Http.Blank ]
  ++ tl cycle_dune.

(** a service that gives each answer twice in a row *)
Definition twice {A} (l : list A) : list A := flat_map (fun x => [x; x]) l.

(** two tasks resumed in turn, [n] times each *)
Definition in_turn (n : nat) : list EventLoop.Input :=
  List.concat (repeat [EventLoop.Resume 0; EventLoop.Resume 1] n).

(** the loans of the specification's selection example *)
Definition detail_loan (title extendLoanId : string) (days : Z) : Detail.Loan :=
  {| Detail.title := title; Detail.author := ""; Detail.loanType := "Boek";
     Detail.url := ""; Detail.imageSrc := ""; Detail.daysRemaining := Some days;
     Detail.loanFrom := ""; Detail.loanTill := "";
     Detail.extendLoanId := extendLoanId; Detail.library := Some "Gent";
     Detail.accountId := Some "1001";
     Detail.isExtendable := negb (String.eqb extendLoanId "") |}.

Definition loans_A_B_C : list (string * Detail.Loan) :=
  [("Ax1", detail_loan "A" "x1" 3);
   ("B", detail_loan "B" "" 2);
   ("Cx3", detail_loan "C" "x3" 9)].

(** a snapshot of three overview loans due in 5, -1 and 12 days *)
Definition snapshot_5_m1_12 : Data :=
  {| userDetails := Some [];
     loans := Some [overview_loan "A" "An" "07/11/2026";
                    overview_loan "B" "An" "01/11/2026";
                    overview_loan "C" "An" "14/11/2026"];
     reservations := 0; libraryDetails := []; userLists := [];
     lastUpdated := noon_2_nov_2026 |}.

Definition fresh_device : Device :=
  new_device "an@example.org" "secret" None None None.

(** the app before its first request *)
Definition world0 (dev : Device) (clock : Z) : World :=
  {| seq := 0; sent := []; authenticated := false; clock := clock;
     device := dev |}.

End Scenario.

(* ================================================================== *)
(** * More of the JavaScript library                                   *)
(* ================================================================== *)

From Stdlib Require Import DecimalString Sorted Permutation.

(** In what follows a string is the sequence of its UTF-16 code units,
    for text whose code units are below 256; [length] and [substring]
    count code units, as JavaScript does. *)
Module JSText.

(** [String(n)], as a template literal converts an integer (one of
    magnitude below 1e21, where JavaScript changes to exponent
    notation) *)
Definition toString (n : Z) : string := NilZero.string_of_int (Z.to_int n).

(** ['\n'] *)
Definition newline : string := String (ascii_of_nat 10) EmptyString.

(** [s.substring(0, n)] *)
Definition substring_to (n : nat) (s : string) : string := String.substring 0 n s.

End JSText.

(** [Array.prototype.sort((a, b) => key(a) - key(b))] on integer keys.
    The comparator is consistent and the sort is stable (ECMAScript
    2019), so the outcome is the one stable ordering by key, whatever
    the algorithm; insertion sort computes it. *)
Module JSArray.

Fixpoint insert_by {A} (key : A -> Z) (x : A) (l : list A) : list A :=
  match l with
  | [] => [x]
  | y :: r => if key x <=? key y then x :: y :: r else y :: insert_by key x r
  end.

Fixpoint sort_by {A} (key : A -> Z) (l : list A) : list A :=
  match l with
  | [] => []
  | x :: r => insert_by key x (sort_by key r)
  end.

End JSArray.

(* ================================================================== *)
(** * lib/BibliotheekAPI.js: countRepeatedNumbers                      *)
(* ================================================================== *)

(** the two [counts.push] of [countRepeatedNumbers], which close the
    run of [currentChar] *)
Definition push_run (counts : list string) (currentChar : option ascii)
    (currentCount : Z) : list string :=
  if currentCount >? 1 then
    (counts ++ [(JSText.toString currentCount ++ "x"
                 ++ match currentChar with
                    | Some c => String c EmptyString
                    | None => "null"
                    end)%string])%list
  else
    match currentChar with
    | Some c => (counts ++ [String c EmptyString])%list
    | None => counts
    end.

(** [for (const char of inputString)] with its three variables *)
Fixpoint countRepeatedNumbers_loop (chars : list ascii) (counts : list string)
    (currentChar : option ascii) (currentCount : Z) : list string :=
  match chars with
  | [] => push_run counts currentChar currentCount
  | char :: rest =>
      if match currentChar with
         | Some c => Ascii.eqb char c
         | None => false
         end
      then countRepeatedNumbers_loop rest counts currentChar (currentCount + 1)
      else countRepeatedNumbers_loop rest
             (push_run counts currentChar currentCount) (Some char) 1
  end.

(** [BibliotheekAPI.countRepeatedNumbers(inputString)] *)
Definition countRepeatedNumbers (inputString : string) : list string :=
  countRepeatedNumbers_loop (list_ascii_of_string inputString) [] None 0.

(* ================================================================== *)
(** * device.js: _buildLoansSummary                                    *)
(* ================================================================== *)

(** The [loansByUser] map: user names in the order they first occur,
    each with its loans in the order they were pushed. *)
Definition LoansByUser := list (string * list Current.Loan).

(** [if (!loansByUser.has(userName)) loansByUser.set(userName, []);
     loansByUser.get(userName).push(loan)] *)
Fixpoint push_loan (userName : string) (loan : Current.Loan) (m : LoansByUser)
  : LoansByUser :=
  match m with
  | [] => [(userName, [loan])]
  | (u, loans) :: r =>
      if String.eqb userName u then (u, (loans ++ [loan])%list) :: r
      else (u, loans) :: push_loan userName loan r
  end.

Definition summary_userName (loan : Current.Loan) : string :=
  JS.str_or (Some (Current.userName loan)) "Unknown".

Definition loansByUser (currentLoans : LoanMap) : LoansByUser :=
  fold_left (fun m loan => push_loan (summary_userName loan) loan m)
    (LoanMapOps.values currentLoans) [].

(** the line of one loan *)
Definition loan_line (loan : Current.Loan) : string :=
  let daysStr :=
    if Current.daysLeft loan <? 0
    then JSText.toString (Z.abs (Current.daysLeft loan)) ++ "d overdue!"
    else JSText.toString (Current.daysLeft loan) ++ "d" in
  let extendable := if Current.isExtendable loan then "" else " [!]" in
  "  - " ++ Current.title loan ++ " (" ++ daysStr ++ ")" ++ extendable.

(** the lines of one user: the heading, then the loans, most urgent
    first *)
Definition user_lines (entry : string * list Current.Loan) : list string :=
  let loans := JSArray.sort_by Current.daysLeft (snd entry) in
  (fst entry ++ " (" ++ JSText.toString (Z.of_nat (List.length loans)) ++ "):")
  :: map loan_line loans.

Definition summary_lines (currentLoans : LoanMap) : list string :=
  flat_map user_lines (loansByUser currentLoans).

(** [_buildLoansSummary(currentLoans, userDetails)]; the second
    argument is not used *)
Definition _buildLoansSummary (currentLoans : LoanMap)
    (userDetails : option (list (string * User.t))) : string :=
  let summary := JS.join JSText.newline (summary_lines currentLoans) in
  let summary :=
    if (500 <? String.length summary)%nat
    then JSText.substring_to 497 summary ++ "..."
    else summary in
  JS.str_or (Some summary) "No loans".

(* ================================================================== *)
(** * device.js: the polling timer                                     *)
(* ================================================================== *)

(** The timers of the platform ([homey.setInterval] and
    [homey.clearInterval]): each running timer with its handle and its
    period in ms. *)
Module Timers.

Record t := {
  next : nat;
  running : list (nat * Z)
}.

Definition setInterval (ms : Z) (tm : t) : nat * t :=
  (next tm, {| next := S (next tm); running := (running tm ++ [(next tm, ms)])%list |}).

Definition clearInterval (handle : nat) (tm : t) : t :=
  {| next := next tm;
     running := filter (fun r => negb (Nat.eqb (fst r) handle)) (running tm) |}.

End Timers.

(** The field [_pollInterval] of the device and the platform's timers. *)
Record Polling := {
  _pollInterval : option nat;
  timers : Timers.t
}.

(** [_setupPolling()]: the timer calls [pollingCallback] every
    [intervalMs] *)
Definition _setupPolling (dev : Device) (p : Polling) : Polling :=
  let tm1 :=
    match _pollInterval p with
    | Some handle => Timers.clearInterval handle (timers p)
    | None => timers p
    end in
  let started := Timers.setInterval (intervalMs dev) tm1 in
  {| _pollInterval := Some (fst started); timers := snd started |}.

(** the part of [onInit] that concerns the timer:
    [this._pollInterval = null; ...; this._setupPolling()] *)
Definition onInit_polling (dev : Device) (p : Polling) : Polling :=
  _setupPolling dev {| _pollInterval := None; timers := timers p |}.

(** [onSettings({ oldSettings, newSettings, changedKeys })]; [dev]
    holds the settings as [getSetting] returns them during the call *)
Definition onSettings (changedKeys : list string) (dev : Device) (p : Polling)
  : Polling :=
  if existsb (String.eqb "poll_interval") changedKeys
  then _setupPolling dev p else p.

(** [onDeleted()] *)
Definition onDeleted (p : Polling) : Polling :=
  match _pollInterval p with
  | Some handle =>
      {| _pollInterval := _pollInterval p;
         timers := Timers.clearInterval handle (timers p) |}
  | None => p
  end.

(** What happens to a device between [onInit] and [onDeleted]. *)
Definition settings_changes (changes : list (list string * Device)) (p : Polling)
  : Polling :=
  fold_left (fun q change => onSettings (fst change) (snd change) q) changes p.

(* ================================================================== *)
(** * drivers/library-account/driver.js                                *)
(* ================================================================== *)

Module Driver.

(** the run listener of the trigger card [loan_expiring]:
    [state.days_left <= args.days] *)
Definition loan_expiring_runListener (args_days state_days_left : Z) : bool :=
  state_days_left <=? args_days.

(** the condition card [has_expiring_loans] *)
Definition has_expiring_loans (device : Device) (args_days : Z) : bool :=
  match days_remaining device with
  | Some minDays => minDays <=? args_days
  | None => false
  end.

(** the condition card [can_extend_all] *)
Definition can_extend_all (device : Device) : bool :=
  negb (some_not_extendable device).

(** the condition card [has_overdue_loans] *)
Definition has_overdue_loans (device : Device) : bool :=
  match days_remaining device with
  | Some minDays => minDays <? 0
  | None => false
  end.

(** the action cards [extend_all_loans] and [refresh_data] *)
Definition extend_all_loans (host : JSDate.Host) (args_max_days : Z) : Async bool :=
  extendAllLoans host args_max_days.

Definition refresh_data (host : JSDate.Host) : Async bool :=
  refreshData host.

(** The variables of [onPair] that its handlers share. *)
Record PairSession := {
  username : string;
  password : string;
  loginSuccess : bool
}.

(** [let username = ''; let password = ''; let fetchedData = null] *)
Definition pair_start : PairSession :=
  {| username := ""; password := ""; loginSuccess := false |}.

(** the handler of ['login'] in [onPair]: the answer to the pairing
    view and the variables afterwards.  The client it logs in with is
    a new one ([authenticated] is false). *)
Definition pair_login (s : PairSession) (data_username data_password : string)
  : Async (bool * PairSession) :=
  let s1 := {| username := data_username; password := data_password;
               loginSuccess := loginSuccess s |} in
  try_catch
    (set_authenticated false ;;;
     success <- login data_username data_password ;;
     ret (success,
          if success
          then {| username := data_username; password := data_password;
                  loginSuccess := true |}
          else s1))
    (fun _ => ret (false, s1)).

Record PairSettings := {
  settings_username : string;
  settings_password : string;
  settings_poll_interval : Z;
  settings_warning_threshold : Z
}.

Record PairDevice := {
  name : string;
  data_id : string;
  settings : PairSettings
}.

(** the handler of ['list_devices'] in [onPair] *)
Definition list_devices (s : PairSession) : list PairDevice :=
  if negb (loginSuccess s) then []
  else
    [ {| name := "Bibliotheek.be (" ++ username s ++ ")";
         data_id := username s;
         settings := {| settings_username := username s;
                        settings_password := password s;
                        settings_poll_interval := 30;
                        settings_warning_threshold := 7 |} |} ].

(** a pairing session: the view submits credentials any number of
    times, each attempt after the one before has been answered *)
Definition pair_logins (attempts : list (string * string)) (s : PairSession)
  : Async (list bool * PairSession) :=
  for_each
    (fun (st : list bool * PairSession) (attempt : string * string) =>
       r <- pair_login (snd st) (fst attempt) (snd attempt) ;;
       ret ((fst st ++ [fst r])%list, snd r))
    attempts ([], s).

End Driver.

(* ================================================================== *)
(** * app.js: LibraryUserDevice.extendLoans                            *)
(* ================================================================== *)

Module LibraryUserDevice.

(** What the user device keeps in its store for the extend action. *)
Record Store := {
  userLoanDetails : option (list (string * Detail.Loan));
  loansUrl : option string
}.

(** [extendLoans(maxDays)] of the user device.  [accountDevice] tells
    whether [accountDevices.find] finds the parent; the device of the
    world is that parent, whose client and [refreshData] are used. *)
Definition extendLoans (host : JSDate.Host) (store : Store) (accountDevice : bool)
    (maxDays : Z) : Async bool :=
  try_catch
    (await getStoreValue ;;;
     let loanDetails :=
       match userLoanDetails store with Some d => d | None => [] end in
     await getStoreValue ;;;
     if negb (JS.truthy_str (loansUrl store)) then ret false
     else
       let baseUrl := strip_suffix "/loans" (JS.str_or (loansUrl store) "") in
       let ids := loansToExtend maxDays loanDetails in
       if Nat.eqb (List.length ids) 0 then ret false
       else if negb accountDevice then ret false
       else
         count <- extendLoans baseUrl ids ;;
         (if count >? 0 then sleep 2000 ;;; refreshData host ;;; ret tt
          else ret tt) ;;;
         ret (count >? 0))
    (fun _ => ret false).

End LibraryUserDevice.

(* ================================================================== *)
(** * The widget's API ([getLoans])                                    *)
(* ================================================================== *)

Module WidgetAPI.

(** One row of the widget. *)
Record Loan := {
  title : string;
  author : string;
  daysRemaining : Z;
  userName : string;
  libraryName : string;
  isExtendable : bool;
  loanType : string;
  imageSrc : option string;
  loanFrom : string;
  loanTill : string
}.

(** The two shapes of the object returned. *)
Inductive Result :=
| Failure (error : string) (loans : list Loan)
| Listing (loans : list Loan) (lastUpdated : option Z).

(** A device of the driver [library-account] as the widget sees it:
    the platform's identifier (under [__id] or [id]), [getData().id]
    and the stored snapshot. *)
Record HomeyDevice := {
  __id : option string;
  id : option string;
  data_id : option string;
  stored_lastData : option Data
}.

(** the predicate handed to [devices.find] *)
Definition is_device (deviceId : string) (d : HomeyDevice) : bool :=
  let homeyId := JS.str_or (if JS.truthy_str (__id d) then __id d else id d) "" in
  let dataId := JS.str_or (data_id d) "" in
  (String.eqb homeyId deviceId || String.eqb dataId deviceId)%bool.

(** the object pushed for one detail record *)
Definition row (userName libraryName : string) (loan : Detail.Loan) : Loan :=
  {| title := JS.str_or (Some (Detail.title loan)) "Unknown";
     author := JS.str_or (Some (Detail.author loan)) "";
     daysRemaining :=
       match Detail.daysRemaining loan with Some d => d | None => 0 end;
     userName := userName;
     libraryName := JS.str_or (Detail.library loan) libraryName;
     isExtendable := Detail.isExtendable loan;
     loanType := JS.str_or (Some (Detail.loanType loan)) "Book";
     imageSrc := JS.str_or_null (Some (Detail.imageSrc loan));
     loanFrom := JS.str_or (Some (Detail.loanFrom loan)) "";
     loanTill := JS.str_or (Some (Detail.loanTill loan)) "" |}.

(** body of [for (const [userId, user] of Object.entries(userDetails || {}))] *)
Definition user_rows (entry : string * User.t) : list Loan :=
  let user := snd entry in
  let userName :=
    JS.str_or (match User.accountDetails user with
               | Some a => User.userName a
               | None => None
               end) "Unknown" in
  let libraryName :=
    JS.str_or (match User.accountDetails user with
               | Some a => Some (User.libraryName a)
               | None => None
               end) "Unknown" in
  match User.loanDetails user with
  | Some details => map (fun kv => row userName libraryName (snd kv)) details
  | None => []
  end.

(** the array [loans] before it is sorted *)
Definition rows (storedData : Data) : list Loan :=
  flat_map user_rows
    (match userDetails storedData with Some u => u | None => [] end).

(** [getLoans({ homey, query })].  [driver] is what
    [homey.drivers.getDriver('library-account').getDevices()] gives: the
    devices, or the message of the error it throws. *)
Definition getLoans (driver : string + list HomeyDevice) (deviceId : option string)
  : Result :=
  if negb (JS.truthy_str deviceId) then Failure "No device selected" []
  else
    match driver with
    | inl message => Failure message []
    | inr devices =>
        match find (is_device (JS.str_or deviceId "")) devices with
        | None => Failure "Device not found" []
        | Some device =>
            match stored_lastData device with
            | None => Failure "No data available yet" []
            | Some storedData =>
                Listing (JSArray.sort_by daysRemaining (rows storedData))
                  (Some (lastUpdated storedData))
            end
        end
    end.

End WidgetAPI.

(* ================================================================== *)
(** * More notions                                                     *)
(* ================================================================== *)

(** The spelling of a run of [n] equal characters. *)
Definition spell (run : ascii * Z) : string :=
  if snd run >? 1
  then JSText.toString (snd run) ++ "x" ++ String (fst run) EmptyString
  else String (fst run) EmptyString.

(** Neighbouring runs are of different characters. *)
Fixpoint neighbours_differ (runs : list (ascii * Z)) : Prop :=
  match runs with
  | a :: (b :: _) as rest => fst a <> fst b /\ neighbours_differ rest
  | _ => True
  end.

(** the runs of a text that starts with [n] times [c] before [chars] *)
Fixpoint runs_from (c : ascii) (n : Z) (chars : list ascii) : list (ascii * Z) :=
  match chars with
  | [] => [(c, n)]
  | char :: rest =>
      if Ascii.eqb char c then runs_from c (n + 1) rest
      else (c, n) :: runs_from char 1 rest
  end.

(** What a computation sends and throws: every request it can send
    satisfies [R] and every error it can throw satisfies [E]. *)
Fixpoint all_steps {A} (R : Http.Request -> Prop) (E : Error -> Prop)
    (p : Async A) : Prop :=
  match p with
  | Done _ => True
  | Failed e => E e
  | Fetch req k => R req /\ forall r, all_steps R E (k r)
  | Await _ k => all_steps R E k
  | Read k => forall w, all_steps R E (k w)
  | Write _ k => all_steps R E k
  end.

(** A request body goes to the two sign-in endpoints only. *)
Definition body_to_sign_in (req : Http.Request) : Prop :=
  Http.body req = None
  \/ (Http.method req = Http.POST
      /\ (Http.url req = "https://mijn.bibliotheek.be/openbibid/rest/auth/login"
          \/ Http.url req = "https://mijn.bibliotheek.be/openbibid/rest/accessToken")).

Definition not_a_loans_page_failure (e : Error) : Prop :=
  match e with
  | FetchLoanDetailsFailed _ => False
  | _ => True
  end.

(** What the grouping keeps true of [loansByUser]: no name twice, no
    empty group, each loan under its own name. *)
Definition grouped (m : LoansByUser) : Prop :=
  NoDup (map fst m)
  /\ forall g, In g m ->
       snd g <> [] /\ forall loan, In loan (snd g) -> summary_userName loan = fst g.

(** What the device keeps true of its timer: it holds the handle of
    one running timer, the last one started, beside the timers [base]
    of others. *)
Definition one_timer (base : list (nat * Z)) (p : Polling) : Prop :=
  exists handle ms,
    _pollInterval p = Some handle
    /\ Timers.running (timers p) = (base ++ [(handle, ms)])%list
    /\ (handle < Timers.next (timers p))%nat
    /\ Forall (fun r => (fst r < handle)%nat) base.

(** Any request, any error, no error. *)
Definition any_request (req : Http.Request) : Prop := True.
Definition any_error (e : Error) : Prop := True.
Definition no_error (e : Error) : Prop := False.

(** A part of a date that starts with a letter other than [I]: no
    numeric literal starts so ([Infinity] apart), and [Number] of such
    a part is [NaN]. *)
Definition starts_with_letter (part : string) : bool :=
  match part with
  | String c _ => (URL.is_alpha c && negb (Ascii.eqb c "I"))%bool
  | EmptyString => false
  end.

(** A due date that is missing, empty, or of three parts one of which
    starts with a letter (a month given by name, say). *)
Definition undated (dueDate : option string) : Prop :=
  JS.truthy_str dueDate = false
  \/ exists day month year,
       JS.split "/" (JS.str_or dueDate "") = [day; month; year]
       /\ (starts_with_letter day = true \/ starts_with_letter month = true
           \/ starts_with_letter year = true).

(** ** Plain URLs

    The fragment of absolute URLs on which [URL.hostname],
    [URL.parses] and [URL.searchParams_get] are the WHATWG [URL]
    class exactly: the scheme [https], a host made of labels of
    letters separated by single dots (no user info, no port, no
    numeric or encoded label), then nothing or a path or query made of
    letters, digits and [/ ? = & - _ .] only (nothing to decode, no
    fragment).  What is stated about the parameters of a location or
    about the host of a library is stated on this fragment. *)
Fixpoint host_labels (s : string) (at_start : bool) : bool :=
  match s with
  | EmptyString => negb at_start
  | String c r =>
      if URL.is_alpha c then host_labels r false
      else if Ascii.eqb c "." then (negb at_start && host_labels r true)%bool
      else false
  end.

Definition plain_char (c : ascii) : bool :=
  (URL.is_alpha c
   || match JS.digit_val c with Some _ => true | None => false end
   || Ascii.eqb c "/" || Ascii.eqb c "?" || Ascii.eqb c "=" || Ascii.eqb c "&"
   || Ascii.eqb c "-" || Ascii.eqb c "_" || Ascii.eqb c ".")%bool.

Fixpoint all_plain (s : string) : bool :=
  match s with
  | EmptyString => true
  | String c r => (plain_char c && all_plain r)%bool
  end.

Definition plain_tail (s : string) : bool :=
  match s with
  | EmptyString => true
  | String c _ => ((Ascii.eqb c "/" || Ascii.eqb c "?") && all_plain s)%bool
  end.

Definition plain_url (host tail : string) : string := "https://" ++ host ++ tail.


(** ** The batch extension, as the specification describes it

    One batch extension request for the loans [ids] of an account:
    the renewal form is asked for at the address made of the
    account's base URL and the identifiers; when a form is served, its
    named fields are sent back to the same address.  [batch_exchange]
    gives the requests of one batch against a service whose next
    answer is its [n]-th, and whether the batch goes through;
    [loop_exchange] those of the accounts in turn, up to the first
    batch that does not go through. *)
Definition renewal_address (baseUrl : string) (ids : list string) : string :=
  baseUrl ++ "/extend?loan-ids=" ++ JS.join "%2C" ids.

Definition renewal_form (address : string) : Http.Request :=
  {| Http.method := Http.GET; Http.url := address; Http.headers := baseHeaders;
     Http.body := None; Http.redirect := Http.manual |}.

Definition named_fields (inputs : list (option string * option string))
  : list (string * string) :=
  map (fun nv => (JS.str_or (fst nv) "", JS.str_or (snd nv) ""))
      (filter (fun nv => JS.truthy_str (fst nv)) inputs).

Definition renewal_submission (address : string) (fields : list (string * string))
  : Http.Request :=
  {| Http.method := Http.POST; Http.url := address;
     Http.headers := (baseHeaders
                      ++ [("Content-Type", "application/x-www-form-urlencoded")])%list;
     Http.body := Some fields; Http.redirect := Http.follow |}.

Definition batch_exchange (net : nat -> Http.Request -> Http.Result) (n : nat)
    (address : string) : list Http.Request * bool :=
  match net n (renewal_form address) with
  | Http.Rejected _ => ([renewal_form address], false)
  | Http.Reply r =>
      if (Http.ok r || (Http.status r =? 200))%bool then
        match Http.document r with
        | Http.ExtendPage (Some inputs) =>
            ([renewal_form address;
              renewal_submission address (named_fields inputs)],
             match net (S n) (renewal_submission address (named_fields inputs)) with
             | Http.Reply _ => true
             | Http.Rejected _ => false
             end)
        | _ => ([renewal_form address], true)
        end
      else ([renewal_form address], false)
  end.

(** an account is due a batch when it has an eligible loan and a base URL *)
Definition due_batch (maxDays : Z) (entry : string * User.t) : bool :=
  (has_batch maxDays entry
   && negb (String.eqb (baseUrl_of (snd entry)) ""))%bool.

Definition batch_address (maxDays : Z) (entry : string * User.t) : string :=
  renewal_address (baseUrl_of (snd entry)) (account_batch maxDays (snd entry)).

Fixpoint loop_exchange (net : nat -> Http.Request -> Http.Result) (n : nat)
    (maxDays : Z) (users : list (string * User.t)) : list Http.Request * bool :=
  match users with
  | [] => ([], true)
  | entry :: rest =>
      if due_batch maxDays entry then
        let batch := batch_exchange net n (batch_address maxDays entry) in
        if snd batch then
          let later :=
            loop_exchange net (n + List.length (fst batch))%nat maxDays rest in
          ((fst batch ++ fst later)%list, snd later)
        else (fst batch, false)
      else loop_exchange net n maxDays rest
  end.

(** A text of decimal digits only. *)
Fixpoint all_digits (s : string) : bool :=
  match s with
  | EmptyString => true
  | String c r =>
      match JS.digit_val c with
      | Some _ => all_digits r
      | None => false
      end
  end.

(** The keys of a map of loans. *)
Definition keys (m : LoanMap) : list string := map fst m.

(** Ascending order of the keys of a sort. *)
Definition ascending {A} (key : A -> Z) (l : list A) : Prop :=
  StronglySorted (fun a b => key a <= key b) l.

(* ================================================================== *)
(** * More scenarios                                                   *)
(* ================================================================== *)

Module Fixture.

(** a login that the service refuses: the credentials are answered 401 *)
Definition login_refused : list Http.Result :=
  [ Scenario.redirect_to 302 Scenario.authorize_url;
    Scenario.reply 200 Http.Blank;
    Scenario.reply 401 Http.Blank ].

(** a login that the service accepts *)
Definition login_accepted : list Http.Result :=
  [ Scenario.redirect_to 302 Scenario.authorize_url;
    Scenario.reply 200 Http.Blank;
    Scenario.reply 200 Http.Blank;
    Scenario.reply 200 Http.Blank ].

(** the renewal form is served and its resubmission answered 500 *)
Definition extension_answered_500 : list Http.Result :=
  [ Scenario.reply 200 (Http.ExtendPage (Some [(Some "form_id", Some "extend_loan_form")]));
    Scenario.reply 500 Http.Blank ].

Definition store_dune : LibraryUserDevice.Store :=
  {| LibraryUserDevice.userLoanDetails := Some [("Dunex1", Scenario.dune_detail)];
     LibraryUserDevice.loansUrl := None |}.

Definition widget_device : WidgetAPI.HomeyDevice :=
  {| WidgetAPI.__id := Some "a1b2"; WidgetAPI.id := None;
     WidgetAPI.data_id := Some "an@example.org";
     WidgetAPI.stored_lastData := Some Scenario.snapshot_dune |}.

(** a platform on which no timer runs yet *)
Definition no_timers : Polling :=
  {| _pollInterval := None;
     timers := {| Timers.next := 0; Timers.running := [] |} |}.

(** an overview entry that names its library by URL only *)
Definition loan_by_url : Overview.Loan :=
  {| Overview.title := Some "Dune"; Overview.author := Some "";
     Overview.dueDate := Some "05/11/2026"; Overview.isRenewable := Some true;
     Overview.accountName := Some "An";
     Overview.location :=
       Some {| Overview.libraryName := None;
               Overview.libraryUrl := Some "https://gent.bibliotheek.be" |};
     Overview.extendLoanId := None |}.

(** an overview entry whose due date names the month, alone in its
    snapshot *)
Definition loan_undated : Overview.Loan :=
  {| Overview.title := Some "Dune"; Overview.author := Some "";
     Overview.dueDate := Some "05/nov/2026"; Overview.isRenewable := Some true;
     Overview.accountName := Some "An";
     Overview.location :=
       Some {| Overview.libraryName := Some "Gent"; Overview.libraryUrl := None |};
     Overview.extendLoanId := None |}.

Definition snapshot_undated : Data :=
  {| userDetails := Some [];
     loans := Some [loan_undated];
     reservations := 0; libraryDetails := []; userLists := [];
     lastUpdated := Scenario.noon_2_nov_2026 |}.

(** a second account, of Bo, with one loan two days from due *)
Definition emma_detail : Detail.Loan :=
  snd (loan_of_element (Some "1002")
         (Scenario.loan_element "Emma" "Nog 2 dagen" (Some "y7"))).

Definition users_two : list (string * User.t) :=
  (Scenario.users_dune
   ++ [("1002",
        with_loanDetails (user_of_account "1002" Scenario.account_bo Scenario.one_loan)
          [("Emmay7", emma_detail)])])%list.

Definition snapshot_two : Data :=
  {| userDetails := Some users_two;
     loans := Some [Scenario.dune_overview;
                    Scenario.overview_loan "Emma" "Bo" "04/11/2026"];
     reservations := 0;
     libraryDetails := [("gent", "https://gent.bibliotheek.be")];
     userLists := [];
     lastUpdated := Scenario.noon_2_nov_2026 |}.

Definition device_with_two : Device :=
  new_device "an@example.org" "secret" None None (Some snapshot_two).

(** the session has expired: the renewal form is answered with a
    redirect to the sign-in page *)
Definition session_expired : list Http.Result :=
  [ Scenario.redirect_to 302 "https://bibliotheek.be/mijn-bibliotheek/aanmelden" ].

(** the activities of an account are served, its loans page is not *)
Definition loans_page_fails : list Http.Result :=
  [ Scenario.reply 200 (Scenario.activities 1);
    Scenario.reply 500 Http.Blank ].

(** the device after the snapshot of [cycle_dune] has been processed *)
Definition device_after_dune : Device :=
  _processData JSDate.host_utc Scenario.noon_2_nov_2026 Scenario.snapshot_dune true
    Scenario.fresh_device.

End Fixture.

(* ================================================================== *)
(** * Facts about _calculateDaysRemaining                              *)
(* ================================================================== *)

Lemma calculateDaysRemaining_empty (h : JSDate.Host) (now : Z) :
  _calculateDaysRemaining h now None = 0
  /\ _calculateDaysRemaining h now (Some EmptyString) = 0.
Proof. split; reflexivity. Qed.

(** The result depends on the clock only through the local day. *)
Lemma calculateDaysRemaining_time_of_day (h : JSDate.Host) (now1 now2 : Z) s :
  JSDate.Day (JSDate.LocalTime (JSDate.tz h) now1)
  = JSDate.Day (JSDate.LocalTime (JSDate.tz h) now2) ->
  _calculateDaysRemaining h now1 s = _calculateDaysRemaining h now2 s.
Proof.
  intros Hday. unfold _calculateDaysRemaining, JSDate.setHours0.
  rewrite Hday. reflexivity.
Qed.

Lemma Day_MakeDate (d : Z) : JSDate.Day (JSDate.MakeDate d 0) = d.
Proof.
  unfold JSDate.Day, JSDate.MakeDate, JSDate.msPerDay.
  rewrite Z.add_0_r. apply Z.div_mul. lia.
Qed.

(** In a zone whose offset never changes, local midnights are whole
    days apart and the quotient is the calendar-day difference. *)
Lemma fixed_zone_exact (off now day : Z) :
  let z := JSDate.fixed_zone off in
  (JSDate.setHours0 z (JSDate.UTC z (JSDate.MakeDate day 0)) - JSDate.setHours0 z now)
    / (1000 * 60 * 60 * 24)
  = day - JSDate.Day (JSDate.LocalTime z now).
Proof.
  cbv zeta. unfold JSDate.setHours0, JSDate.UTC, JSDate.LocalTime, JSDate.fixed_zone.
  cbn [JSDate.LocalTZA_utc JSDate.LocalTZA_local].
  replace (JSDate.MakeDate day 0 - off + off) with (JSDate.MakeDate day 0) by lia.
  rewrite Day_MakeDate.
  unfold JSDate.MakeDate, JSDate.msPerDay.
  set (today := JSDate.Day (now + off)).
  replace (day * 86400000 + 0 - off - (today * 86400000 + 0 - off))
    with ((day - today) * (1000 * 60 * 60 * 24)) by lia.
  apply Z.div_mul. lia.
Qed.

(** X3 (exact where the offset is fixed): on a host whose offset never
    changes, a due date given as
    day/month/year (the year outside 0..99, the date within the range
    of a Date) yields exactly the number of calendar days from the
    local day of the clock to that date. *)
Lemma calculateDaysRemaining_fixed_zone
    (off : Z) (parse : string -> option Z) (now : Z)
    (s sd sm sy : string) (d m y : Z) :
  s <> EmptyString ->
  JS.split "/" s = [sd; sm; sy] ->
  JS.Number sd = Some d -> JS.Number sm = Some m -> JS.Number sy = Some y ->
  (y < 0 \/ 99 < y) ->
  JSDate.Date_ymd (JSDate.fixed_zone off) (Some y) (Some (m - 1)) (Some d) <> None ->
  _calculateDaysRemaining
    {| JSDate.tz := JSDate.fixed_zone off; JSDate.Date_parse := parse |} now (Some s)
  = calendar_days_until (JSDate.fixed_zone off) now y m d.
Proof.
  intros Hs Hsplit Hd Hm Hy Hyear Hvalid.
  unfold _calculateDaysRemaining.
  assert (Ht : JS.truthy_str (Some s) = true) by (destruct s; [congruence | reflexivity]).
  assert (Hso : JS.str_or (Some s) "" = s) by (destruct s; reflexivity).
  rewrite Ht, Hso, Hsplit, Hd, Hm, Hy. cbn [negb option_map JSDate.tz].
  unfold JSDate.Date_ymd in *.
  assert (Hyr : ((0 <=? y) && (y <=? 99))%bool = false).
  { destruct (Z.leb_spec 0 y), (Z.leb_spec y 99); cbn; auto; lia. }
  rewrite Hyr in *. unfold JSDate.TimeClip in *.
  destruct (Z.abs _ >? 8640000000000000); [congruence|].
  unfold calendar_days_until. apply fixed_zone_exact.
Qed.

(** C6 (the days-remaining computation): where the local offset changes
    between today and the due date the two local midnights are not a
    whole number of days apart, and the floor of the quotient is not
    the calendar-day difference.  In Brussels at noon on 28 March 2026,
    a loan due on 30/03/2026 (two days later, across the start of
    summer time) is given 1 day; on a host without offset changes the
    same call gives 2.  A string of three empty or zero parts is not
    rejected either: it is read as 30 November 1899. *)
Theorem C6_days_remaining_across_dst :
  _calculateDaysRemaining JSDate.host_brussels_2026 Scenario.noon_28_march_2026
    (Some "30/03/2026") = 1
  /\ calendar_days_until JSDate.brussels_2026 Scenario.noon_28_march_2026 2026 3 30 = 2
  /\ _calculateDaysRemaining JSDate.host_utc Scenario.noon_28_march_2026
       (Some "30/03/2026") = 2
  /\ _calculateDaysRemaining JSDate.host_utc Scenario.noon_28_march_2026
       (Some "00/00/0000") = -46139.
Proof. repeat split; vm_compute; reflexivity. Qed.

(* ================================================================== *)
(** * The aggregate minimum of _processData                            *)
(* ================================================================== *)

Lemma In_set (k : string) (v : Current.Loan) (m : LoanMap) kv :
  In kv (LoanMapOps.set k v m) -> In kv m \/ snd kv = v.
Proof.
  induction m as [|[k' v'] m IH]; simpl.
  - intros [<-|[]]. now right.
  - destruct (String.eqb k k').
    + intros [<-|H]; [now right | left; now right].
    + intros [<-|H]; [left; now left |].
      destruct (IH H) as [H'|H']; [left; now right | now right].
Qed.

Lemma overview_step_bounds h now T acc loan :
  min_bounds acc -> min_bounds (overview_step h now T acc loan).
Proof.
  intros Hb kv Hin. unfold overview_step in *. cbn [currentLoans minDaysRemaining] in *.
  apply In_set in Hin. destruct Hin as [Hin| ->].
  - destruct (Hb kv Hin) as [m [Hm Hle]]. rewrite Hm.
    destruct (Z.ltb_spec (_calculateDaysRemaining h now (Overview.dueDate loan)) m);
      eexists; split; try reflexivity; lia.
  - cbn [coarse_record Current.daysLeft].
    destruct (minDaysRemaining acc) as [m|].
    + destruct (Z.ltb_spec (_calculateDaysRemaining h now (Overview.dueDate loan)) m);
        eexists; split; try reflexivity; lia.
    + eexists; split; [reflexivity | lia].
Qed.

Lemma with_someNotExtendable_bounds acc :
  min_bounds acc -> min_bounds (with_someNotExtendable acc).
Proof. intros Hb kv Hin. exact (Hb kv Hin). Qed.

Lemma detail_step_bounds un acc entry :
  min_bounds acc -> min_bounds (detail_step un acc entry).
Proof.
  intros Hb0. unfold detail_step.
  set (acc1 := if negb (Detail.isExtendable (snd entry))
               then with_someNotExtendable acc else acc).
  assert (Hb : min_bounds acc1).
  { unfold acc1. destruct (negb _); auto using with_someNotExtendable_bounds. }
  clearbody acc1.
  destruct (Detail.daysRemaining (snd entry)) as [dr|]; [|exact Hb].
  destruct (LoanMapOps.get _ (currentLoans acc1)) as [e|] eqn:Hget; [|exact Hb].
  intros kv Hin. cbn [currentLoans minDaysRemaining] in *.
  apply In_set in Hin. destruct Hin as [Hin| ->].
  - destruct (Hb kv Hin) as [m [Hm Hle]]. rewrite Hm.
    destruct (Z.ltb_spec dr m); eexists; split; try reflexivity; lia.
  - cbn [merge_detail Current.daysLeft].
    destruct (minDaysRemaining acc1) as [m|] eqn:Hmin.
    + destruct (Z.ltb_spec dr m); eexists; split; try reflexivity; lia.
    + (* a map with an entry has a minimum *)
      exfalso.
      destruct (currentLoans acc1) as [|kv0 r] eqn:Hm; [discriminate|].
      destruct (Hb kv0) as [m [Hm' _]]; [rewrite Hm; now left | congruence].
Qed.

Lemma fold_detail_bounds un details acc :
  min_bounds acc -> min_bounds (fold_left (detail_step un) details acc).
Proof.
  revert acc. induction details as [|d ds IH]; intros acc Hb; simpl; auto.
  apply IH, detail_step_bounds, Hb.
Qed.

Lemma user_step_bounds acc entry :
  min_bounds acc -> min_bounds (user_step acc entry).
Proof.
  intros Hb. unfold user_step.
  destruct (User.loanDetails (snd entry)) as [ds|].
  - apply fold_detail_bounds. exact Hb.
  - exact Hb.
Qed.

(** X2 (the minimum is a lower bound): what does hold of the reported
    minimum: it is a lower bound of the
    merged [daysLeft] values, and it is [null] exactly for a snapshot
    without loans. *)
Lemma aggregate_min_lower_bound h now T data :
  min_bounds (aggregate h now T data).
Proof.
  unfold aggregate.
  set (t1 := fold_left _ _ totals0).
  assert (H1 : min_bounds t1).
  { unfold t1. generalize (match loans data with Some l => l | None => [] end).
    intros l. assert (H0 : min_bounds totals0) by (intros kv []).
    revert H0. generalize totals0. induction l as [|x l IH]; intros acc Hb; simpl; auto.
    apply IH, overview_step_bounds, Hb. }
  clearbody t1.
  set (us := match userDetails data with Some u => u | None => [] end).
  assert (H2 : min_bounds (fold_left user_step us t1)).
  { clearbody us. revert t1 H1. induction us as [|u us IH]; intros t1 H1; simpl; auto.
    apply IH, user_step_bounds, H1. }
  exact H2.
Qed.

Lemma detail_step_no_loans un acc entry :
  currentLoans acc = [] ->
  currentLoans (detail_step un acc entry) = []
  /\ minDaysRemaining (detail_step un acc entry) = minDaysRemaining acc.
Proof.
  intros Hm. unfold detail_step.
  destruct (negb (Detail.isExtendable (snd entry)));
    destruct (Detail.daysRemaining (snd entry));
    cbn [with_someNotExtendable currentLoans minDaysRemaining];
    rewrite ?Hm; cbn; auto.
Qed.

Lemma user_step_no_loans acc entry :
  currentLoans acc = [] ->
  currentLoans (user_step acc entry) = []
  /\ minDaysRemaining (user_step acc entry) = minDaysRemaining acc.
Proof.
  intros Hm. unfold user_step.
  destruct (User.loanDetails (snd entry)) as [ds|]; [|cbn; auto].
  set (acc1 := {| minDaysRemaining := minDaysRemaining acc |}).
  assert (H1 : currentLoans acc1 = [] /\ minDaysRemaining acc1 = minDaysRemaining acc)
    by (cbn; auto).
  clearbody acc1. revert acc1 H1.
  induction ds as [|d ds IH]; intros acc1 [Ha Hb]; simpl; auto.
  apply IH. destruct (detail_step_no_loans (user_userName (snd entry)) acc1 d Ha).
  split; congruence.
Qed.

(** a snapshot without overview loans has no minimum: [null], not [0] *)
Lemma aggregate_no_loans h now T data :
  match loans data with Some l => l | None => [] end = [] ->
  minDaysRemaining (aggregate h now T data) = None
  /\ currentLoans (aggregate h now T data) = [].
Proof.
  intros Hl. unfold aggregate. rewrite Hl. cbn [fold_left minDaysRemaining currentLoans].
  generalize (match userDetails data with Some u => u | None => [] end). intros us.
  assert (H0 : currentLoans totals0 = [] /\ minDaysRemaining totals0 = None) by (cbn; auto).
  revert H0. generalize totals0.
  induction us as [|u us IH]; intros acc [Ha Hb]; simpl; auto.
  apply IH. destruct (user_step_no_loans acc u Ha). split; congruence.
Qed.

(** the spec's example: loans at 5, -1 and 12 days give -1 *)
Example minimum_of_5_m1_12 :
  let t := aggregate JSDate.host_utc Scenario.noon_2_nov_2026 7
             Scenario.snapshot_5_m1_12 in
  map (fun kv => Current.daysLeft (snd kv)) (currentLoans t) = [5; -1; 12]
  /\ minDaysRemaining t = Some (-1).
Proof. vm_compute. split; reflexivity. Qed.

(** C1 (aggregate minimum): one refresh cycle in which the overview
    gives a loan as due in 3 days and the account's page gives the same
    loan 5 days.  The merged snapshot holds the loan at 5 days, so the
    minimum over the snapshot is 5, but the value published as
    [days_remaining] is 3: the detail loop only ever lowers the minimum
    of the overview loop. *)
Theorem C1_minimum_not_recomputed :
  let '(result, w) :=
    run (Scenario.script Scenario.cycle_dune) (refreshData JSDate.host_utc)
      (Scenario.world0 Scenario.fresh_device Scenario.noon_2_nov_2026) in
  result = Ok true
  /\ map (fun kv => Current.daysLeft (snd kv)) (previousLoans (device w)) = [5]
  /\ min_daysLeft (previousLoans (device w)) = Some 5
  /\ days_remaining (device w) = Some 3.
Proof. vm_compute. repeat split. Qed.

(* ================================================================== *)
(** * Change detection: _checkAndTriggerFlows                          *)
(* ================================================================== *)

Lemma loan_triggers_not_days_changed T prev entry e :
  In e (loan_triggers T prev entry) -> is_days_changed e = false.
Proof.
  unfold loan_triggers. intros Hin. apply in_app_or in Hin.
  destruct Hin as [Hin|Hin];
    repeat match type of Hin with
           | In _ (if ?c then _ else _) => destruct c
           | In _ (match ?c with _ => _ end) => destruct c
           end;
    simpl in Hin; intuition; subst; reflexivity.
Qed.

Lemma flat_map_triggers_not_days_changed T prev cur e :
  In e (flat_map (loan_triggers T prev) cur) -> is_days_changed e = false.
Proof.
  intros Hin. apply in_flat_map in Hin. destruct Hin as [entry [_ Hin]].
  eapply loan_triggers_not_days_changed; eauto.
Qed.

Lemma filter_flat_map {A B} (p : B -> bool) (f : A -> list B) (l : list A) :
  filter p (flat_map f l) = flat_map (fun x => filter p (f x)) l.
Proof.
  induction l as [|x l IH]; simpl; auto.
  rewrite filter_app, IH. reflexivity.
Qed.

(** what one loan contributes in LoanExpiringSoon events *)
Lemma loan_triggers_expiring T prev k loan :
  filter is_loan_expiring (loan_triggers T prev (k, loan))
  = if ((0 <=? Current.daysLeft loan) && (Current.daysLeft loan <=? T)
        && match LoanMapOps.get k prev with
           | None => true
           | Some p => Current.daysLeft p >? T
           end)%bool
    then [loan_expiring (Current.title loan) (Current.daysLeft loan)
            (Current.libraryName loan) (Current.userName loan)]
    else [].
Proof.
  unfold loan_triggers. cbn [fst snd]. rewrite filter_app.
  set (d := Current.daysLeft loan).
  assert (Hexp : forall c : bool,
             filter is_loan_expiring
               (if c then [loan_expired (Current.title loan) (Z.abs d)
                             (Current.libraryName loan)] else []) = []).
  { intros []; reflexivity. }
  rewrite Hexp, app_nil_r.
  destruct (LoanMapOps.get k prev) as [p|].
  - destruct (Z.gtb_spec (Current.daysLeft p) T), (Z.leb_spec d T),
      (Z.leb_spec 0 d), (Z.geb_spec d 0); cbn; try reflexivity; lia.
  - destruct (Z.leb_spec d T), (Z.leb_spec 0 d), (Z.geb_spec d 0);
      cbn; try reflexivity; lia.
Qed.

(** X1 (edge-triggered LoanOverdue): LoanOverdue is edge-triggered as
    well: a loan contributes one
    LoanOverdue event, carrying the number of days overdue, when its
    [daysLeft] is negative and it either is new or was not overdue
    before, and none otherwise. *)
Theorem loan_overdue_edge_triggered :
  forall (T : Z) (prev : LoanMap) (k : string) (loan : Current.Loan),
    filter is_loan_expired (loan_triggers T prev (k, loan))
    = if ((Current.daysLeft loan <? 0)
          && match LoanMapOps.get k prev with
             | None => true
             | Some p => 0 <=? Current.daysLeft p
             end)%bool
      then [loan_expired (Current.title loan) (Z.abs (Current.daysLeft loan))
              (Current.libraryName loan)]
      else [].
Proof.
  intros T prev k loan. unfold loan_triggers. cbn [fst snd]. rewrite filter_app.
  set (d := Current.daysLeft loan).
  assert (Hexp : forall l : list Event,
             (forall e, In e l -> is_loan_expired e = false) ->
             filter is_loan_expired l = []).
  { induction l as [|e l IH]; intros Hl; cbn; auto.
    rewrite (Hl e (or_introl eq_refl)). apply IH. intros e' He'. apply Hl. now right. }
  rewrite Hexp.
  - cbn [app]. destruct (LoanMapOps.get k prev) as [p|].
    + destruct (Z.geb_spec (Current.daysLeft p) 0), (Z.leb_spec 0 (Current.daysLeft p)),
        (Z.ltb_spec d 0); cbn; try reflexivity; lia.
    + destruct (Z.ltb_spec d 0); cbn; reflexivity.
  - intros e He.
    repeat match type of He with
           | In _ (if ?c then _ else _) => destruct c
           | In _ (match ?c with _ => _ end) => destruct c
           end; cbn in He; intuition; subst; reflexivity.
Qed.

(** the spec's example: a loan first seen 2 days overdue gives one
    LoanOverdue and no LoanExpiringSoon, whatever the threshold *)
Example overdue_on_first_sight (T : Z) :
  _checkAndTriggerFlows None [] [("Dune|An", Scenario.loan_at (-2))] (Some (-2)) 1 T
  = [loan_expired "Dune" 2 "Gent"].
Proof.
  unfold _checkAndTriggerFlows, loan_triggers. cbn.
  rewrite andb_false_r. reflexivity.
Qed.

(** C2, as the code has it: with no previous state ([null] minimum, empty
    map of previous loans) change detection emits no DaysChanged event,
    a LoanOverdue event for every loan with negative [daysLeft], and a
    LoanExpiringSoon event for every loan with [daysLeft] in
    [0, warningThreshold]; nothing else. *)
Theorem C2_first_observation_events :
  forall (cur : LoanMap) (minDays : option Z) (total T : Z),
    _checkAndTriggerFlows None [] cur minDays total T
    = flat_map (first_sight_events T) cur
    /\ filter is_days_changed (_checkAndTriggerFlows None [] cur minDays total T) = [].
Proof.
  intros cur minDays total T.
  assert (Heq : _checkAndTriggerFlows None [] cur minDays total T
                = flat_map (first_sight_events T) cur).
  { unfold _checkAndTriggerFlows. cbn [app].
    apply flat_map_ext. intros [k loan].
    unfold loan_triggers, first_sight_events. cbn [fst snd LoanMapOps.get].
    set (d := Current.daysLeft loan).
    destruct (Z.leb_spec d T), (Z.leb_spec 0 d), (Z.geb_spec d 0);
      cbn; try reflexivity; lia. }
  split; [exact Heq|]. clear Heq.
  unfold _checkAndTriggerFlows. cbn [app].
  rewrite filter_flat_map.
  induction cur as [|entry cur IH]; simpl; auto.
  rewrite IH, app_nil_r.
  destruct (filter is_days_changed (loan_triggers T [] entry)) as [|e l] eqn:Hf; auto.
  assert (Hin : In e (filter is_days_changed (loan_triggers T [] entry)))
    by (rewrite Hf; now left).
  apply filter_In in Hin. destruct Hin as [Hin He].
  rewrite (loan_triggers_not_days_changed _ _ _ _ Hin) in He. discriminate.
Qed.

(** C2, as the specification has it, fails: a device started without a stored
    snapshot whose first refresh finds a loan 5 days from due (warning
    threshold 7) triggers LoanExpiringSoon for it. *)
Lemma C2_expiring_fires_on_first_sight :
  let '(_, w) :=
    run (Scenario.script Scenario.cycle_dune) (onInit JSDate.host_utc)
      (Scenario.world0 Scenario.fresh_device Scenario.noon_2_nov_2026) in
  triggered (device w) = [loan_expiring "Dune" 5 "Gent" "An"].
Proof. vm_compute. reflexivity. Qed.

(** C3 (edge-triggered LoanExpiringSoon): whatever the previous state,
    a loan of the current snapshot contributes exactly one
    LoanExpiringSoon event when its [daysLeft] lies in
    [0, warningThreshold] and it either was not in the previous
    snapshot or had a previous [daysLeft] above the threshold, and none
    otherwise; the LoanExpiringSoon events of a run are those of its
    loans; a loan whose previous record has the same values inside the
    window contributes none. *)
Theorem C3_expiring_soon_edge_triggered :
  forall (T : Z) (prevMin : option Z) (prev cur : LoanMap)
         (minDays : option Z) (total : Z),
    (forall k loan,
        (expiring_soon_rule T prev k loan ->
         filter is_loan_expiring (loan_triggers T prev (k, loan))
         = [loan_expiring (Current.title loan) (Current.daysLeft loan)
              (Current.libraryName loan) (Current.userName loan)])
        /\ (~ expiring_soon_rule T prev k loan ->
            filter is_loan_expiring (loan_triggers T prev (k, loan)) = []))
    /\ filter is_loan_expiring
         (_checkAndTriggerFlows prevMin prev cur minDays total T)
       = flat_map (fun entry => filter is_loan_expiring (loan_triggers T prev entry)) cur
    /\ (forall k loan,
          LoanMapOps.get k prev = Some loan ->
          Current.daysLeft loan <= T ->
          filter is_loan_expiring (loan_triggers T prev (k, loan)) = []).
Proof.
  intros T prevMin prev cur minDays total. repeat split.
  - intros [[H0 HT] Hprev]. rewrite loan_triggers_expiring.
    destruct (Z.leb_spec 0 (Current.daysLeft loan)); [|lia].
    destruct (Z.leb_spec (Current.daysLeft loan) T); [|lia].
    destruct Hprev as [-> | [p [-> Hp]]]; cbn; auto.
    destruct (Z.gtb_spec (Current.daysLeft p) T); [reflexivity | lia].
  - intros Hnot. rewrite loan_triggers_expiring.
    destruct (Z.leb_spec 0 (Current.daysLeft loan)); cbn; auto.
    destruct (Z.leb_spec (Current.daysLeft loan) T); cbn; auto.
    destruct (LoanMapOps.get k prev) as [p|] eqn:Hget.
    + destruct (Z.gtb_spec (Current.daysLeft p) T); auto.
      exfalso. apply Hnot. split; [lia|]. right. exists p. split; [exact Hget | lia].
    + exfalso. apply Hnot. split; [lia|]. left. exact Hget.
  - unfold _checkAndTriggerFlows. rewrite filter_app, filter_flat_map.
    destruct prevMin as [p|]; [|reflexivity].
    destruct (min_differs (Some p) minDays); reflexivity.
  - intros k loan Hget HT. rewrite loan_triggers_expiring, Hget.
    destruct (Z.gtb_spec (Current.daysLeft loan) T); [lia|].
    now rewrite andb_false_r.
Qed.

(** the spec's own example: 10 days, then 7 days at threshold 7 fires
    once; a further poll with the same values fires nothing *)
Example expiring_soon_once (loan10 loan7 : Current.Loan) :
  Current.daysLeft loan10 = 10 -> Current.daysLeft loan7 = 7 ->
  filter is_loan_expiring
    (_checkAndTriggerFlows (Some 10) [("L", loan10)] [("L", loan7)] (Some 7) 1 7)
  = [loan_expiring (Current.title loan7) 7 (Current.libraryName loan7)
       (Current.userName loan7)]
  /\ filter is_loan_expiring
       (_checkAndTriggerFlows (Some 7) [("L", loan7)] [("L", loan7)] (Some 7) 1 7)
     = [].
Proof.
  intros H10 H7. unfold _checkAndTriggerFlows, loan_triggers.
  cbn. rewrite H10, H7. cbn. auto.
Qed.

(** C4, as the code has it: DaysChanged is triggered exactly when the
    previous minimum is not [null] and differs from the current one
    (which may be [null]); it carries the current minimum and loan
    count, and is triggered at most once. *)
Theorem C4_days_changed_needs_previous_minimum :
  forall (prevMin : option Z) (prev cur : LoanMap) (minDays : option Z) (total T : Z),
    ((exists p, prevMin = Some p /\ minDays <> Some p) ->
     filter is_days_changed (_checkAndTriggerFlows prevMin prev cur minDays total T)
     = [days_changed minDays total])
    /\ (~ (exists p, prevMin = Some p /\ minDays <> Some p) ->
        filter is_days_changed (_checkAndTriggerFlows prevMin prev cur minDays total T)
        = []).
Proof.
  intros prevMin prev cur minDays total T.
  assert (Hloans : filter is_days_changed (flat_map (loan_triggers T prev) cur) = []).
  { destruct (filter is_days_changed (flat_map (loan_triggers T prev) cur))
      as [|e l] eqn:Hf; auto.
    assert (Hin : In e (filter is_days_changed (flat_map (loan_triggers T prev) cur)))
      by (rewrite Hf; now left).
    apply filter_In in Hin. destruct Hin as [Hin He].
    rewrite (flat_map_triggers_not_days_changed _ _ _ _ Hin) in He. discriminate. }
  unfold _checkAndTriggerFlows. rewrite filter_app, Hloans, app_nil_r.
  split.
  - intros [p [-> Hne]]. unfold min_differs.
    destruct minDays as [m|]; [|reflexivity].
    destruct (Z.eqb_spec p m); [subst; congruence | reflexivity].
  - intros Hnot. destruct prevMin as [p|]; [|reflexivity].
    unfold min_differs. destruct minDays as [m|].
    + destruct (Z.eqb_spec p m); [reflexivity|].
      exfalso. apply Hnot. exists p. split; congruence.
    + exfalso. apply Hnot. exists p. split; congruence.
Qed.

(** C4, as the specification has it, fails on the transition from no loans to
    some loans: after a refresh that found no loans (a previous
    snapshot exists, its minimum is [null]) a refresh that finds a loan
    changes the minimum to 3 and triggers no DaysChanged. *)
Lemma C4_no_days_changed_after_empty_snapshot :
  let net := Scenario.script (Scenario.cycle_no_loans ++ Scenario.cycle_dune) in
  let '(result1, w1) :=
    run net (refreshData JSDate.host_utc)
      (Scenario.world0 Scenario.fresh_device Scenario.noon_2_nov_2026) in
  let '(result2, w2) := run net (refreshData JSDate.host_utc) w1 in
  result1 = Ok true /\ result2 = Ok true
  /\ lastData (device w1) <> None
  /\ days_remaining (device w1) = None
  /\ days_remaining (device w2) = Some 3
  /\ filter is_days_changed (triggered (device w2)) = [].
Proof. vm_compute. repeat split. discriminate. Qed.

(* ================================================================== *)
(** * The merge of detail records into overview records                *)
(* ================================================================== *)

Lemma get_set_same k v m : LoanMapOps.get k (LoanMapOps.set k v m) = Some v.
Proof.
  induction m as [|[k' v'] m IH]; simpl.
  - now rewrite String.eqb_refl.
  - destruct (String.eqb k k') eqn:E; simpl; rewrite E; auto.
Qed.

Lemma get_set_other k k' v m :
  k <> k' -> LoanMapOps.get k (LoanMapOps.set k' v m) = LoanMapOps.get k m.
Proof.
  intros Hne. induction m as [|[k2 v2] m IH]; simpl.
  - apply String.eqb_neq in Hne. now rewrite Hne.
  - destruct (String.eqb k' k2) eqn:E; simpl.
    + apply String.eqb_eq in E. subst k2.
      apply String.eqb_neq in Hne. now rewrite Hne.
    + now rewrite IH.
Qed.

Lemma overview_fold_get_other h now T k l : forall acc,
  (forall c, In c l -> loanKey c <> k) ->
  LoanMapOps.get k (currentLoans (fold_left (overview_step h now T) l acc))
  = LoanMapOps.get k (currentLoans acc).
Proof.
  induction l as [|c l IH]; intros acc Hl; simpl; auto.
  rewrite IH by (intros c' Hc'; apply Hl; now right).
  unfold overview_step. cbn [currentLoans].
  apply get_set_other. intros ->. apply (Hl c); [now left | reflexivity].
Qed.

Lemma overview_fold_get_last h now T before coarse after acc :
  (forall c, In c after -> loanKey c <> loanKey coarse) ->
  LoanMapOps.get (loanKey coarse)
    (currentLoans (fold_left (overview_step h now T) (before ++ coarse :: after) acc))
  = Some (coarse_record (_calculateDaysRemaining h now (Overview.dueDate coarse)) coarse).
Proof.
  intros Hafter. rewrite fold_left_app. simpl.
  rewrite overview_fold_get_other by exact Hafter.
  unfold overview_step at 1. cbn [currentLoans]. apply get_set_same.
Qed.

Lemma currentLoans_detail_step un acc entry :
  currentLoans (detail_step un acc entry)
  = merge_map (currentLoans acc) un (snd entry).
Proof.
  unfold detail_step, merge_map.
  destruct (negb (Detail.isExtendable (snd entry)));
    destruct (Detail.daysRemaining (snd entry)); cbn [with_someNotExtendable currentLoans];
    try reflexivity;
    destruct (LoanMapOps.get _ _); reflexivity.
Qed.

Lemma currentLoans_fold_detail un details : forall acc,
  currentLoans (fold_left (detail_step un) details acc)
  = fold_left (fun m e => merge_map m (fst e) (snd e))
      (map (fun kv => (un, snd kv)) details) (currentLoans acc).
Proof.
  induction details as [|d ds IH]; intros acc; simpl; auto.
  rewrite IH, currentLoans_detail_step. reflexivity.
Qed.

Lemma currentLoans_fold_user users : forall acc,
  currentLoans (fold_left user_step users acc)
  = fold_left (fun m e => merge_map m (fst e) (snd e))
      (detail_entries users) (currentLoans acc).
Proof.
  induction users as [|u us IH]; intros acc; simpl; auto.
  rewrite IH, fold_left_app. f_equal.
  unfold user_step.
  destruct (User.loanDetails (snd u)) as [ds|]; [|reflexivity].
  rewrite currentLoans_fold_detail. reflexivity.
Qed.

Lemma same_coarse_refl a : same_coarse a a.
Proof. repeat split. Qed.

Lemma same_coarse_trans a b c : same_coarse a b -> same_coarse b c -> same_coarse a c.
Proof. unfold same_coarse. intuition congruence. Qed.

Lemma same_coarse_merge e dr d : same_coarse e (merge_detail e dr d).
Proof. repeat split. Qed.

Lemma merge_map_get_other k m un d :
  detailKey un d <> k ->
  LoanMapOps.get k (merge_map m un d) = LoanMapOps.get k m.
Proof.
  intros Hne. unfold merge_map.
  destruct (Detail.daysRemaining d); auto.
  destruct (LoanMapOps.get (detailKey un d) m); auto.
  apply get_set_other. congruence.
Qed.

Lemma merge_map_get_hit m un d dr e :
  Detail.daysRemaining d = Some dr ->
  LoanMapOps.get (detailKey un d) m = Some e ->
  LoanMapOps.get (detailKey un d) (merge_map m un d) = Some (merge_detail e dr d).
Proof.
  intros Hdr Hget. unfold merge_map. rewrite Hdr, Hget. apply get_set_same.
Qed.

(** merging never removes a loan nor touches its overview fields *)
Lemma merge_map_keeps k m un d e :
  LoanMapOps.get k m = Some e ->
  exists e', LoanMapOps.get k (merge_map m un d) = Some e' /\ same_coarse e e'.
Proof.
  intros Hget. destruct (String.eqb_spec (detailKey un d) k) as [Heq|Hne].
  - subst k. unfold merge_map.
    destruct (Detail.daysRemaining d) as [dr|].
    + rewrite Hget. rewrite get_set_same. eexists; split; eauto using same_coarse_merge.
    + eauto using same_coarse_refl.
  - rewrite merge_map_get_other by exact Hne. eauto using same_coarse_refl.
Qed.

Lemma merge_fold_keeps k entries : forall m e,
  LoanMapOps.get k m = Some e ->
  exists e',
    LoanMapOps.get k (fold_left (fun m e => merge_map m (fst e) (snd e)) entries m)
    = Some e' /\ same_coarse e e'.
Proof.
  induction entries as [|x xs IH]; intros m e Hget; simpl.
  - eauto using same_coarse_refl.
  - destruct (merge_map_keeps k m (fst x) (snd x) e Hget) as [e1 [H1 S1]].
    destruct (IH _ _ H1) as [e2 [H2 S2]].
    eauto using same_coarse_trans.
Qed.

Lemma merge_fold_get_other k entries : forall m,
  (forall e, In e entries -> detailKey (fst e) (snd e) <> k) ->
  LoanMapOps.get k (fold_left (fun m e => merge_map m (fst e) (snd e)) entries m)
  = LoanMapOps.get k m.
Proof.
  induction entries as [|x xs IH]; intros m Hall; simpl; auto.
  rewrite IH by (intros e He; apply Hall; now right).
  apply merge_map_get_other, Hall. now left.
Qed.

(** C5 (detail over coarse): let an identity [k] have an overview entry
    [coarse] (the last one under that key) and a detail record [detail]
    (the last one under that key, with its days-remaining value, which
    every scraped record carries).  Then the loan stored under [k] has
    the detail record's days-remaining, renewal identifier and
    extendable flag, and the overview entry's title, author, library
    name, user name and due date. *)
Theorem C5_merge_detail_over_coarse :
  forall (h : JSDate.Host) (now T : Z) (data : Data)
         (before after : list Overview.Loan) (coarse : Overview.Loan)
         (users : list (string * User.t))
         (pre post : list (string * Detail.Loan))
         (un : string) (detail : Detail.Loan) (k : string) (dr : Z),
    loans data = Some (before ++ coarse :: after)%list ->
    loanKey coarse = k ->
    (forall c, In c after -> loanKey c <> k) ->
    userDetails data = Some users ->
    detail_entries users = (pre ++ (un, detail) :: post)%list ->
    detailKey un detail = k ->
    Detail.daysRemaining detail = Some dr ->
    (forall e, In e post -> detailKey (fst e) (snd e) <> k) ->
    exists merged,
      LoanMapOps.get k (currentLoans (aggregate h now T data)) = Some merged
      /\ Current.daysLeft merged = dr
      /\ Current.extendLoanId merged = Some (Detail.extendLoanId detail)
      /\ Current.isExtendable merged = Detail.isExtendable detail
      /\ Current.title merged = JS.str_or (Overview.title coarse) "Unknown"
      /\ Current.author merged = JS.str_or (Overview.author coarse) ""
      /\ Current.libraryName merged = Current.libraryName (coarse_record 0 coarse)
      /\ Current.userName merged = JS.str_or (Overview.accountName coarse) "Unknown"
      /\ Current.dueDate merged = Overview.dueDate coarse.
Proof.
  intros h now T data before after coarse users pre post un detail k dr
         Hloans Hk Hafter Husers Hentries Hdk Hdr Hpost.
  subst k.
  unfold aggregate. cbn [currentLoans]. rewrite Hloans, Husers.
  rewrite currentLoans_fold_user, Hentries, fold_left_app. simpl.
  rewrite merge_fold_get_other by exact Hpost.
  pose proof (overview_fold_get_last h now T before coarse after totals0 Hafter) as Hc.
  destruct (merge_fold_keeps (loanKey coarse) pre _ _ Hc) as [e [He Se]].
  rewrite <- Hdk in He |- *.
  rewrite (merge_map_get_hit _ _ _ _ _ Hdr He).
  eexists. split; [reflexivity|].
  destruct Se as (S1 & S2 & S3 & S4 & S5).
  cbn [merge_detail Current.daysLeft Current.extendLoanId Current.isExtendable
       Current.title Current.author Current.libraryName Current.userName
       Current.dueDate].
  rewrite <- S1, <- S2, <- S3, <- S4, <- S5.
  repeat split.
Qed.

(* ================================================================== *)
(** * Running async code                                               *)
(* ================================================================== *)

Lemma run_bind {A B} net (m : Async A) (f : A -> Async B) w :
  run net (bind m f) w
  = match run net m w with
    | (Ok a, w') => run net (f a) w'
    | (Throw e, w') => (Throw e, w')
    end.
Proof.
  revert w. induction m as [a|e|req k IH|what k IH|k IH|e k IH]; intros w;
    cbn [bind run]; auto.
Qed.

Lemma run_try_catch {A} net (m : Async A) (handler : Error -> Async A) w :
  run net (try_catch m handler) w
  = match run net m w with
    | (Ok a, w') => (Ok a, w')
    | (Throw e, w') => run net (handler e) w'
    end.
Proof.
  revert w. induction m as [a|e|req k IH|what k IH|k IH|e k IH]; intros w;
    cbn [try_catch run]; auto.
Qed.

Lemma run_for_each_cons {A S} net (f : S -> A -> Async S) x l s w :
  run net (for_each f (x :: l) s) w
  = match run net (f s x) w with
    | (Ok s', w') => run net (for_each f l s') w'
    | (Throw e, w') => (Throw e, w')
    end.
Proof. cbn [for_each]. apply run_bind. Qed.

Lemma apply_effect_requests e w :
  sent (apply_effect e w) = sent w /\ seq (apply_effect e w) = seq w.
Proof. destruct e; split; reflexivity. Qed.

(** running a call only ever adds to the requests sent *)
Lemma extends_run {A} net (p : Async A) : extends (run net p).
Proof.
  induction p as [a|e|req k IH|what k IH|k IH|e k IH]; intros w; cbn [run].
  - exists []. cbn. now rewrite app_nil_r.
  - exists []. cbn. now rewrite app_nil_r.
  - destruct (IH (net (seq w) req) (with_request req w)) as [rest Hr].
    exists (req :: rest). rewrite Hr. cbn [with_request sent].
    now rewrite <- app_assoc.
  - apply IH.
  - apply IH.
  - destruct (IH (apply_effect e w)) as [rest Hr]. exists rest.
    rewrite Hr. now rewrite (proj1 (apply_effect_requests e w)).
Qed.

(** a loop keeps what each of its rounds keeps *)
Lemma for_each_invariant {A S} net (I : S -> Prop) (f : S -> A -> Async S)
    (l : list A) :
  (forall s a w s' w', I s -> run net (f s a) w = (Ok s', w') -> I s') ->
  forall s w s' w', I s -> run net (for_each f l s) w = (Ok s', w') -> I s'.
Proof.
  intros Hf. induction l as [|x l IH]; intros s w s' w' Hs Hrun.
  - cbn in Hrun. inversion Hrun; subst. exact Hs.
  - rewrite run_for_each_cons in Hrun.
    destruct (run net (f s x) w) as [[s1|e] w1] eqn:Hx; [|discriminate].
    eapply IH; [|exact Hrun]. eapply Hf; eauto.
Qed.

Lemma api_only_bind {A B} (m : Async A) (f : A -> Async B) :
  api_only m -> (forall a, api_only (f a)) -> api_only (bind m f).
Proof.
  intros Hm Hf. induction m as [a|e|req k IH|what k IH|k IH|e k IH];
    cbn [bind api_only] in *; auto.
  destruct Hm. split; auto.
Qed.

Lemma api_only_try_catch {A} (m : Async A) (handler : Error -> Async A) :
  api_only m -> (forall e, api_only (handler e)) -> api_only (try_catch m handler).
Proof.
  intros Hm Hh. induction m as [a|e|req k IH|what k IH|k IH|e k IH];
    cbn [try_catch api_only] in *; auto.
  destruct Hm. split; auto.
Qed.

Lemma api_only_for_each {A S} (f : S -> A -> Async S) (l : list A) :
  (forall s a, api_only (f s a)) -> forall s, api_only (for_each f l s).
Proof.
  intros Hf. induction l as [|x l IH]; intros s; cbn [for_each].
  - exact I.
  - apply api_only_bind; auto.
Qed.

Lemma api_only_fetch req : api_only (fetch req).
Proof. intros [r|reason]; exact I. Qed.

Lemma api_only_ret {A} (a : A) : api_only (ret a).
Proof. exact I. Qed.

Lemma api_only_throw {A} e : api_only (@throw A e).
Proof. exact I. Qed.

Lemma api_only_set_authenticated b : api_only (set_authenticated b).
Proof. split; exact I. Qed.

Lemma api_only_read_clock : api_only read_clock.
Proof. intros w. exact I. Qed.

Create HintDb api.

#[local] Hint Resolve api_only_bind api_only_try_catch api_only_fetch api_only_ret
  api_only_throw api_only_set_authenticated api_only_read_clock : api.
#[local] Hint Extern 2 (api_only (if ?c then _ else _)) => destruct c : api.
#[local] Hint Extern 2 (api_only (match ?c with _ => _ end)) => destruct c : api.

Lemma api_only_login_finish loc data r : api_only (login_finish loc data r).
Proof. unfold login_finish. auto 20 with api. Qed.

Lemma api_only_login u p : api_only (login u p).
Proof. unfold login. auto 20 using api_only_login_finish with api. Qed.

Lemma api_only_getMemberships : api_only getMemberships.
Proof. unfold getMemberships. auto 20 with api. Qed.

Lemma api_only_getActivities a : api_only (getActivities a).
Proof. unfold getActivities. auto 20 with api. Qed.

Lemma api_only_getLoans : api_only getLoans.
Proof. unfold getLoans. auto 20 with api. Qed.

Lemma api_only_getReservations : api_only getReservations.
Proof. unfold getReservations. auto 20 with api. Qed.

Lemma api_only_getLoanDetails u : api_only (getLoanDetails u).
Proof. unfold getLoanDetails. auto 20 with api. Qed.

Lemma api_only_getUserLists : api_only getUserLists.
Proof.
  unfold getUserLists. apply api_only_bind; [auto with api | intros r].
  destruct (negb (Http.ok r)); [auto with api|].
  destruct (Http.document r); auto with api.
  destruct lists; auto with api.
  apply api_only_for_each. intros s a. auto 20 with api.
Qed.

Lemma api_only_extendLoans b ids : api_only (extendLoans b ids).
Proof. unfold extendLoans. destruct ids; auto 20 with api. Qed.

Lemma api_only_account_step st a : api_only (account_step st a).
Proof.
  unfold account_step. destruct (_ && _)%bool; [|auto with api].
  apply api_only_bind; [apply api_only_getActivities | intros act].
  destruct (match Http.numberOfLoans act with Some n => n >? 0 | None => false end);
    [|auto with api].
  apply api_only_try_catch; [|auto with api].
  apply api_only_bind; [apply api_only_getLoanDetails | auto with api].
Qed.

Lemma api_only_refreshAllData u p : api_only (refreshAllData u p).
Proof.
  unfold refreshAllData.
  apply api_only_bind; [apply api_only_login | intros _].
  apply api_only_bind; [apply api_only_getMemberships | intros m].
  apply api_only_bind; [apply api_only_getLoans | intros l].
  apply api_only_bind; [apply api_only_getReservations | intros r].
  apply api_only_bind.
  - apply api_only_for_each. intros st region.
    apply api_only_for_each. intros st' a. apply api_only_account_step.
  - intros st. apply api_only_bind.
    + apply api_only_try_catch; [apply api_only_getUserLists | auto with api].
    + intros ul. auto 20 with api.
Qed.

(** the device is as it was after any code of the API client *)
Lemma api_only_device {A} net (p : Async A) w :
  api_only p -> device (snd (run net p w)) = device w.
Proof.
  revert w. induction p as [a|e|req k IH|what k IH|k IH|e k IH]; intros w Hp;
    cbn [run api_only] in *; auto.
  - rewrite IH by auto. reflexivity.
  - destruct Hp as [He Hk]. rewrite IH by auto.
    destruct e; [reflexivity | contradiction | reflexivity].
Qed.

(* ================================================================== *)
(** * login                                                            *)
(* ================================================================== *)

Lemma run_fetch_bind {B} net req (k : Http.Response -> Async B) w :
  run net (bind (fetch req) k) w
  = match net (seq w) req with
    | Http.Reply r => run net (k r) (with_request req w)
    | Http.Rejected reason => (Throw (FetchRejected reason), with_request req w)
    end.
Proof. cbn [fetch bind run]. destruct (net (seq w) req); reflexivity. Qed.


(** ** Plain URLs: what the URL class gives on them *)

Lemma letter_in_host (c : ascii) :
  URL.is_alpha c = true ->
  URL.ends_authority c = false /\ Ascii.eqb (URL.lower c) "." = false.
Proof.
  destruct c as [[|] [|] [|] [|] [|] [|] [|] [|]]; intros H;
    vm_compute in H; try discriminate H; split; reflexivity.
Qed.

Lemma take_until_host (host tail : string) : forall at_start,
  host_labels host at_start = true ->
  plain_tail tail = true ->
  URL.take_until URL.ends_authority (host ++ tail) = host.
Proof.
  induction host as [|c host IH]; intros at_start Hhost Htail.
  - cbn [append]. destruct tail as [|c r]; [reflexivity|].
    cbn [plain_tail] in Htail. apply andb_prop in Htail. destruct Htail as [Hc _].
    cbn [URL.take_until]. unfold URL.ends_authority.
    destruct (Ascii.eqb c "/"); [reflexivity|].
    destruct (Ascii.eqb c "?"); [reflexivity | discriminate Hc].
  - cbn [host_labels] in Hhost. cbn [append URL.take_until].
    destruct (URL.is_alpha c) eqn:Hc.
    + destruct (letter_in_host c Hc) as [He _]. rewrite He.
      f_equal. exact (IH false Hhost Htail).
    + destruct (Ascii.eqb c ".") eqn:Hd; [|discriminate Hhost].
      apply Ascii.eqb_eq in Hd. subst c.
      apply andb_prop in Hhost. destruct Hhost as [_ Hhost].
      change (URL.ends_authority ".") with false. cbv iota.
      f_equal. exact (IH true Hhost Htail).
Qed.

Lemma host_labels_letter (host : string) :
  host_labels host true = true ->
  exists c r, host = String c r /\ URL.is_alpha c = true.
Proof.
  destruct host as [|c r]; [discriminate|]. cbn [host_labels].
  destruct (URL.is_alpha c) eqn:Hc; [intros _; now exists c, r|].
  destruct (Ascii.eqb c "."); discriminate.
Qed.

(** the host of a plain URL is its host part in lower case *)
Lemma hostname_plain (host tail : string) :
  host_labels host true = true ->
  plain_tail tail = true ->
  URL.hostname ("https://" ++ host ++ tail) = Some (JSString.toLowerCase host).
Proof.
  intros Hhost Htail. unfold URL.hostname.
  change (URL.cut "://" ("https://" ++ host ++ tail))
    with (Some ("https", (host ++ tail)%string)).
  cbv iota. change (URL.is_alpha "h") with true. cbv iota.
  rewrite (take_until_host host tail true Hhost Htail).
  destruct (host_labels_letter host Hhost) as [c [r [-> _]]]. reflexivity.
Qed.





(* ================================================================== *)
(** * extendAllLoans and extendLoans                                   *)
(* ================================================================== *)

Lemma loansToExtend_spec maxDays details id :
  In id (loansToExtend maxDays details) <->
  exists kv, In kv details
             /\ Detail.isExtendable (snd kv) = true
             /\ Detail.extendLoanId (snd kv) = id
             /\ id <> EmptyString
             /\ exists d, Detail.daysRemaining (snd kv) = Some d /\ d <= maxDays.
Proof.
  unfold loansToExtend. rewrite in_map_iff. split.
  - intros [kv [Hid Hin]]. apply filter_In in Hin. destruct Hin as [Hin He].
    unfold eligible in He. apply andb_prop in He. destruct He as [He Hd].
    apply andb_prop in He. destruct He as [Hx Hn].
    exists kv. repeat split; auto.
    + subst id. intros Hid. rewrite Hid in Hn. discriminate.
    + destruct (Detail.daysRemaining (snd kv)) as [d|]; [|discriminate].
      exists d. split; auto. now apply Z.leb_le.
  - intros [kv (Hin & Hx & Hid & Hne & d & Hd & Hle)].
    exists kv. split; auto. apply filter_In. split; auto.
    unfold eligible. rewrite Hx, Hd, Hid.
    apply String.eqb_neq in Hne. rewrite Hne.
    apply Z.leb_le in Hle. now rewrite Hle.
Qed.

(** the spec's example: of A (renewable, 3 days), B (not renewable,
    2 days) and C (renewable, 9 days), only A is selected at maxDays 5 *)
Example selection_A_B_C : loansToExtend 5 Scenario.loans_A_B_C = ["x1"].
Proof. reflexivity. Qed.

(** whatever becomes of a batch, its renewal form is requested once *)
Lemma extendLoans_requests_always net baseUrl ids w :
  ids <> [] ->
  exists new, sent (snd (run net (extendLoans baseUrl ids) w)) = (sent w ++ new)%list
              /\ filter is_form_get new
                 = [get_request (extendUrl baseUrl ids) Http.manual].
Proof.
  intros Hne. destruct ids as [|i ids]; [congruence|].
  unfold extendLoans. rewrite run_fetch_bind.
  destruct (net (seq w) _) as [r|reason];
    [|exists [get_request (extendUrl baseUrl (i :: ids)) Http.manual]; split; reflexivity].
  destruct (_ && _)%bool;
    [exists [get_request (extendUrl baseUrl (i :: ids)) Http.manual]; split; reflexivity|].
  destruct (Http.document r) as [| | | | | |[inputs|]| |];
    try (exists [get_request (extendUrl baseUrl (i :: ids)) Http.manual];
         split; reflexivity).
  rewrite run_fetch_bind. cbn [with_request seq sent].
  exists [get_request (extendUrl baseUrl (i :: ids)) Http.manual;
          extend_post (extendUrl baseUrl (i :: ids)) (form_fields inputs)].
  destruct (net (S (seq w)) _) as [r2|reason2]; cbn;
    (split; [now rewrite <- app_assoc | reflexivity]).
Qed.

Lemma extend_account_requests_always net maxDays t0 entry w :
  baseUrl_of (snd entry) <> EmptyString ->
  exists new,
    sent (snd (run net (extend_account maxDays t0 entry) w)) = (sent w ++ new)%list
    /\ filter is_form_get new
       = if has_batch maxDays entry then [batch_request maxDays entry] else [].
Proof.
  intros Hurl. unfold extend_account, has_batch, batch_request, account_batch.
  destruct (User.loanDetails (snd entry)) as [details|];
    [|exists []; cbn; now rewrite app_nil_r].
  apply String.eqb_neq in Hurl. rewrite Hurl.
  destruct (Nat.eqb (List.length (loansToExtend maxDays details)) 0) eqn:Hlen;
    cbn [negb andb]; [exists []; cbn; now rewrite app_nil_r|].
  destruct (extendLoans_requests_always net (baseUrl_of (snd entry))
              (loansToExtend maxDays details) w) as [new [Hs Hf]].
  { intros Hnil. rewrite Hnil in Hlen. discriminate. }
  exists new. split; [|exact Hf].
  rewrite run_bind.
  destruct (run net (extendLoans _ _) w) as [[c|e] w1]; exact Hs.
Qed.

(** X5 (batches up to a failure): when a batch throws the loop ends
    there: the renewal forms requested
    are those of the first accounts due a batch, in order. *)
Lemma extend_loop_requests_prefix net maxDays users : forall t0 w,
  (forall entry, In entry users -> baseUrl_of (snd entry) <> EmptyString) ->
  exists new n,
    sent (snd (run net (for_each (extend_account maxDays) users t0) w))
    = (sent w ++ new)%list
    /\ filter is_form_get new
       = firstn n (map (batch_request maxDays) (filter (has_batch maxDays) users)).
Proof.
  induction users as [|u us IH]; intros t0 w Hurl.
  - exists [], 0%nat. cbn. now rewrite app_nil_r.
  - destruct (extend_account_requests_always net maxDays t0 u w
                (Hurl u (or_introl eq_refl))) as [new1 [Hs1 Hf1]].
    rewrite run_for_each_cons.
    destruct (run net (extend_account maxDays t0 u) w) as [[t1|e] w'] eqn:Hacc;
      cbn [snd] in Hs1.
    + destruct (IH t1 w' (fun e He => Hurl e (or_intror He))) as [new2 [n [Hs2 Hf2]]].
      exists (new1 ++ new2)%list. cbn [filter].
      destruct (has_batch maxDays u).
      * exists (S n). split; [rewrite Hs2, Hs1; now rewrite app_assoc|].
        rewrite filter_app, Hf1, Hf2. reflexivity.
      * exists n. split; [rewrite Hs2, Hs1; now rewrite app_assoc|].
        rewrite filter_app, Hf1, Hf2. reflexivity.
    + exists new1. cbn [snd filter].
      destruct (has_batch maxDays u).
      * exists 1%nat. split; [exact Hs1|]. rewrite Hf1. reflexivity.
      * exists 0%nat. split; [exact Hs1|]. rewrite Hf1. reflexivity.
Qed.

Lemma extend_loop_device net maxDays users t0 w :
  device (snd (run net (for_each (extend_account maxDays) users t0) w)) = device w.
Proof.
  apply api_only_device. apply api_only_for_each. intros s a.
  unfold extend_account. destruct (User.loanDetails (snd a)); [|exact I].
  destruct (_ && _)%bool; [|exact I].
  apply api_only_bind; [apply api_only_extendLoans | intros c; exact I].
Qed.

(** the fields the code sends back are the named fields of the form *)
Lemma form_fields_named inputs : form_fields inputs = named_fields inputs.
Proof.
  unfold form_fields, named_fields.
  induction inputs as [|nv inputs IH]; [reflexivity|].
  cbn [flat_map filter]. rewrite IH.
  destruct (JS.truthy_str (fst nv)); reflexivity.
Qed.

(** one call of [extendLoans] is one batch exchange *)
Lemma extendLoans_exchange net baseUrl ids w :
  ids <> [] ->
  let batch := batch_exchange net (seq w) (renewal_address baseUrl ids) in
  let r := run net (extendLoans baseUrl ids) w in
  sent (snd r) = (sent w ++ fst batch)%list
  /\ seq (snd r) = (seq w + List.length (fst batch))%nat
  /\ (snd batch = true -> exists count, fst r = Ok count)
  /\ (snd batch = false -> exists e, fst r = Throw e).
Proof.
  intros Hne. destruct ids as [|i ids]; [congruence|].
  cbv zeta. unfold extendLoans. rewrite run_fetch_bind.
  unfold batch_exchange.
  change (get_request (extendUrl baseUrl (i :: ids)) Http.manual)
    with (renewal_form (renewal_address baseUrl (i :: ids))).
  set (address := renewal_address baseUrl (i :: ids)).
  change (extendUrl baseUrl (i :: ids)) with address.
  destruct (net (seq w) (renewal_form address)) as [r|reason].
  - rewrite <- negb_orb.
    destruct (Http.ok r || (Http.status r =? 200))%bool; cbn [negb].
    + destruct (Http.document r) as [| | | | | |[inputs|]| |];
        try (cbn; repeat split;
             [now rewrite Nat.add_1_r
             | intros _; now eexists
             | discriminate]).
      rewrite run_fetch_bind. rewrite form_fields_named.
      change (extend_post address (named_fields inputs))
        with (renewal_submission address (named_fields inputs)).
      cbn [with_request seq sent].
      destruct (net (S (seq w)) (renewal_submission address (named_fields inputs)))
        as [r2|reason2]; cbn; rewrite <- app_assoc; repeat split;
        try (now rewrite Nat.add_comm);
        try discriminate; intros _; now eexists.
    + cbn. repeat split;
        [now rewrite Nat.add_1_r | discriminate | intros _; now eexists].
  - cbn. repeat split;
      [now rewrite Nat.add_1_r | discriminate | intros _; now eexists].
Qed.

(** the test of the loop is [due_batch] *)
Lemma extend_account_not_due net maxDays t0 entry w :
  due_batch maxDays entry = false ->
  run net (extend_account maxDays t0 entry) w = (Ok t0, w).
Proof.
  unfold due_batch, has_batch, account_batch, extend_account.
  destruct (User.loanDetails (snd entry)) as [details|]; [|reflexivity].
  intros H. rewrite H. reflexivity.
Qed.

Lemma extend_account_due net maxDays t0 entry w :
  due_batch maxDays entry = true ->
  let batch := batch_exchange net (seq w) (batch_address maxDays entry) in
  let r := run net (extend_account maxDays t0 entry) w in
  sent (snd r) = (sent w ++ fst batch)%list
  /\ seq (snd r) = (seq w + List.length (fst batch))%nat
  /\ (snd batch = true -> exists total, fst r = Ok total)
  /\ (snd batch = false -> exists e, fst r = Throw e).
Proof.
  unfold due_batch, has_batch, batch_address, account_batch, extend_account.
  destruct (User.loanDetails (snd entry)) as [details|]; [|discriminate].
  intros H. rewrite H. cbv zeta.
  assert (Hne : loansToExtend maxDays details <> []).
  { intros Hnil. rewrite Hnil in H. discriminate. }
  destruct (extendLoans_exchange net (baseUrl_of (snd entry))
              (loansToExtend maxDays details) w Hne) as (Hs & Hq & Hok & Hthrow).
  rewrite run_bind.
  destruct (run net (extendLoans _ _) w) as [[count|e] w1];
    cbn [fst snd run ret] in *; repeat split; auto;
    try (intros _; now eexists);
    try (intros Hb; destruct (Hthrow Hb) as [e' He']; discriminate He');
    try (intros Hb; destruct (Hok Hb) as [c Hc]; discriminate Hc).
Qed.

(** the loop over the accounts is [loop_exchange] *)
Lemma extend_loop_exchange net maxDays users : forall t0 w,
  let exchange := loop_exchange net (seq w) maxDays users in
  let r := run net (for_each (extend_account maxDays) users t0) w in
  sent (snd r) = (sent w ++ fst exchange)%list
  /\ seq (snd r) = (seq w + List.length (fst exchange))%nat
  /\ (snd exchange = true -> exists total, fst r = Ok total)
  /\ (snd exchange = false -> exists e, fst r = Throw e).
Proof.
  induction users as [|u us IH]; intros t0 w; cbv zeta.
  - cbn. rewrite app_nil_r, Nat.add_0_r. split; [|split; [|split]].
    + reflexivity.
    + reflexivity.
    + intros _. now eexists.
    + discriminate.
  - rewrite run_for_each_cons. cbn [loop_exchange].
    destruct (due_batch maxDays u) eqn:Hdue.
    + destruct (extend_account_due net maxDays t0 u w Hdue) as (Hs & Hq & Hok & Hthrow).
      destruct (snd (batch_exchange net (seq w) (batch_address maxDays u))) eqn:Hb.
      * destruct (Hok eq_refl) as [t1 Ht1].
        destruct (run net (extend_account maxDays t0 u) w) as [o w1].
        cbn [fst snd] in *. subst o.
        specialize (IH t1 w1). cbv zeta in IH. rewrite Hq in IH.
        destruct IH as (Hs2 & Hq2 & Hok2 & Hthrow2).
        split; [|split; [|split]].
        -- rewrite Hs2, Hs. now rewrite app_assoc.
        -- rewrite Hq2, length_app. lia.
        -- exact Hok2.
        -- exact Hthrow2.
      * destruct (Hthrow eq_refl) as [e He].
        destruct (run net (extend_account maxDays t0 u) w) as [o w1].
        cbn [fst snd] in *. subst o. split; [|split; [|split]].
        -- exact Hs.
        -- exact Hq.
        -- discriminate.
        -- intros _. now eexists.
    + rewrite (extend_account_not_due net maxDays t0 u w Hdue). exact (IH t0 w).
Qed.

(** when every batch goes through, the forms asked for are those of the
    accounts due a batch, one each, in the order of the snapshot *)
Lemma loop_exchange_forms net maxDays users : forall n,
  snd (loop_exchange net n maxDays users) = true ->
  filter is_form_get (fst (loop_exchange net n maxDays users))
  = map (fun entry => renewal_form (batch_address maxDays entry))
        (filter (due_batch maxDays) users).
Proof.
  induction users as [|u us IH]; intros n; [reflexivity|].
  cbn [loop_exchange filter]. destruct (due_batch maxDays u); [|apply IH].
  destruct (snd (batch_exchange net n (batch_address maxDays u))) eqn:Hb;
    [|discriminate].
  cbn [fst snd map]. intros Hlater. rewrite filter_app, (IH _ Hlater).
  f_equal. clear. unfold batch_exchange.
  destruct (net n _) as [r|reason]; [|reflexivity].
  destruct (_ || _)%bool; [|reflexivity].
  destruct (Http.document r) as [| | | | | |[inputs|]| |]; reflexivity.
Qed.

(** C8 (batch extension), as the code has it: for every stored snapshot
    and threshold, [extendAllLoans] picks for each account exactly the
    renewal identifiers of its loans that are extendable, have a
    non-empty identifier and at most [maxDays] days remaining.  What it
    sends is the exchange [loop_exchange]: for the accounts in turn
    that have such a loan (and a base URL), the renewal form addressed
    by the account's identifiers and, when a form is served, its named
    fields sent back; an account without such a loan gets no request.
    The loop ends at the first batch that throws: nothing more is sent,
    not even the follow-up refresh, and the call answers [false].
    Only when every batch goes through is there one batch per account
    due one. *)
Theorem C8_batches_until_one_throws :
  forall (host : JSDate.Host) (net : nat -> Http.Request -> Http.Result)
         (maxDays : Z) (data : Data)
         (users : list (string * User.t)) (w : World),
    lastData (device w) = Some data ->
    userDetails data = Some users ->
    let exchange := loop_exchange net (seq w) maxDays users in
    let r := run net (extendAllLoans host maxDays) w in
    (forall entry id,
        In entry users ->
        (In id (account_batch maxDays (snd entry)) <->
         exists details kv,
           User.loanDetails (snd entry) = Some details
           /\ In kv details
           /\ Detail.isExtendable (snd kv) = true
           /\ Detail.extendLoanId (snd kv) = id
           /\ id <> EmptyString
           /\ exists d, Detail.daysRemaining (snd kv) = Some d /\ d <= maxDays))
    /\ (exists refresh,
          sent (snd r) = (sent w ++ fst exchange ++ refresh)%list
          /\ (snd exchange = false -> refresh = [] /\ fst r = Ok false)
          /\ (forall total w1,
                run net (for_each (extend_account maxDays) users 0) w = (Ok total, w1) ->
                total <= 0 -> refresh = [] /\ fst r = Ok false))
    /\ (snd exchange = true ->
        filter is_form_get (fst exchange)
        = map (fun entry => renewal_form (batch_address maxDays entry))
              (filter (due_batch maxDays) users)).
Proof.
  intros host net maxDays data users w Hdata Husers exchange r. split; [|split].
  - intros entry id _. unfold account_batch.
    destruct (User.loanDetails (snd entry)) as [details|].
    + rewrite loansToExtend_spec. split.
      * intros [kv H]. exists details, kv. tauto.
      * intros [details' [kv [Heq H]]]. inversion Heq; subst. exists kv. exact H.
    + split; [intros [] | intros [details [kv [Heq _]]]; discriminate].
  - destruct (extend_loop_exchange net maxDays users 0 w) as (Hs & _ & Hok & Hthrow).
    fold exchange in Hs, Hok, Hthrow.
    subst r. unfold extendAllLoans. rewrite run_try_catch.
    cbn [await this bind run]. rewrite Hdata, Husers.
    rewrite run_bind.
    destruct (run net (for_each (extend_account maxDays) users 0) w)
      as [[total|e] w1] eqn:Hrun; cbn [fst snd] in Hs, Hok, Hthrow.
    + destruct (Z.gtb_spec total 0) as [Hpos|Hnot].
      * rewrite run_bind.
        match goal with
        | |- context [run net ?p w1] =>
            destruct (extends_run net p w1) as [refresh Hr];
            destruct (run net p w1) as [[u|e] w2]
        end; cbn [fst snd run ret] in *;
          exists refresh; (split; [rewrite Hr, Hs; now rewrite app_assoc|]);
          (split; [intros Hb; destruct (Hthrow Hb) as [e' He']; discriminate
                  | intros total' w1' Heq; inversion Heq; subst; lia]).
      * cbn [bind ret run fst snd]. exists []. rewrite app_nil_r.
        split; [exact Hs|]. split.
        -- intros Hb. destruct (Hthrow Hb) as [e' He']. discriminate.
        -- intros total' w1' Heq Hle. inversion Heq; subst. split; [reflexivity|].
           destruct (Z.gtb_spec total' 0); [lia | reflexivity].
    + cbn [run ret fst snd]. exists []. rewrite app_nil_r.
      split; [exact Hs|]. split; [auto | intros total' w1' Heq; discriminate].
  - exact (loop_exchange_forms net maxDays users (seq w)).
Qed.

(** C8, as the specification has it, fails: both accounts of the
    snapshot have an eligible loan, but the renewal form of the first
    is answered with a redirect to the sign-in page; the batch throws,
    the loop ends, and the second account gets no request at all. *)
Lemma C8_failed_batch_ends_the_loop :
  let '(result, w) :=
    run (Scenario.script Fixture.session_expired)
      (extendAllLoans JSDate.host_utc 7)
      (Scenario.world0 Fixture.device_with_two Scenario.noon_2_nov_2026) in
  map (fun entry => account_batch 7 (snd entry)) Fixture.users_two = [["x1"]; ["y7"]]
  /\ map (due_batch 7) Fixture.users_two = [true; true]
  /\ sent w
     = [get_request
          "https://bibliotheek.be/my-library/memberships/1001/extend?loan-ids=x1"
          Http.manual]
  /\ result = Ok false.
Proof. vm_compute. repeat split. Qed.

(* ================================================================== *)
(** * refreshData                                                      *)
(* ================================================================== *)

(** a failing login fails the whole fetch, and so does a failing
    membership or overview request *)
Lemma refreshAllData_login_throws net u p w e w1 :
  run net (login u p) w = (Throw e, w1) ->
  run net (refreshAllData u p) w = (Throw e, w1).
Proof. intros H. unfold refreshAllData. now rewrite run_bind, H. Qed.

Lemma refreshAllData_memberships_throw net u p w b w1 e w2 :
  run net (login u p) w = (Ok b, w1) ->
  run net getMemberships w1 = (Throw e, w2) ->
  run net (refreshAllData u p) w = (Throw e, w2).
Proof.
  intros H1 H2. unfold refreshAllData. rewrite run_bind, H1.
  now rewrite run_bind, H2.
Qed.

Lemma refreshAllData_overview_throws net u p w b w1 m w2 e w3 :
  run net (login u p) w = (Ok b, w1) ->
  run net getMemberships w1 = (Ok m, w2) ->
  run net getLoans w2 = (Throw e, w3) ->
  run net (refreshAllData u p) w = (Throw e, w3).
Proof.
  intros H1 H2 H3. unfold refreshAllData. rewrite run_bind, H1.
  rewrite run_bind, H2. now rewrite run_bind, H3.
Qed.

Lemma account_step_activities_throw net st a w e w1 :
  Http.hasError a = false ->
  JS.truthy_str (Http.id a) = true ->
  run net (getActivities (JS.str_or (Http.id a) "")) w = (Throw e, w1) ->
  run net (account_step st a) w = (Throw e, w1).
Proof.
  intros Herr Hid Hact. unfold account_step. rewrite Herr, Hid. cbn [negb andb].
  now rewrite run_bind, Hact.
Qed.

(** C10 (a failed fetch leaves the last good state): whenever
    [refreshAllData] throws, [refreshData] returns [false]; the stored
    ['lastData'], the map of previous loans, the previous minimum, the
    capabilities and the events triggered are what they were; only the
    availability changes. *)
Theorem C10_failed_refresh_keeps_state :
  forall (host : JSDate.Host) (net : nat -> Http.Request -> Http.Result)
         (w : World) (e : Error) (w1 : World),
    run net (refreshAllData (username (device w)) (password (device w))) w
    = (Throw e, w1) ->
    fst (run net (refreshData host) w) = Ok false
    /\ lastData (device (snd (run net (refreshData host) w))) = lastData (device w)
    /\ previousLoans (device (snd (run net (refreshData host) w)))
       = previousLoans (device w)
    /\ previousDaysRemaining (device (snd (run net (refreshData host) w)))
       = previousDaysRemaining (device w)
    /\ days_remaining (device (snd (run net (refreshData host) w)))
       = days_remaining (device w)
    /\ triggered (device (snd (run net (refreshData host) w))) = triggered (device w)
    /\ unavailable (device (snd (run net (refreshData host) w))) = Some e.
Proof.
  intros host net w e w1 Hthrow.
  pose proof (api_only_device net _ w
                (api_only_refreshAllData (username (device w)) (password (device w))))
    as Hdev.
  rewrite Hthrow in Hdev. cbn [snd] in Hdev.
  unfold refreshData. rewrite run_try_catch.
  cbn [this bind run]. rewrite run_bind, Hthrow.
  cbn. rewrite Hdev. repeat split.
Qed.

(** conversely the store is written only with the data of a fetch that
    succeeded *)
Lemma refreshData_success host net w data w1 :
  run net (refreshAllData (username (device w)) (password (device w))) w
  = (Ok data, w1) ->
  fst (run net (refreshData host) w) = Ok true
  /\ lastData (device (snd (run net (refreshData host) w))) = Some data
  /\ unavailable (device (snd (run net (refreshData host) w))) = None.
Proof.
  intros Hok. unfold refreshData. rewrite run_try_catch.
  cbn [this bind run]. rewrite run_bind, Hok. cbn. repeat split.
Qed.

(* ================================================================== *)
(** * The snapshots a refresh writes                                   *)
(* ================================================================== *)

Lemma string_app_assoc (a b c : string) : ((a ++ b) ++ c = a ++ (b ++ c))%string.
Proof. induction a as [|x a IH]; simpl; congruence. Qed.

Lemma string_app_length (a b : string) :
  String.length (a ++ b) = (String.length a + String.length b)%nat.
Proof. induction a as [|x a IH]; simpl; congruence. Qed.

Lemma strip_suffix_app (p suffix : string) :
  suffix <> EmptyString -> strip_suffix suffix (p ++ suffix) = p.
Proof.
  intros Hne. induction p as [|c p IH]; cbn [append].
  - destruct suffix as [|x s]; [congruence|].
    cbn [strip_suffix]. now rewrite String.eqb_refl.
  - cbn [strip_suffix].
    destruct (String.eqb_spec (String c (p ++ suffix)) suffix) as [Heq|_].
    + exfalso. apply (f_equal String.length) in Heq.
      cbn [String.length] in Heq. rewrite string_app_length in Heq. lia.
    + now rewrite IH.
Qed.

Lemma baseUrl_of_user_of_account accountId account activities :
  baseUrl_of (user_of_account accountId account activities)
  = ("https://bibliotheek.be/my-library/memberships/" ++ accountId)%string.
Proof.
  unfold baseUrl_of, user_of_account, loans_url. cbn [User.loans User.url].
  rewrite <- string_app_assoc. apply strip_suffix_app. discriminate.
Qed.

Lemma In_replace {A} k (v : A) o o' kv :
  Obj.replace k v o = Some o' -> In kv o' -> In kv o \/ snd kv = v.
Proof.
  revert o'. induction o as [|[k' v'] o IH]; intros o' Hr Hin; simpl in Hr.
  - discriminate.
  - destruct (String.eqb k k').
    + inversion Hr; subst. destruct Hin as [<-|Hin]; [now right | left; now right].
    + destruct (Obj.replace k v o) as [o2|]; [|discriminate].
      inversion Hr; subst. destruct Hin as [<-|Hin]; [left; now left|].
      destruct (IH o2 eq_refl Hin); [left; now right | now right].
Qed.

Lemma In_insert_index {A} n k (v : A) o kv :
  In kv (Obj.insert_index n k v o) -> In kv o \/ snd kv = v.
Proof.
  induction o as [|[k' v'] o IH]; simpl.
  - intros [<-|[]]. now right.
  - destruct (Obj.array_index k') as [n'|].
    + destruct (n <? n').
      * intros [<-|Hin]; [now right | now left].
      * intros [<-|Hin]; [left; now left|].
        destruct (IH Hin); [left; now right | now right].
    + intros [<-|Hin]; [now right | now left].
Qed.

(** an entry of [o] after [o[k] = v] was there before or holds [v] *)
Lemma In_Obj_set {A} k (v : A) o kv :
  In kv (Obj.set k v o) -> In kv o \/ snd kv = v.
Proof.
  unfold Obj.set. destruct (Obj.replace k v o) as [o'|] eqn:Hr.
  - eapply In_replace; eauto.
  - destruct (Obj.array_index k) as [n|].
    + apply In_insert_index.
    + intros Hin. apply in_app_or in Hin.
      destruct Hin as [Hin|[<-|[]]]; [now left | now right].
Qed.

Lemma scraped_loan_of_element accountId el :
  scraped (snd (loan_of_element accountId el)).
Proof. split; [discriminate | reflexivity]. Qed.

Lemma scrape_loans_scraped accountId wrappers kv :
  In kv (scrape_loans accountId wrappers) -> scraped (snd kv).
Proof.
  unfold scrape_loans. generalize (List.concat wrappers). intros els.
  assert (H0 : forall kv, In kv (@nil (string * Detail.Loan)) -> scraped (snd kv))
    by (intros ? []).
  revert H0. generalize (@nil (string * Detail.Loan)).
  induction els as [|el els IH]; intros acc Hacc; cbn [fold_left]; auto.
  apply IH. intros kv' Hin. apply In_Obj_set in Hin.
  destruct Hin as [Hin| ->]; [auto | apply scraped_loan_of_element].
Qed.

Lemma getLoanDetails_scraped net url w details w1 kv :
  run net (getLoanDetails url) w = (Ok details, w1) ->
  In kv details -> scraped (snd kv).
Proof.
  unfold getLoanDetails. rewrite run_fetch_bind.
  destruct (net (seq w) _) as [r|reason]; [|discriminate].
  destruct (negb (Http.ok r)); [discriminate|].
  destruct (Http.document r); intros Hrun Hin; inversion Hrun; subst;
    try contradiction.
  eapply scrape_loans_scraped; eauto.
Qed.

Lemma well_formed_user_of_account accountId account activities :
  well_formed_user (user_of_account accountId account activities).
Proof.
  split.
  - rewrite baseUrl_of_user_of_account. discriminate.
  - intros details kv Hd. discriminate.
Qed.

Lemma well_formed_with_loanDetails user details :
  well_formed_user user ->
  (forall kv, In kv details -> scraped (snd kv)) ->
  well_formed_user (with_loanDetails user details).
Proof.
  intros [Hurl _] Hd. split.
  - exact Hurl.
  - intros details' kv Heq Hin. inversion Heq; subst. auto.
Qed.

Lemma account_step_well_formed net st account w st' w' :
  (forall entry, In entry (fst st) -> well_formed_user (snd entry)) ->
  run net (account_step st account) w = (Ok st', w') ->
  forall entry, In entry (fst st') -> well_formed_user (snd entry).
Proof.
  intros Hst Hrun. unfold account_step in Hrun.
  destruct (_ && _)%bool; [|inversion Hrun; subst; exact Hst].
  rewrite run_bind in Hrun.
  destruct (run net (getActivities _) w) as [[act|e] w1]; [|discriminate].
  set (user := user_of_account _ account act) in Hrun.
  assert (Hu : well_formed_user user) by apply well_formed_user_of_account.
  destruct (match Http.numberOfLoans act with Some n => n >? 0 | None => false end).
  - rewrite run_try_catch, run_bind in Hrun.
    destruct (run net (getLoanDetails _) w1) as [[details|e] w2] eqn:Hd.
    + inversion Hrun; subst. cbn [fst]. intros entry Hin.
      apply In_Obj_set in Hin. destruct Hin as [Hin| ->].
      * apply In_Obj_set in Hin. destruct Hin as [Hin| ->]; auto.
      * apply well_formed_with_loanDetails; auto.
        intros kv Hkv. eapply getLoanDetails_scraped; eauto.
    + inversion Hrun; subst. cbn [fst]. intros entry Hin.
      apply In_Obj_set in Hin. destruct Hin as [Hin| ->]; auto.
  - inversion Hrun; subst. cbn [fst]. intros entry Hin.
    apply In_Obj_set in Hin. destruct Hin as [Hin| ->]; auto.
Qed.

(** X4 (well-formed snapshots): every snapshot a successful fetch
    returns (hence every snapshot the
    device stores) has well-formed account records. *)
Lemma refreshAllData_well_formed net u p w data w1 :
  run net (refreshAllData u p) w = (Ok data, w1) ->
  exists users,
    userDetails data = Some users
    /\ forall entry, In entry users -> well_formed_user (snd entry).
Proof.
  unfold refreshAllData. intros Hrun.
  rewrite run_bind in Hrun.
  destruct (run net (login u p) w) as [[b|e] wa]; [|discriminate].
  rewrite run_bind in Hrun.
  destruct (run net getMemberships wa) as [[m|e] wb]; [|discriminate].
  rewrite run_bind in Hrun.
  destruct (run net getLoans wb) as [[l|e] wc]; [|discriminate].
  rewrite run_bind in Hrun.
  destruct (run net getReservations wc) as [[r|e] wd]; [|discriminate].
  rewrite run_bind in Hrun.
  destruct (run net (for_each _ m ([], [])) wd) as [[st|e] we] eqn:Hloop; [|discriminate].
  rewrite run_bind in Hrun.
  destruct (run net (try_catch getUserLists _) we) as [[ul|e] wf]; [|discriminate].
  cbn in Hrun. inversion Hrun; subst. cbn [userDetails].
  exists (fst st). split; [reflexivity|].
  revert Hloop.
  apply (for_each_invariant net
           (fun st => forall entry, In entry (fst st) -> well_formed_user (snd entry))).
  - intros s region w0 s' w0' Hs.
    apply (for_each_invariant net
             (fun st => forall entry, In entry (fst st) -> well_formed_user (snd entry))).
    + intros s2 a w2 s2' w2' Hs2 Hstep. eapply account_step_well_formed; eauto.
    + exact Hs.
  - intros entry [].
Qed.

(* ================================================================== *)
(** * Refreshes in flight                                              *)
(* ================================================================== *)

Lemma in_flight_call p l :
  EventLoop.in_flight (EventLoop.call p l)
  = (EventLoop.in_flight l
     + if EventLoop.is_settled (fst (EventLoop.until_await p (EventLoop.world l)))
       then 0 else 1)%nat.
Proof.
  unfold EventLoop.in_flight, EventLoop.call. cbn [EventLoop.tasks].
  rewrite filter_app, length_app. cbn [filter].
  destruct (EventLoop.is_settled _); reflexivity.
Qed.

(** C9, as the code has it: a call of [refreshData] is never dropped or
    held back.  Whatever calls are under way, a new call runs at once as
    far as the first request of its own login, which it sends before
    anything else happens; the calls already running stay as they are,
    and one more is in flight. *)
Theorem C9_every_call_starts_at_once :
  forall (host : JSDate.Host) (l : EventLoop.Loop),
    (exists k,
        EventLoop.tasks (EventLoop.call (refreshData host) l)
        = (EventLoop.tasks l
           ++ [EventLoop.AwaitingFetch (seq (EventLoop.world l))
                 auth_start_request k])%list)
    /\ sent (EventLoop.world (EventLoop.call (refreshData host) l))
       = (sent (EventLoop.world l) ++ [auth_start_request])%list
    /\ device (EventLoop.world (EventLoop.call (refreshData host) l))
       = device (EventLoop.world l)
    /\ EventLoop.in_flight (EventLoop.call (refreshData host) l)
       = S (EventLoop.in_flight l).
Proof.
  intros host l. repeat split.
  - eexists. unfold EventLoop.call. cbn. reflexivity.
  - rewrite in_flight_call. cbn. lia.
Qed.

(** C9, as the specification has it, fails: the interval callback firing while a
    refresh started by the Flow action awaits the answer to its first
    request starts a second refresh, in flight together with the first.  Resumed in turn, both
    submit the credentials, each in its own login, and later both are
    suspended in the write of the stored snapshot at the same time. *)
Lemma C9_two_refreshes_in_flight :
  let refresh := EventLoop.Call (refreshData JSDate.host_utc) in
  let tick := EventLoop.Call (pollingCallback JSDate.host_utc) in
  let net := Scenario.script (Scenario.twice Scenario.cycle_with_login) in
  let l0 := EventLoop.start
              (Scenario.world0 Scenario.fresh_device Scenario.noon_2_nov_2026) in
  let l2 := EventLoop.steps net [refresh; tick] l0 in
  let l6 := EventLoop.steps net (Scenario.in_turn 2) l2 in
  let l22 := EventLoop.steps net (Scenario.in_turn 8) l6 in
  map EventLoop.stage (EventLoop.tasks l2)
  = [EventLoop.InFetch auth_start_request; EventLoop.InFetch auth_start_request]
  /\ EventLoop.in_flight l2 = 2%nat
  /\ map Http.url (sent (EventLoop.world l6))
     = ["https://bibliotheek.be/mijn-bibliotheek/aanmelden";
        "https://bibliotheek.be/mijn-bibliotheek/aanmelden";
        Scenario.authorize_url;
        Scenario.authorize_url;
        "https://mijn.bibliotheek.be/openbibid/rest/auth/login";
        "https://mijn.bibliotheek.be/openbibid/rest/auth/login"]
  /\ EventLoop.in_flight l6 = 2%nat
  /\ map EventLoop.stage (EventLoop.tasks l22)
     = [EventLoop.InPlatform setStoreValue; EventLoop.InPlatform setStoreValue]
  /\ EventLoop.in_flight l22 = 2%nat.
Proof. vm_compute. repeat split. Qed.
(* ================================================================== *)
(** * The theorems at work on the scenarios                            *)
(* ================================================================== *)

(** the snapshot used below is the one the cycle [cycle_dune] returns *)
Lemma snapshot_dune_is_stored :
  fst (run (Scenario.script Scenario.cycle_dune)
         (refreshAllData "an@example.org" "secret")
         (Scenario.world0 Scenario.fresh_device Scenario.noon_2_nov_2026))
  = Ok Scenario.snapshot_dune.
Proof. vm_compute. reflexivity. Qed.

(** C3 on the spec's own example: 10 days, then 7 days, then 7 days again *)
Lemma C3_witness :
  filter is_loan_expiring
    (loan_triggers 7 [("Dune|An", Scenario.loan_at 10)] ("Dune|An", Scenario.loan_at 7))
  = [loan_expiring "Dune" 7 "Gent" "An"]
  /\ filter is_loan_expiring
       (loan_triggers 7 [("Dune|An", Scenario.loan_at 7)] ("Dune|An", Scenario.loan_at 7))
     = [].
Proof.
  destruct (C3_expiring_soon_edge_triggered 7 (Some 10)
              [("Dune|An", Scenario.loan_at 10)] [("Dune|An", Scenario.loan_at 7)]
              (Some 7) 1) as [Hrule _].
  destruct (C3_expiring_soon_edge_triggered 7 (Some 7)
              [("Dune|An", Scenario.loan_at 7)] [("Dune|An", Scenario.loan_at 7)]
              (Some 7) 1) as [_ [_ Hsame]].
  split.
  - apply (proj1 (Hrule "Dune|An" (Scenario.loan_at 7))).
    split; [cbn; lia|]. right. exists (Scenario.loan_at 10).
    split; [reflexivity | cbn; lia].
  - apply (Hsame "Dune|An" (Scenario.loan_at 7)); [reflexivity | cbn; lia].
Defined.

(** C4 on a loan returned (minimum 5, then none) and on a first loan *)
Lemma C4_witness :
  filter is_days_changed
    (_checkAndTriggerFlows (Some 5) [("Dune|An", Scenario.loan_at 5)] [] None 0 7)
  = [days_changed None 0]
  /\ filter is_days_changed
       (_checkAndTriggerFlows None [] [("Dune|An", Scenario.loan_at 5)] (Some 5) 1 7)
     = [].
Proof.
  split.
  - apply (proj1 (C4_days_changed_needs_previous_minimum (Some 5)
                    [("Dune|An", Scenario.loan_at 5)] [] None 0 7)).
    exists 5. split; [reflexivity | discriminate].
  - apply (proj2 (C4_days_changed_needs_previous_minimum None []
                    [("Dune|An", Scenario.loan_at 5)] (Some 5) 1 7)).
    intros [p [Hp _]]. discriminate.
Defined.

(** C5 on the snapshot of [cycle_dune]: overview in 3 days, detail 5 days *)
Lemma C5_witness :
  exists merged,
    LoanMapOps.get "Dune|An"
      (currentLoans (aggregate JSDate.host_utc Scenario.noon_2_nov_2026 7
                       Scenario.snapshot_dune)) = Some merged
    /\ Current.daysLeft merged = 5
    /\ Current.extendLoanId merged = Some "x1"
    /\ Current.isExtendable merged = true
    /\ Current.title merged = "Dune"
    /\ Current.author merged = ""
    /\ Current.libraryName merged = "Gent"
    /\ Current.userName merged = "An"
    /\ Current.dueDate merged = Some "05/11/2026".
Proof.
  apply (C5_merge_detail_over_coarse JSDate.host_utc Scenario.noon_2_nov_2026 7
           Scenario.snapshot_dune [] [] Scenario.dune_overview Scenario.users_dune
           [] [] "An" Scenario.dune_detail "Dune|An" 5);
    try reflexivity.
  - intros c [].
  - intros e [].
Defined.


(** C8 on the snapshot of [cycle_dune], extended at maxDays 5: the
    exchange goes through, and its one renewal form is that of the
    account *)
Lemma C8_witness :
  filter is_form_get
    (fst (loop_exchange (Scenario.script Scenario.extension_of_dune) 0 5
            Scenario.users_dune))
  = [get_request
       "https://bibliotheek.be/my-library/memberships/1001/extend?loan-ids=x1"
       Http.manual].
Proof.
  exact (proj2 (proj2 (C8_batches_until_one_throws JSDate.host_utc
                         (Scenario.script Scenario.extension_of_dune) 5
                         Scenario.snapshot_dune Scenario.users_dune
                         (Scenario.world0 Scenario.device_with_dune
                            Scenario.noon_2_nov_2026)
                         eq_refl eq_refl))
           eq_refl).
Defined.

(** C10 on a service that answers nothing: the login request times out *)
Lemma C10_witness :
  let w := Scenario.world0 Scenario.fresh_device Scenario.noon_2_nov_2026 in
  let after := device (snd (run (Scenario.script []) (refreshData JSDate.host_utc) w)) in
  fst (run (Scenario.script []) (refreshData JSDate.host_utc) w) = Ok false
  /\ lastData after = lastData (device w)
  /\ previousLoans after = previousLoans (device w)
  /\ previousDaysRemaining after = previousDaysRemaining (device w)
  /\ days_remaining after = days_remaining (device w)
  /\ triggered after = triggered (device w)
  /\ unavailable after = Some (FetchRejected "timeout").
Proof.
  exact (C10_failed_refresh_keeps_state JSDate.host_utc (Scenario.script [])
           (Scenario.world0 Scenario.fresh_device Scenario.noon_2_nov_2026)
           (FetchRejected "timeout")
           (with_request auth_start_request
              (Scenario.world0 Scenario.fresh_device Scenario.noon_2_nov_2026))
           eq_refl).
Defined.

(** the snapshot of [cycle_dune] is well formed *)
Lemma refreshAllData_well_formed_witness :
  exists users,
    userDetails Scenario.snapshot_dune = Some users
    /\ forall entry, In entry users -> well_formed_user (snd entry).
Proof.
  eapply (refreshAllData_well_formed (Scenario.script Scenario.cycle_dune)
            "an@example.org" "secret"
            (Scenario.world0 Scenario.fresh_device Scenario.noon_2_nov_2026)).
  vm_compute. reflexivity.
Defined.

(** the account loop against a service that answers nothing *)
Lemma extend_loop_requests_prefix_witness :
  exists new n,
    sent (snd (run (Scenario.script [])
                 (for_each (extend_account 5) Scenario.users_dune 0)
                 (Scenario.world0 Scenario.device_with_dune
                    Scenario.noon_2_nov_2026)))
    = ([] ++ new)%list
    /\ filter is_form_get new
       = firstn n (map (batch_request 5) (filter (has_batch 5) Scenario.users_dune)).
Proof.
  apply (extend_loop_requests_prefix (Scenario.script []) 5 Scenario.users_dune 0
           (Scenario.world0 Scenario.device_with_dune Scenario.noon_2_nov_2026)).
  intros entry [<-|[]]. vm_compute. discriminate.
Defined.

(** a due date three days ahead on a host in UTC *)
Lemma calculateDaysRemaining_fixed_zone_witness :
  _calculateDaysRemaining JSDate.host_utc Scenario.noon_2_nov_2026 (Some "05/11/2026")
  = calendar_days_until (JSDate.fixed_zone 0) Scenario.noon_2_nov_2026 2026 11 5.
Proof.
  apply (calculateDaysRemaining_fixed_zone 0 JSDate.parse_iso_date
           Scenario.noon_2_nov_2026 "05/11/2026" "05" "11" "2026" 5 11 2026);
    try reflexivity; try discriminate.
  right. reflexivity.
Defined.

(* ================================================================== *)
(** * Facts about the sort                                             *)
(* ================================================================== *)

Lemma insert_by_perm {A} (key : A -> Z) (x : A) (l : list A) :
  Permutation (JSArray.insert_by key x l) (x :: l).
Proof.
  induction l as [|y l IH]; cbn [JSArray.insert_by].
  - apply Permutation_refl.
  - destruct (key x <=? key y).
    + apply Permutation_refl.
    + eapply perm_trans; [apply perm_skip, IH | apply perm_swap].
Qed.

Lemma sort_by_perm {A} (key : A -> Z) (l : list A) :
  Permutation (JSArray.sort_by key l) l.
Proof.
  induction l as [|x l IH]; cbn [JSArray.sort_by].
  - apply perm_nil.
  - eapply perm_trans; [apply insert_by_perm | apply perm_skip, IH].
Qed.

Lemma insert_by_ascending {A} (key : A -> Z) (x : A) (l : list A) :
  ascending key l -> ascending key (JSArray.insert_by key x l).
Proof.
  unfold ascending. induction l as [|y l IH]; intros Hs; cbn [JSArray.insert_by].
  - constructor; constructor.
  - apply StronglySorted_inv in Hs. destruct Hs as [Hl Hy].
    destruct (Z.leb_spec (key x) (key y)) as [Hle|Hgt].
    + constructor.
      * constructor; assumption.
      * constructor; [exact Hle|].
        eapply Forall_impl; [|exact Hy]. cbn. intros a Ha. lia.
    + constructor.
      * apply IH, Hl.
      * eapply Permutation_Forall.
        -- apply Permutation_sym, insert_by_perm.
        -- constructor; [lia | exact Hy].
Qed.

Lemma sort_by_ascending {A} (key : A -> Z) (l : list A) :
  ascending key (JSArray.sort_by key l).
Proof.
  induction l as [|x l IH]; cbn [JSArray.sort_by].
  - constructor.
  - apply insert_by_ascending, IH.
Qed.

Lemma sort_by_length {A} (key : A -> Z) (l : list A) :
  List.length (JSArray.sort_by key l) = List.length l.
Proof. apply Permutation_length, sort_by_perm. Qed.

(* ================================================================== *)
(** * Facts about countRepeatedNumbers                                 *)
(* ================================================================== *)

Lemma countRepeatedNumbers_loop_runs chars : forall counts c n,
  countRepeatedNumbers_loop chars counts (Some c) n
  = (counts ++ map spell (runs_from c n chars))%list.
Proof.
  induction chars as [|char rest IH]; intros counts c n.
  - cbn [countRepeatedNumbers_loop runs_from map]. unfold push_run, spell.
    cbn [fst snd]. destruct (n >? 1); reflexivity.
  - cbn [countRepeatedNumbers_loop runs_from].
    destruct (Ascii.eqb char c).
    + apply IH.
    + rewrite IH. cbn [map]. unfold push_run, spell. cbn [fst snd].
      destruct (n >? 1); rewrite <- app_assoc; reflexivity.
Qed.

Lemma runs_from_expand chars : forall c n,
  0 <= n ->
  flat_map (fun r => repeat (fst r) (Z.to_nat (snd r))) (runs_from c n chars)
  = (repeat c (Z.to_nat n) ++ chars)%list.
Proof.
  induction chars as [|char rest IH]; intros c n Hn; cbn [runs_from].
  - cbn. reflexivity.
  - destruct (Ascii.eqb_spec char c) as [->|Hne].
    + rewrite IH by lia. rewrite Z2Nat.inj_add by lia.
      change (Z.to_nat 1) with 1%nat. rewrite repeat_app. cbn [repeat].
      rewrite <- app_assoc. reflexivity.
    + cbn [flat_map fst snd]. rewrite IH by lia. reflexivity.
Qed.

Lemma runs_from_counts chars : forall c n,
  1 <= n -> Forall (fun r => 1 <= snd r) (runs_from c n chars).
Proof.
  induction chars as [|char rest IH]; intros c n Hn; cbn [runs_from].
  - constructor; [exact Hn | constructor].
  - destruct (Ascii.eqb char c).
    + apply IH. lia.
    + constructor; [exact Hn | apply IH; lia].
Qed.

Lemma runs_from_head chars : forall c n,
  exists m rest, runs_from c n chars = (c, m) :: rest.
Proof.
  induction chars as [|char rest IH]; intros c n; cbn [runs_from].
  - eauto.
  - destruct (Ascii.eqb char c); eauto.
Qed.

Lemma runs_from_neighbours chars : forall c n,
  neighbours_differ (runs_from c n chars).
Proof.
  induction chars as [|char rest IH]; intros c n; cbn [runs_from].
  - exact I.
  - destruct (Ascii.eqb_spec char c) as [->|Hne].
    + apply IH.
    + destruct (runs_from_head rest char 1) as [m [tl Hrun]].
      specialize (IH char 1). rewrite Hrun in *.
      split; [cbn; congruence | exact IH].
Qed.

(** X6 (the spelled barcode): [countRepeatedNumbers] spells the maximal runs of its input:
    the result is the spelling, run by run, of a sequence of runs which
    written out give back the input, each of at least one character,
    no two neighbours of the same character; a run of one character is
    spelled as that character, a longer one as its length, [x] and the
    character. *)
Theorem countRepeatedNumbers_spells_runs :
  forall inputString : string,
  exists runs : list (ascii * Z),
    countRepeatedNumbers inputString = map spell runs
    /\ flat_map (fun r => repeat (fst r) (Z.to_nat (snd r))) runs
       = list_ascii_of_string inputString
    /\ Forall (fun r => 1 <= snd r) runs
    /\ neighbours_differ runs.
Proof.
  intros inputString. unfold countRepeatedNumbers.
  destruct (list_ascii_of_string inputString) as [|c rest].
  - exists []. repeat split; constructor.
  - exists (runs_from c 1 rest). cbn [countRepeatedNumbers_loop].
    change (push_run [] None 0) with (@nil string).
    rewrite countRepeatedNumbers_loop_runs. repeat split.
    + rewrite runs_from_expand by lia. reflexivity.
    + apply runs_from_counts. lia.
    + apply runs_from_neighbours.
Qed.

(* ================================================================== *)
(** * Facts about _buildLoansSummary                                   *)
(* ================================================================== *)

Lemma substring_to_length (n : nat) (s : string) :
  String.length (JSText.substring_to n s) = Nat.min n (String.length s).
Proof.
  unfold JSText.substring_to. revert n.
  induction s as [|c s IH]; intros [|n]; cbn; auto.
Qed.

Lemma str_or_Some (s d : string) :
  JS.str_or (Some s) d = if String.eqb s "" then d else s.
Proof. destruct s; reflexivity. Qed.

Lemma join_cons2_length (sep a b : string) (r : list string) :
  (String.length a + String.length sep + String.length b
   <= String.length (JS.join sep (a :: b :: r)))%nat.
Proof.
  cbn [JS.join]. rewrite !string_app_length.
  destruct r as [|c r].
  - lia.
  - rewrite !string_app_length. lia.
Qed.

Lemma push_loan_keys u loan m :
  map fst (push_loan u loan m)
  = if existsb (String.eqb u) (map fst m) then map fst m
    else (map fst m ++ [u])%list.
Proof.
  induction m as [|[u' loans] m IH]; cbn [push_loan map fst existsb].
  - reflexivity.
  - destruct (String.eqb u u'); cbn [map fst orb].
    + reflexivity.
    + rewrite IH. destruct (existsb (String.eqb u) (map fst m)); reflexivity.
Qed.

Lemma existsb_eqb_In u (l : list string) :
  existsb (String.eqb u) l = true <-> In u l.
Proof.
  rewrite existsb_exists. split.
  - intros [x [Hin Heq]]. apply String.eqb_eq in Heq. now subst.
  - intros Hin. exists u. split; [exact Hin | apply String.eqb_refl].
Qed.

Lemma push_loan_In u loan m g :
  In g (push_loan u loan m) ->
  In g m
  \/ (fst g = u /\ exists loans, snd g = (loans ++ [loan])%list
                               /\ (loans = [] \/ In (u, loans) m)).
Proof.
  induction m as [|[u' loans] m IH]; cbn [push_loan].
  - intros [<-|[]]. right. split; [reflexivity|]. exists []. split; auto.
  - destruct (String.eqb_spec u u') as [->|Hne].
    + intros [<-|Hin].
      * right. split; [reflexivity|]. exists loans. split; [reflexivity|].
        right. now left.
      * left. now right.
    + intros [<-|Hin].
      * left. now left.
      * destruct (IH Hin) as [H|[H1 [l [H2 H3]]]].
        -- left. now right.
        -- right. split; [exact H1|]. exists l. split; [exact H2|].
           destruct H3 as [H3|H3]; [now left | right; now right].
Qed.

Lemma push_loan_grouped u loan m :
  summary_userName loan = u -> grouped m -> grouped (push_loan u loan m).
Proof.
  intros Hu [Hnd Hg]. split.
  - rewrite push_loan_keys.
    destruct (existsb (String.eqb u) (map fst m)) eqn:E; [exact Hnd|].
    apply NoDup_app; [exact Hnd | repeat constructor; intros [] | ].
    intros x Hx [<-|[]]. apply existsb_eqb_In in Hx. congruence.
  - intros g Hin. apply push_loan_In in Hin.
    destruct Hin as [Hin|[Hfst [loans [Hsnd Hl]]]].
    + apply Hg, Hin.
    + rewrite Hsnd, Hfst. split.
      * destruct loans; discriminate.
      * intros l Hl'. apply in_app_or in Hl'. destruct Hl' as [Hl'|[<-|[]]].
        -- destruct Hl as [->|Hl]; [destruct Hl'|].
           apply (Hg _ Hl). exact Hl'.
        -- exact Hu.
Qed.

Lemma push_loan_perm u loan m :
  Permutation (flat_map snd (push_loan u loan m)) (flat_map snd m ++ [loan]).
Proof.
  induction m as [|[u' loans] m IH]; cbn [push_loan flat_map snd].
  - apply Permutation_refl.
  - destruct (String.eqb u u'); cbn [flat_map snd].
    + rewrite <- !app_assoc. apply Permutation_app_head.
      apply Permutation_app_comm.
    + rewrite <- app_assoc. apply Permutation_app_head, IH.
Qed.

Lemma push_loan_not_nil u loan m : push_loan u loan m <> [].
Proof.
  destruct m as [|[u' loans] m]; cbn [push_loan]; [discriminate|].
  destruct (String.eqb u u'); discriminate.
Qed.

Lemma loansByUser_fold (l : list Current.Loan) : forall acc,
  grouped acc ->
  let m := fold_left (fun m loan => push_loan (summary_userName loan) loan m) l acc in
  grouped m
  /\ Permutation (flat_map snd m) (flat_map snd acc ++ l)
  /\ (acc <> [] \/ l <> [] -> m <> []).
Proof.
  induction l as [|x l IH]; intros acc Hacc; cbn [fold_left].
  - split; [exact Hacc|]. split.
    + rewrite app_nil_r. apply Permutation_refl.
    + intros [H|H]; congruence.
  - specialize (IH (push_loan (summary_userName x) x acc)
                  (push_loan_grouped _ x acc eq_refl Hacc)).
    cbv zeta in IH. destruct IH as [Hg [Hp Hn]]. split; [exact Hg|]. split.
    + eapply perm_trans; [exact Hp|].
      change (x :: l) with ([x] ++ l)%list. rewrite app_assoc.
      apply Permutation_app_tail, push_loan_perm.
    + intros _. apply Hn. left. apply push_loan_not_nil.
Qed.

Lemma grouped_nil : grouped [].
Proof. split; [constructor | intros g []]. Qed.

Lemma loansByUser_grouped (m : LoanMap) :
  grouped (loansByUser m)
  /\ Permutation (flat_map snd (loansByUser m)) (LoanMapOps.values m)
  /\ (m <> [] -> loansByUser m <> []).
Proof.
  unfold loansByUser.
  destruct (loansByUser_fold (LoanMapOps.values m) [] grouped_nil) as [Hg [Hp Hn]].
  split; [exact Hg|]. split; [exact Hp|].
  intros Hm. apply Hn. right. destruct m; [congruence | discriminate].
Qed.

Lemma flat_map_sorted_perm (groups : LoansByUser) :
  Permutation
    (flat_map snd (map (fun g => (fst g, JSArray.sort_by Current.daysLeft (snd g)))
                       groups))
    (flat_map snd groups).
Proof.
  induction groups as [|g groups IH]; cbn [map flat_map snd].
  - apply perm_nil.
  - apply Permutation_app; [apply sort_by_perm | exact IH].
Qed.

(** X7 (the summary lists every loan once): the lines of the summary
    are a sequence of blocks, one per user name, no user name twice;
    a block is headed by the name and the number of its loans and
    lists loans of that user only, most urgent first; each loan of the
    map is in exactly one block. *)
Theorem summary_lists_every_loan_once :
  forall currentLoans : LoanMap,
  exists blocks : list (string * list Current.Loan),
    summary_lines currentLoans
    = flat_map
        (fun b =>
           (fst b ++ " (" ++ JSText.toString (Z.of_nat (List.length (snd b))) ++ "):")
           :: map loan_line (snd b))
        blocks
    /\ NoDup (map fst blocks)
    /\ (forall b, In b blocks ->
          snd b <> []
          /\ ascending Current.daysLeft (snd b)
          /\ forall loan, In loan (snd b) -> summary_userName loan = fst b)
    /\ Permutation (flat_map snd blocks) (LoanMapOps.values currentLoans).
Proof.
  intros m.
  destruct (loansByUser_grouped m) as [[Hnd Hg] [Hp _]].
  exists (map (fun g => (fst g, JSArray.sort_by Current.daysLeft (snd g)))
              (loansByUser m)).
  split; [|split; [|split]].
  - unfold summary_lines. generalize (loansByUser m). intros groups.
    induction groups as [|g groups IH]; cbn [map flat_map]; [reflexivity|].
    rewrite IH. reflexivity.
  - rewrite map_map. cbn [fst]. exact Hnd.
  - intros b Hb. apply in_map_iff in Hb. destruct Hb as [g [<- Hin]].
    cbn [fst snd]. destruct (Hg g Hin) as [Hne Hu]. split; [|split].
    + intros Hnil. apply Hne. apply length_zero_iff_nil.
      rewrite <- (sort_by_length Current.daysLeft), Hnil. reflexivity.
    + apply sort_by_ascending.
    + intros loan Hl. apply Hu.
      eapply Permutation_in; [apply sort_by_perm | exact Hl].
  - eapply perm_trans; [apply flat_map_sorted_perm | exact Hp].
Qed.

Lemma loan_line_length loan : (7 <= String.length (loan_line loan))%nat.
Proof.
  unfold loan_line. rewrite !string_app_length. cbn [String.length]. lia.
Qed.

Lemma summary_lines_two (m : LoanMap) :
  m <> [] ->
  exists a b r, summary_lines m = a :: b :: r
                /\ (4 <= String.length a)%nat /\ (7 <= String.length b)%nat.
Proof.
  intros Hm. destruct (loansByUser_grouped m) as [[_ Hg] [_ Hn]].
  specialize (Hn Hm). unfold summary_lines.
  destruct (loansByUser m) as [|g groups]; [congruence|].
  destruct (Hg g (or_introl eq_refl)) as [Hne _].
  cbn [flat_map]. unfold user_lines at 1.
  assert (Hs : JSArray.sort_by Current.daysLeft (snd g) <> []).
  { intros Hnil. apply Hne. apply length_zero_iff_nil.
    rewrite <- (sort_by_length Current.daysLeft), Hnil. reflexivity. }
  destruct (JSArray.sort_by Current.daysLeft (snd g)) as [|x xs]; [congruence|].
  cbn [map app]. eexists _, _, _. split; [reflexivity|]. split.
  - rewrite !string_app_length. cbn [String.length]. lia.
  - apply loan_line_length.
Qed.

(** X8 (the summary fits the capability): whatever the loans,
    [_buildLoansSummary] returns at most 500 characters. *)
Theorem buildLoansSummary_at_most_500 :
  forall (currentLoans : LoanMap) (userDetails : option (list (string * User.t))),
    (String.length (_buildLoansSummary currentLoans userDetails) <= 500)%nat.
Proof.
  intros m ud. unfold _buildLoansSummary.
  set (summary := JS.join JSText.newline (summary_lines m)).
  destruct (Nat.ltb_spec 500 (String.length summary)) as [Hlong|Hshort].
  - rewrite str_or_Some.
    destruct (String.eqb _ ""); [cbn; lia|].
    rewrite string_app_length, substring_to_length. cbn [String.length]. lia.
  - rewrite str_or_Some. destruct (String.eqb summary ""); [cbn; lia | exact Hshort].
Qed.

(** X9 (the placeholder of the summary): [_buildLoansSummary] returns
    ['No loans'] for the empty map and for no other. *)
Theorem buildLoansSummary_no_loans :
  forall (currentLoans : LoanMap) (userDetails : option (list (string * User.t))),
    _buildLoansSummary currentLoans userDetails = "No loans" <-> currentLoans = [].
Proof.
  intros m ud. split.
  - intros Heq. destruct m as [|kv m]; [reflexivity|]. exfalso.
    destruct (summary_lines_two (kv :: m)) as [a [b [r [Hl [Ha Hb]]]]]; [discriminate|].
    assert (Hlen : (12 <= String.length (_buildLoansSummary (kv :: m) ud))%nat).
    { unfold _buildLoansSummary. rewrite Hl.
      pose proof (join_cons2_length JSText.newline a b r) as Hj.
      cbn [JSText.newline String.length] in Hj.
      set (summary := JS.join JSText.newline (a :: b :: r)) in *.
      destruct (Nat.ltb_spec 500 (String.length summary)) as [Hlong|Hshort].
      - rewrite str_or_Some.
        assert (Hn : String.length (JSText.substring_to 497 summary ++ "...") = 500%nat).
        { rewrite string_app_length, substring_to_length. cbn [String.length]. lia. }
        destruct (String.eqb_spec (JSText.substring_to 497 summary ++ "...") "") as [E|E].
        + rewrite E in Hn. discriminate.
        + lia.
      - rewrite str_or_Some.
        destruct (String.eqb_spec summary "") as [E|E].
        + rewrite E in Hj. cbn in Hj. lia.
        + lia. }
    rewrite Heq in Hlen. cbn in Hlen. lia.
  - intros ->. reflexivity.
Qed.

(* ================================================================== *)
(** * Facts about the polling timer                                    *)
(* ================================================================== *)

Lemma filter_keeps_older (h : nat) (l : list (nat * Z)) :
  Forall (fun r => (fst r < h)%nat) l ->
  filter (fun r => negb (Nat.eqb (fst r) h)) l = l.
Proof.
  induction 1 as [|r l Hr Hl IH]; cbn [filter]; [reflexivity|].
  destruct (Nat.eqb_spec (fst r) h) as [E|E]; [lia|].
  cbn [negb]. now rewrite IH.
Qed.

Lemma clear_own_timer (base : list (nat * Z)) (h : nat) (ms : Z) :
  Forall (fun r => (fst r < h)%nat) base ->
  filter (fun r => negb (Nat.eqb (fst r) h)) (base ++ [(h, ms)])%list = base.
Proof.
  intros Hb. rewrite filter_app, filter_keeps_older by exact Hb.
  cbn [filter fst]. rewrite Nat.eqb_refl. cbn [negb]. apply app_nil_r.
Qed.

Lemma setupPolling_first dev p :
  _pollInterval p = None ->
  Forall (fun r => (fst r < Timers.next (timers p))%nat) (Timers.running (timers p)) ->
  one_timer (Timers.running (timers p)) (_setupPolling dev p).
Proof.
  intros Hnone Hold. unfold _setupPolling. rewrite Hnone.
  exists (Timers.next (timers p)), (intervalMs dev). cbn.
  repeat split; [lia | exact Hold].
Qed.

Lemma setupPolling_again base dev p :
  one_timer base p -> one_timer base (_setupPolling dev p).
Proof.
  intros [h [ms [Hh [Hrun [Hlt Hbase]]]]]. unfold _setupPolling. rewrite Hh.
  exists (Timers.next (timers p)), (intervalMs dev). cbn.
  rewrite Hrun, clear_own_timer by exact Hbase.
  repeat split; [lia|].
  eapply Forall_impl; [|exact Hbase]. cbn. intros r Hr. lia.
Qed.

Lemma settings_changes_one_timer base changes : forall p,
  one_timer base p -> one_timer base (settings_changes changes p).
Proof.
  unfold settings_changes.
  induction changes as [|c changes IH]; intros p Hp; cbn [fold_left]; [exact Hp|].
  apply IH. unfold onSettings.
  destruct (existsb _ (fst c)); [apply setupPolling_again|]; exact Hp.
Qed.

(** X10 (one polling timer): from [onInit] on, through any number of
    settings changes, the device runs exactly one timer of its own,
    the one whose handle it holds, and [onDeleted] stops it; the timers
    of others are left as they were.  The platform hands out handles
    not in use (those running are below the next). *)
Theorem polling_keeps_one_timer :
  forall (dev : Device) (changes : list (list string * Device)) (p0 : Polling),
    Forall (fun r => (fst r < Timers.next (timers p0))%nat)
      (Timers.running (timers p0)) ->
    let p := settings_changes changes (onInit_polling dev p0) in
    (exists handle ms,
        _pollInterval p = Some handle
        /\ Timers.running (timers p)
           = (Timers.running (timers p0) ++ [(handle, ms)])%list)
    /\ Timers.running (timers (onDeleted p)) = Timers.running (timers p0).
Proof.
  intros dev changes p0 Hold p.
  assert (Hinv : one_timer (Timers.running (timers p0)) p).
  { apply settings_changes_one_timer. unfold onInit_polling.
    apply (setupPolling_first dev {| _pollInterval := None; timers := timers p0 |});
      [reflexivity | exact Hold]. }
  destruct Hinv as [h [ms [Hh [Hrun [Hlt Hbase]]]]]. split.
  - exists h, ms. split; assumption.
  - unfold onDeleted. rewrite Hh. cbn. rewrite Hrun.
    apply clear_own_timer, Hbase.
Qed.

(* ================================================================== *)
(** * Facts about the Flow cards of the driver                         *)
(* ================================================================== *)

Lemma loan_triggers_expiring_window T prev entry title d lib user :
  In (loan_expiring title d lib user) (loan_triggers T prev entry) -> 0 <= d <= T.
Proof.
  unfold loan_triggers. intros Hin. apply in_app_or in Hin.
  destruct Hin as [Hin|Hin].
  - destruct (match LoanMapOps.get (fst entry) prev with
              | Some p => _
              | None => true
              end); [|destruct Hin].
    destruct ((Current.daysLeft (snd entry) <=? T)
              && (Current.daysLeft (snd entry) >=? 0))%bool eqn:E; [|destruct Hin].
    destruct Hin as [Heq|[]]. inversion Heq; subst.
    apply andb_prop in E. destruct E as [E1 E2]. lia.
  - destruct (match LoanMapOps.get (fst entry) prev with
              | Some p => _
              | None => Current.daysLeft (snd entry) <? 0
              end); [|destruct Hin].
    destruct Hin as [Heq|[]]. discriminate.
Qed.

(** X11 (the events and the listener of loan_expiring): every
    loan_expiring event the device triggers carries a number of days
    from 0 to the warning threshold; so the run listener of the card
    lets it through for every card whose [days] is at least the
    threshold, and for no card whose [days] is negative. *)
Theorem expiring_events_and_the_listener :
  forall (prevMin : option Z) (prev cur : LoanMap) (minDays : option Z)
         (total T : Z) (title : string) (d : Z) (lib user : string),
    In (loan_expiring title d lib user)
       (_checkAndTriggerFlows prevMin prev cur minDays total T) ->
    0 <= d <= T
    /\ (forall args_days,
          T <= args_days -> Driver.loan_expiring_runListener args_days d = true)
    /\ (forall args_days,
          args_days < 0 -> Driver.loan_expiring_runListener args_days d = false).
Proof.
  intros prevMin prev cur minDays total T title d lib user Hin.
  assert (Hd : 0 <= d <= T).
  { unfold _checkAndTriggerFlows in Hin. apply in_app_or in Hin.
    destruct Hin as [Hin|Hin].
    - destruct prevMin; [|destruct Hin].
      destruct (min_differs _ _); [|destruct Hin].
      destruct Hin as [Heq|[]]. discriminate.
    - apply in_flat_map in Hin. destruct Hin as [entry [_ Hin]].
      eapply loan_triggers_expiring_window; eauto. }
  split; [exact Hd|]. unfold Driver.loan_expiring_runListener. split.
  - intros a Ha. apply Z.leb_le. lia.
  - intros a Ha. apply Z.leb_gt. lia.
Qed.

(* ================================================================== *)
(** * What a call can send and throw                                   *)
(* ================================================================== *)

Lemma all_steps_weaken {A} (R R' : Http.Request -> Prop) (E E' : Error -> Prop)
    (p : Async A) :
  (forall req, R req -> R' req) -> (forall e, E e -> E' e) ->
  all_steps R E p -> all_steps R' E' p.
Proof.
  intros HR HE. induction p as [a|e|req k IH|what k IH|k IH|e k IH];
    cbn [all_steps]; auto.
  intros [Hreq Hk]. split; auto.
Qed.

Lemma all_steps_bind {A B} R E (m : Async A) (f : A -> Async B) :
  all_steps R E m -> (forall a, all_steps R E (f a)) -> all_steps R E (bind m f).
Proof.
  intros Hm Hf. induction m as [a|e|req k IH|what k IH|k IH|e k IH];
    cbn [bind all_steps] in *; auto.
  destruct Hm. split; auto.
Qed.

Lemma all_steps_try_catch {A} R E E' (m : Async A) (handler : Error -> Async A) :
  all_steps R E' m -> (forall e, E' e -> all_steps R E (handler e)) ->
  all_steps R E (try_catch m handler).
Proof.
  intros Hm Hh. induction m as [a|e|req k IH|what k IH|k IH|e k IH];
    cbn [try_catch all_steps] in *; auto.
  destruct Hm. split; auto.
Qed.

Lemma all_steps_for_each {A S} R E (f : S -> A -> Async S) (l : list A) :
  (forall s a, all_steps R E (f s a)) -> forall s, all_steps R E (for_each f l s).
Proof.
  intros Hf. induction l as [|x l IH]; intros s; cbn [for_each].
  - exact I.
  - apply all_steps_bind; auto.
Qed.

Lemma all_steps_fetch (R : Http.Request -> Prop) (E : Error -> Prop) req :
  R req -> (forall reason, E (FetchRejected reason)) -> all_steps R E (fetch req).
Proof. intros HR HE. split; [exact HR|]. intros [r|reason]; cbn; auto. Qed.

Lemma all_steps_ret {A} R E (a : A) : all_steps R E (ret a).
Proof. exact I. Qed.

Lemma all_steps_throw {A} (R : Http.Request -> Prop) (E : Error -> Prop) e :
  E e -> all_steps R E (@throw A e).
Proof. intros He. exact He. Qed.

Lemma all_steps_set_authenticated R E b : all_steps R E (set_authenticated b).
Proof. exact I. Qed.

Lemma all_steps_update R E f : all_steps R E (update f).
Proof. exact I. Qed.

Lemma all_steps_await R E what : all_steps R E (await what).
Proof. exact I. Qed.

Lemma all_steps_sleep R E ms : all_steps R E (sleep ms).
Proof. exact I. Qed.

Lemma all_steps_read_clock R E : all_steps R E read_clock.
Proof. intros w. exact I. Qed.

Lemma all_steps_this R E : all_steps R E this.
Proof. intros w. exact I. Qed.

(** what [all_steps] says of a run *)
Lemma all_steps_run {A} R E net (p : Async A) : forall w,
  all_steps R E p ->
  (forall e, fst (run net p w) = Throw e -> E e)
  /\ exists new, sent (snd (run net p w)) = (sent w ++ new)%list /\ Forall R new.
Proof.
  induction p as [a|e|req k IH|what k IH|k IH|e k IH]; intros w Hp;
    cbn [run all_steps] in *.
  - split; [discriminate|]. exists []. split; [now rewrite app_nil_r | constructor].
  - split; [intros e' He'; inversion He'; subst; exact Hp|].
    exists []. split; [now rewrite app_nil_r | constructor].
  - destruct Hp as [Hreq Hk].
    destruct (IH (net (seq w) req) (with_request req w) (Hk _)) as [He [new [Hs Hn]]].
    split; [exact He|]. exists (req :: new). split.
    + rewrite Hs. cbn [with_request sent]. now rewrite <- app_assoc.
    + constructor; assumption.
  - apply IH, Hp.
  - apply IH, Hp.
  - destruct (IH (apply_effect e w) Hp) as [He [new [Hs Hn]]].
    split; [exact He|]. exists new. split; [|exact Hn].
    rewrite Hs. now destruct (apply_effect_requests e w) as [-> _].
Qed.

Lemma body_get_request u r : body_to_sign_in (get_request u r).
Proof. left. reflexivity. Qed.

Lemma body_auth_start_request : body_to_sign_in auth_start_request.
Proof. left. reflexivity. Qed.

Lemma body_login_request loc data : body_to_sign_in (login_request loc data).
Proof. right. split; [reflexivity | left; reflexivity]. Qed.

Lemma body_accessToken_request loc data :
  body_to_sign_in (accessToken_request loc data).
Proof. right. split; [reflexivity | right; reflexivity]. Qed.

Create HintDb steps.

#[local] Hint Resolve all_steps_bind all_steps_fetch all_steps_ret all_steps_throw
  all_steps_set_authenticated all_steps_update all_steps_await all_steps_sleep
  all_steps_read_clock all_steps_this
  body_get_request body_auth_start_request body_login_request
  body_accessToken_request : steps.
#[local] Hint Extern 1 (not_a_loans_page_failure _) => exact I : steps.
#[local] Hint Extern 1 (any_error _) => exact I : steps.
#[local] Hint Extern 1 (any_request _) => exact I : steps.
#[local] Hint Extern 2 (all_steps _ _ (if ?c then _ else _)) => destruct c : steps.
#[local] Hint Extern 2 (all_steps _ _ (match ?c with _ => _ end)) => destruct c : steps.

Lemma login_finish_steps loc data r :
  all_steps body_to_sign_in not_a_loans_page_failure (login_finish loc data r).
Proof. unfold login_finish. auto 20 with steps. Qed.

Lemma login_steps u p :
  all_steps body_to_sign_in not_a_loans_page_failure (login u p).
Proof. unfold login. auto 20 using login_finish_steps with steps. Qed.

Lemma getMemberships_steps :
  all_steps body_to_sign_in not_a_loans_page_failure getMemberships.
Proof. unfold getMemberships. auto 20 with steps. Qed.

Lemma getActivities_steps a :
  all_steps body_to_sign_in not_a_loans_page_failure (getActivities a).
Proof. unfold getActivities. auto 20 with steps. Qed.

Lemma getLoans_steps :
  all_steps body_to_sign_in not_a_loans_page_failure getLoans.
Proof. unfold getLoans. auto 20 with steps. Qed.

Lemma getReservations_steps :
  all_steps body_to_sign_in not_a_loans_page_failure getReservations.
Proof. unfold getReservations. auto 20 with steps. Qed.

Lemma getLoanDetails_steps u :
  all_steps body_to_sign_in any_error (getLoanDetails u).
Proof. unfold getLoanDetails. auto 20 with steps. Qed.

Lemma getUserLists_steps :
  all_steps body_to_sign_in any_error getUserLists.
Proof.
  unfold getUserLists. apply all_steps_bind; [auto with steps | intros r].
  destruct (negb (Http.ok r)); [auto with steps|].
  destruct (Http.document r); auto with steps.
  destruct lists; auto with steps.
  apply all_steps_for_each. intros s a.
  apply all_steps_try_catch with (E' := any_error); auto 20 with steps.
Qed.

Lemma account_step_steps st a :
  all_steps body_to_sign_in not_a_loans_page_failure (account_step st a).
Proof.
  unfold account_step. destruct (_ && _)%bool; [|auto with steps].
  apply all_steps_bind; [apply getActivities_steps | intros act].
  destruct (match Http.numberOfLoans act with Some n => n >? 0 | None => false end);
    [|auto with steps].
  apply all_steps_try_catch with (E' := any_error); [|auto with steps].
  apply all_steps_bind; [apply getLoanDetails_steps | auto with steps].
Qed.

Lemma refreshAllData_steps u p :
  all_steps body_to_sign_in not_a_loans_page_failure (refreshAllData u p).
Proof.
  unfold refreshAllData.
  apply all_steps_bind; [apply login_steps | intros _].
  apply all_steps_bind; [apply getMemberships_steps | intros m].
  apply all_steps_bind; [apply getLoans_steps | intros l].
  apply all_steps_bind; [apply getReservations_steps | intros r].
  apply all_steps_bind.
  - apply all_steps_for_each. intros st region.
    apply all_steps_for_each. intros st' a. apply account_step_steps.
  - intros st. apply all_steps_bind.
    + apply all_steps_try_catch with (E' := any_error);
        [apply getUserLists_steps | auto with steps].
    + intros lists. auto with steps.
Qed.

Lemma refreshData_steps host :
  all_steps body_to_sign_in no_error (refreshData host).
Proof.
  unfold refreshData.
  apply all_steps_try_catch with (E' := any_error).
  - apply all_steps_bind; [auto with steps | intros dev].
    apply all_steps_bind.
    + eapply all_steps_weaken; [| |apply refreshAllData_steps]; auto with steps.
    + intros data. auto 20 with steps.
  - intros e _. auto 20 with steps.
Qed.

Lemma extendLoans_steps baseUrl ids :
  all_steps any_request any_error (extendLoans baseUrl ids).
Proof. unfold extendLoans. destruct ids; auto 20 with steps. Qed.

Lemma extendAllLoans_steps host maxDays :
  all_steps any_request no_error (extendAllLoans host maxDays).
Proof.
  unfold extendAllLoans.
  apply all_steps_try_catch with (E' := any_error); [|intros e _; exact I].
  apply all_steps_bind; [auto with steps | intros _].
  apply all_steps_bind; [auto with steps | intros dev].
  destruct (lastData dev) as [data|]; [|exact I].
  destruct (userDetails data) as [users|]; [|exact I].
  apply all_steps_bind.
  - apply all_steps_for_each. intros total entry. unfold extend_account.
    destruct (User.loanDetails (snd entry)); [|exact I].
    destruct (_ && _)%bool; [|exact I].
    apply all_steps_bind; [apply extendLoans_steps | intros c; exact I].
  - intros total. apply all_steps_bind; [|intros _; exact I].
    destruct (total >? 0); [|exact I].
    apply all_steps_bind; [auto with steps | intros _].
    apply all_steps_bind; [|intros _; exact I].
    eapply all_steps_weaken; [| |apply refreshData_steps]; auto with steps.
Qed.

(** X12 (where a request body goes): whatever the service answers, a
    refresh sends a request body to the two sign-in endpoints only
    (the credentials, by POST); every other request of the cycle has
    no body. *)
Theorem refresh_sends_bodies_to_sign_in_only :
  forall (host : JSDate.Host) (net : nat -> Http.Request -> Http.Result) (w : World),
  exists new,
    sent (snd (run net (refreshData host) w)) = (sent w ++ new)%list
    /\ Forall body_to_sign_in new.
Proof.
  intros host net w.
  exact (proj2 (all_steps_run _ _ net (refreshData host) w (refreshData_steps host))).
Qed.

(** X13 (the actions always answer): whatever the service answers, and
    whether or not it answers, [refreshData] and [extendAllLoans]
    return a boolean; they never throw, so the action cards
    [refresh_data] and [extend_all_loans] always resolve. *)
Theorem actions_always_answer :
  forall (host : JSDate.Host) (net : nat -> Http.Request -> Http.Result) (w : World)
         (max_days : Z),
    (exists b, fst (run net (Driver.refresh_data host) w) = Ok b)
    /\ (exists b, fst (run net (Driver.extend_all_loans host max_days) w) = Ok b).
Proof.
  intros host net w max_days. unfold Driver.refresh_data, Driver.extend_all_loans.
  split.
  - destruct (all_steps_run _ _ net (refreshData host) w (refreshData_steps host))
      as [He _].
    destruct (fst (run net (refreshData host) w)) as [b|e]; [eauto|].
    destruct (He e eq_refl).
  - destruct (all_steps_run _ _ net (extendAllLoans host max_days) w
                (extendAllLoans_steps host max_days)) as [He _].
    destruct (fst (run net (extendAllLoans host max_days) w)) as [b|e]; [eauto|].
    destruct (He e eq_refl).
Qed.

(** X14 (a failing loans page is absorbed): for an account without
    error that has an id and whose activities report at least one
    loan, when the request for its loans page is rejected or answered
    outside 2xx, [refreshAllData] goes on: the step of the account
    returns with the account stored under its id as built from the
    membership and the activities, without detail records, and nothing
    is sent after the loans page.  The step of an account throws only
    what [getActivities] throws, and what [refreshAllData] throws is
    never the failure of a loans page. *)
Theorem loans_page_failure_is_absorbed :
  forall (net : nat -> Http.Request -> Http.Result)
         (st : list (string * User.t) * list (string * string))
         (account : Http.RawAccount) (w : World),
    (forall accountId activities n w1,
        Http.hasError account = false ->
        Http.id account = Some accountId ->
        JS.truthy_str (Some accountId) = true ->
        run net (getActivities accountId) w = (Ok activities, w1) ->
        Http.numberOfLoans activities = Some n ->
        0 < n ->
        match net (seq w1) (get_request (loans_url accountId) Http.follow) with
        | Http.Rejected _ => True
        | Http.Reply r => Http.ok r = false
        end ->
        exists libraries,
          run net (account_step st account) w
          = (Ok (Obj.set accountId (user_of_account accountId account activities)
                   (fst st),
                 libraries),
             with_request (get_request (loans_url accountId) Http.follow) w1)
          /\ User.loanDetails (user_of_account accountId account activities) = None)
    /\ (forall e w1,
          run net (account_step st account) w = (Throw e, w1) ->
          run net (getActivities (JS.str_or (Http.id account) "")) w = (Throw e, w1))
    /\ (forall username password,
          match fst (run net (refreshAllData username password) w) with
          | Throw e => not_a_loans_page_failure e
          | Ok _ => True
          end).
Proof.
  intros net st account w. split; [|split].
  - intros accountId activities n w1 Herr Hid Htruthy Hact Hn Hpos Hpage.
    assert (Hs : JS.str_or (Some accountId) "" = accountId)
      by (destruct accountId; [discriminate Htruthy | reflexivity]).
    unfold account_step. rewrite Herr, Hid, Htruthy, Hs. cbn [negb andb].
    rewrite run_bind, Hact. cbv zeta. rewrite Hn.
    replace (n >? 0) with true by (symmetry; apply Z.gtb_lt; lia).
    rewrite run_try_catch, run_bind. unfold getLoanDetails.
    rewrite run_fetch_bind.
    destruct (net (seq w1) (get_request (loans_url accountId) Http.follow))
      as [r|reason].
    + rewrite Hpage. cbn [negb throw run ret fst snd]. eexists. split; reflexivity.
    + cbn [run ret fst snd]. eexists. split; reflexivity.
  - intros e w1. unfold account_step.
    destruct (negb (Http.hasError account) && JS.truthy_str (Http.id account))%bool;
      [|discriminate].
    rewrite run_bind.
    destruct (run net (getActivities (JS.str_or (Http.id account) "")) w)
      as [[activities|e'] w'];
      [|intros H; inversion H; reflexivity].
    cbv zeta.
    destruct (match Http.numberOfLoans activities with
              | Some n => n >? 0
              | None => false
              end); [|discriminate].
    rewrite run_try_catch, run_bind.
    destruct (run net (getLoanDetails _) w') as [[details|e'] w'']; discriminate.
  - intros u p.
    destruct (all_steps_run _ _ net (refreshAllData u p) w (refreshAllData_steps u p))
      as [He _].
    destruct (fst (run net (refreshAllData u p) w)) as [data|e]; [exact I|].
    exact (He e eq_refl).
Qed.

(* ================================================================== *)
(** * Facts about login and extendLoans                                *)
(* ================================================================== *)

(** X15 (the session flag): whatever the service answers, [login]
    either returns [true], and then the client is marked authenticated,
    or throws, and then the mark is as it was; it never returns
    [false]. *)
Theorem login_marks_the_session_on_success_only :
  forall (net : nat -> Http.Request -> Http.Result) (username password : string)
         (w : World),
    match run net (login username password) w with
    | (Ok b, w') => b = true /\ authenticated w' = true
    | (Throw _, w') => authenticated w' = authenticated w
    end.
Proof.
  intros net u p w. unfold login, login_finish.
  repeat first
    [ rewrite run_fetch_bind
    | rewrite run_bind
    | match goal with
      | |- context [match net ?n ?r with _ => _ end] => destruct (net n r)
      | |- context [if ?c then _ else _] => destruct c
      | |- context [match Http.location ?r with _ => _ end] =>
          destruct (Http.location r)
      end
    | progress cbn [run ret throw set_authenticated bind fst snd apply_effect
                    with_authenticated with_request authenticated] ];
    try (split; reflexivity); try reflexivity.
Qed.

(** X30 (any answer but a redirect counts as signed in): when the
    start request is answered with a status other than 302, be it an
    error status, [login] returns [true] and marks the client
    authenticated after that one request; the credentials are not
    sent. *)
Theorem login_without_redirect :
  forall (net : nat -> Http.Request -> Http.Result) (username password : string)
         (w : World) (r1 : Http.Response),
    net (seq w) auth_start_request = Http.Reply r1 ->
    Http.status r1 <> 302 ->
    run net (login username password) w
    = (Ok true, with_authenticated true (with_request auth_start_request w)).
Proof.
  intros net u p w r1 Hnet Hstatus. unfold login.
  rewrite run_fetch_bind, Hnet.
  replace (Http.status r1 =? 302) with false
    by (symmetry; apply Z.eqb_neq; exact Hstatus).
  reflexivity.
Qed.

(** X16 (what [extendLoans] counts): the number [extendLoans] returns
    is 0 or the number of identifiers it was given; once the renewal
    form has been served, it is the number of identifiers asked,
    whatever the service answers to the resubmission of the form, be
    it an error status. *)
Theorem extendLoans_counts_what_it_asked :
  forall (net : nat -> Http.Request -> Http.Result) (baseUrl : string)
         (ids : list string) (w : World),
    (forall n, fst (run net (extendLoans baseUrl ids) w) = Ok n ->
               n = 0 \/ n = Z.of_nat (List.length ids))
    /\ (forall r1 inputs r2,
          ids <> [] ->
          net (seq w) (get_request (extendUrl baseUrl ids) Http.manual)
          = Http.Reply r1 ->
          Http.ok r1 = true ->
          Http.document r1 = Http.ExtendPage (Some inputs) ->
          net (S (seq w)) (extend_post (extendUrl baseUrl ids) (form_fields inputs))
          = Http.Reply r2 ->
          fst (run net (extendLoans baseUrl ids) w) = Ok (Z.of_nat (List.length ids))).
Proof.
  intros net baseUrl ids w. split.
  - intros n. unfold extendLoans. destruct ids as [|i ids].
    + cbn. intros H. inversion H. now left.
    + rewrite run_fetch_bind.
      destruct (net (seq w) _) as [r1|reason]; [|discriminate].
      destruct (_ && _)%bool; [discriminate|].
      destruct (Http.document r1); try (cbn; intros H; inversion H; now left).
      destruct form_inputs as [inputs|]; [|cbn; intros H; inversion H; now left].
      rewrite run_fetch_bind.
      destruct (net _ _) as [r2|reason]; [|discriminate].
      cbn. intros H. inversion H. now right.
  - intros r1 inputs r2 Hne H1 Hok Hdoc H2. unfold extendLoans.
    destruct ids as [|i ids]; [congruence|].
    rewrite run_fetch_bind, H1, Hok, Hdoc. cbn [negb andb].
    rewrite run_fetch_bind. cbn [with_request seq]. rewrite H2. reflexivity.
Qed.

(* ================================================================== *)
(** * Facts about pairing                                              *)
(* ================================================================== *)

Lemma pair_login_run net s u p w :
  run net (Driver.pair_login s u p) w
  = match run net (login u p) (with_authenticated false w) with
    | (Ok b, w1) =>
        (Ok (b, {| Driver.username := u; Driver.password := p;
                   Driver.loginSuccess := (Driver.loginSuccess s || b)%bool |}), w1)
    | (Throw _, w1) =>
        (Ok (false, {| Driver.username := u; Driver.password := p;
                       Driver.loginSuccess := Driver.loginSuccess s |}), w1)
    end.
Proof.
  unfold Driver.pair_login. rewrite run_try_catch.
  cbn [set_authenticated bind run apply_effect].
  rewrite run_bind.
  destruct (run net (login u p) (with_authenticated false w)) as [[b|e] w1].
  - cbn [run ret]. destruct b.
    + now rewrite orb_true_r.
    + now rewrite orb_false_r.
  - cbn [run ret]. reflexivity.
Qed.

Lemma pair_logins_run net attempts : forall answers0 s0 w,
  exists answers s w',
    run net
      (for_each
         (fun (st : list bool * Driver.PairSession) (attempt : string * string) =>
            r <- Driver.pair_login (snd st) (fst attempt) (snd attempt) ;;
            ret ((fst st ++ [fst r])%list, snd r))
         attempts (answers0, s0)) w
    = (Ok ((answers0 ++ answers)%list, s), w')
    /\ List.length answers = List.length attempts
    /\ Driver.loginSuccess s
       = (Driver.loginSuccess s0 || existsb (fun b => b) answers)%bool
    /\ (attempts = [] -> s = s0)
    /\ (attempts <> [] ->
        Driver.username s = fst (last attempts ("", ""))
        /\ Driver.password s = snd (last attempts ("", ""))).
Proof.
  induction attempts as [|[u p] attempts IH]; intros answers0 s0 w.
  - exists [], s0, w. cbn [for_each run ret existsb List.length].
    rewrite app_nil_r, orb_false_r. repeat split; congruence.
  - rewrite run_for_each_cons, run_bind, pair_login_run. cbn [fst snd].
    destruct (run net (login u p) (with_authenticated false w)) as [[b|e] w1];
      cbn [run ret fst snd].
    + destruct (IH (answers0 ++ [b])%list
                  {| Driver.username := u; Driver.password := p;
                     Driver.loginSuccess := (Driver.loginSuccess s0 || b)%bool |} w1)
        as [answers [s [w' [Hrun [Hlen [Hok [Hnil Hlast]]]]]]].
      exists (b :: answers), s, w'. rewrite Hrun, <- app_assoc.
      split; [reflexivity|]. split; [cbn; lia|]. split.
      * rewrite Hok. cbn [Driver.loginSuccess existsb]. now rewrite orb_assoc.
      * split; [discriminate|]. intros _.
        destruct attempts as [|a attempts].
        -- rewrite (Hnil eq_refl). cbn. split; reflexivity.
        -- apply Hlast. discriminate.
    + destruct (IH (answers0 ++ [false])%list
                  {| Driver.username := u; Driver.password := p;
                     Driver.loginSuccess := Driver.loginSuccess s0 |} w1)
        as [answers [s [w' [Hrun [Hlen [Hok [Hnil Hlast]]]]]]].
      exists (false :: answers), s, w'. rewrite Hrun, <- app_assoc.
      split; [reflexivity|]. split; [cbn; lia|]. split.
      * rewrite Hok. reflexivity.
      * split; [discriminate|]. intros _.
        destruct attempts as [|a attempts].
        -- rewrite (Hnil eq_refl). cbn. split; reflexivity.
        -- apply Hlast. discriminate.
Qed.

(** X17 (what pairing offers): in a pairing session with any number of
    login attempts, each attempt is answered [true] or [false] (the
    handler never throws); [list_devices] offers no device exactly
    when every attempt was answered [false]; and the one device it
    offers otherwise is set up with the credentials of the last
    attempt, whether or not that was the attempt that succeeded, a
    polling interval of 30 and a warning threshold of 7. *)
Theorem pairing_offers_the_last_credentials :
  forall (net : nat -> Http.Request -> Http.Result)
         (attempts : list (string * string)) (w : World),
  exists answers s w',
    run net (Driver.pair_logins attempts Driver.pair_start) w = (Ok (answers, s), w')
    /\ List.length answers = List.length attempts
    /\ (Driver.list_devices s = [] <-> Forall (fun b => b = false) answers)
    /\ forall d, In d (Driver.list_devices s) ->
         Driver.list_devices s = [d]
         /\ Driver.data_id d = fst (last attempts ("", ""))
         /\ Driver.settings_username (Driver.settings d) = fst (last attempts ("", ""))
         /\ Driver.settings_password (Driver.settings d) = snd (last attempts ("", ""))
         /\ Driver.settings_poll_interval (Driver.settings d) = 30
         /\ Driver.settings_warning_threshold (Driver.settings d) = 7.
Proof.
  intros net attempts w. unfold Driver.pair_logins.
  destruct (pair_logins_run net attempts [] Driver.pair_start w)
    as [answers [s [w' [Hrun [Hlen [Hok [Hnil Hlast]]]]]]].
  exists answers, s, w'. cbn [app] in Hrun.
  split; [exact Hrun|]. split; [exact Hlen|].
  cbn [Driver.pair_start Driver.loginSuccess orb] in Hok.
  assert (Hall : existsb (fun b => b) answers = false
                 <-> Forall (fun b => b = false) answers).
  { clear. induction answers as [|b answers IH]; cbn [existsb].
    - split; [constructor | reflexivity].
    - destruct b; cbn [orb].
      + split; [discriminate | intros H; inversion H; discriminate].
      + rewrite IH. split; [now constructor | intros H; now inversion H]. }
  unfold Driver.list_devices. rewrite Hok. split.
  - rewrite <- Hall. destruct (existsb (fun b => b) answers); cbn [negb].
    + split; discriminate.
    + split; reflexivity.
  - intros d. destruct (existsb (fun b => b) answers) eqn:E; cbn [negb]; [|intros []].
    intros [<-|[]]. cbn.
    destruct attempts as [|a attempts].
    + destruct answers; [discriminate | cbn in Hlen; lia].
    + destruct Hlast as [Hu Hp]; [discriminate|]. rewrite Hu, Hp.
      repeat split.
Qed.

(** a session in which the second attempt fails: the device offered
    carries the password that was refused *)
Example pairing_after_a_refused_attempt :
  let net := Scenario.script (Fixture.login_accepted ++ Fixture.login_refused) in
  let '(result, _) :=
    run net
      (Driver.pair_logins [("an@example.org", "secret"); ("an@example.org", "typo")]
         Driver.pair_start)
      (Scenario.world0 Scenario.fresh_device 0) in
  match result with
  | Ok (answers, s) =>
      answers = [true; false]
      /\ map (fun d => Driver.settings_password (Driver.settings d))
             (Driver.list_devices s) = ["typo"]
  | Throw _ => False
  end.
Proof. vm_compute. split; reflexivity. Qed.

(* ================================================================== *)
(** * Facts about the user device's extendLoans                        *)
(* ================================================================== *)

Lemma user_extendLoans_steps host store accountDevice maxDays :
  all_steps any_request no_error
    (LibraryUserDevice.extendLoans host store accountDevice maxDays).
Proof.
  unfold LibraryUserDevice.extendLoans.
  apply all_steps_try_catch with (E' := any_error); [|intros e _; exact I].
  apply all_steps_bind; [auto with steps | intros _].
  apply all_steps_bind; [auto with steps | intros _].
  destruct (negb _); [exact I|].
  destruct (Nat.eqb _ 0); [exact I|].
  destruct (negb accountDevice); [exact I|].
  apply all_steps_bind; [apply extendLoans_steps | intros count].
  apply all_steps_bind; [|intros _; exact I].
  destruct (count >? 0); [|exact I].
  apply all_steps_bind; [auto with steps | intros _].
  apply all_steps_bind; [|intros _; exact I].
  eapply all_steps_weaken; [| |apply refreshData_steps]; auto with steps.
Qed.

(** X18 (what the user device asks to extend): [extendLoans] of the
    user device always returns a boolean.  Without a stored loans
    URL, without a stored loan that is extendable, has a renewal
    identifier and is due within [maxDays], or without its parent
    account device, it returns [false], sends no request and changes
    nothing.  Otherwise the first request it sends asks the renewal
    form for exactly those loans, at the stored loans URL without its
    last segment. *)
Theorem user_extendLoans_requests :
  forall (host : JSDate.Host) (net : nat -> Http.Request -> Http.Result)
         (store : LibraryUserDevice.Store) (accountDevice : bool) (maxDays : Z)
         (w : World),
    let ids :=
      loansToExtend maxDays
        (match LibraryUserDevice.userLoanDetails store with
         | Some d => d
         | None => []
         end) in
    let call := LibraryUserDevice.extendLoans host store accountDevice maxDays in
    (exists b, fst (run net call w) = Ok b)
    /\ (JS.truthy_str (LibraryUserDevice.loansUrl store) = false
        \/ ids = [] \/ accountDevice = false ->
        run net call w = (Ok false, w))
    /\ (JS.truthy_str (LibraryUserDevice.loansUrl store) = true ->
        ids <> [] -> accountDevice = true ->
        exists rest,
          sent (snd (run net call w))
          = (sent w
             ++ get_request
                  (extendUrl
                     (strip_suffix "/loans"
                        (JS.str_or (LibraryUserDevice.loansUrl store) ""))
                     ids)
                  Http.manual
             :: rest)%list).
Proof.
  intros host net store accountDevice maxDays w ids call. split; [|split].
  - destruct (all_steps_run _ _ net call w
                (user_extendLoans_steps host store accountDevice maxDays)) as [He _].
    destruct (fst (run net call w)) as [b|e]; [eauto|].
    destruct (He e eq_refl).
  - intros H. unfold call, LibraryUserDevice.extendLoans. rewrite run_try_catch.
    cbn [await bind run]. fold ids.
    destruct (JS.truthy_str (LibraryUserDevice.loansUrl store)); cbn [negb];
      [|reflexivity].
    destruct ids as [|i ids'] eqn:Hids; [reflexivity|].
    destruct accountDevice; [|reflexivity].
    destruct H as [H|[H|H]]; discriminate.
  - intros Hurl Hids Hparent. unfold call, LibraryUserDevice.extendLoans.
    rewrite run_try_catch. cbn [await bind run]. fold ids.
    rewrite Hurl, Hparent. cbn [negb].
    destruct ids as [|i ids'] eqn:Hids'; [congruence|].
    cbn [List.length Nat.eqb].
    set (baseUrl := strip_suffix "/loans" _).
    unfold extendLoans at 1. cbn [fetch bind run].
    match goal with
    | |- context [run net ?p (with_request ?req w)] =>
        destruct (extends_run net p (with_request req w)) as [rest Hrest];
        destruct (run net p (with_request req w)) as [[b|e] w1]
    end; cbn [snd run ret] in *; exists rest; rewrite Hrest;
      cbn [with_request sent]; now rewrite <- app_assoc.
Qed.

(* ================================================================== *)
(** * Facts about the widget                                           *)
(* ================================================================== *)

Lemma rows_length (users : list (string * User.t)) :
  List.length (flat_map WidgetAPI.user_rows users)
  = List.length (detail_entries users).
Proof.
  unfold detail_entries.
  induction users as [|u users IH]; cbn [flat_map]; [reflexivity|].
  rewrite !length_app, IH. f_equal. unfold WidgetAPI.user_rows.
  destruct (User.loanDetails (snd u)); [|reflexivity].
  now rewrite !length_map.
Qed.

(** X19 (the widget's list): when [getLoans] of the widget answers
    with a list, the device id names a device of the driver (by the
    platform's id or by the id of its data) that has a stored
    snapshot, and the list has one row for each detail record of each
    account of that snapshot, and no other row, ordered by days
    remaining, fewest first. *)
Theorem widget_lists_detail_records_most_urgent_first :
  forall (driver : string + list WidgetAPI.HomeyDevice) (deviceId : option string)
         (loans : list WidgetAPI.Loan) (updated : option Z),
    WidgetAPI.getLoans driver deviceId = WidgetAPI.Listing loans updated ->
    exists devices device storedData,
      driver = inr devices
      /\ JS.truthy_str deviceId = true
      /\ find (WidgetAPI.is_device (JS.str_or deviceId "")) devices = Some device
      /\ WidgetAPI.stored_lastData device = Some storedData
      /\ updated = Some (lastUpdated storedData)
      /\ ascending WidgetAPI.daysRemaining loans
      /\ Permutation loans (WidgetAPI.rows storedData)
      /\ List.length loans
         = List.length
             (detail_entries
                (match userDetails storedData with Some u => u | None => [] end)).
Proof.
  intros driver deviceId loans updated. unfold WidgetAPI.getLoans.
  destruct (JS.truthy_str deviceId); cbn [negb]; [|discriminate].
  destruct driver as [message|devices]; [discriminate|].
  destruct (find _ devices) as [device|] eqn:Hfind; [|discriminate].
  destruct (WidgetAPI.stored_lastData device) as [storedData|] eqn:Hdata;
    [|discriminate].
  intros H. inversion H; subst. exists devices, device, storedData.
  repeat split; auto.
  - apply sort_by_ascending.
  - apply sort_by_perm.
  - rewrite sort_by_length. apply rows_length.
Qed.

(* ================================================================== *)
(** * More facts about _processData                                    *)
(* ================================================================== *)

Lemma aggregate_min_bounds h now T data : min_bounds (aggregate h now T data).
Proof.
  unfold aggregate.
  set (t1 := fold_left _ _ totals0).
  assert (H1 : min_bounds t1).
  { unfold t1. generalize (match loans data with Some l => l | None => [] end).
    intros l. assert (H0 : min_bounds totals0) by (intros kv []).
    revert H0. generalize totals0.
    induction l as [|x l IH]; intros acc Hb; cbn [fold_left]; auto.
    apply IH, overview_step_bounds, Hb. }
  clearbody t1.
  generalize (match userDetails data with Some u => u | None => [] end).
  intros us. revert t1 H1.
  induction us as [|u us IH]; intros t1 H1; cbn [fold_left]; [exact H1|].
  apply IH, user_step_bounds, H1.
Qed.

(** X20 (the condition cards see every loan): after a snapshot has
    been processed, if a loan of the merged snapshot is overdue the
    condition [has_overdue_loans] holds, and if a loan of the merged
    snapshot is due within [days] the condition [has_expiring_loans]
    holds for [days]; after a snapshot without loans neither holds. *)
Theorem conditions_see_every_loan :
  forall (h : JSDate.Host) (now : Z) (data : Data) (triggerFlows : bool)
         (dev : Device),
    let dev' := _processData h now data triggerFlows dev in
    (forall kv, In kv (previousLoans dev') ->
       (Current.daysLeft (snd kv) < 0 -> Driver.has_overdue_loans dev' = true)
       /\ (forall args_days,
             Current.daysLeft (snd kv) <= args_days ->
             Driver.has_expiring_loans dev' args_days = true))
    /\ (match loans data with Some l => l | None => [] end = [] ->
        Driver.has_overdue_loans dev' = false
        /\ forall args_days, Driver.has_expiring_loans dev' args_days = false).
Proof.
  intros h now data triggerFlows dev dev'. split.
  - intros kv Hin. unfold dev', _processData in *.
    cbn [previousLoans days_remaining] in *.
    unfold Driver.has_overdue_loans, Driver.has_expiring_loans.
    cbn [days_remaining].
    destruct (aggregate_min_bounds h now (JS.num_or (warning_threshold dev) 7) data
                kv Hin) as [m [Hm Hle]].
    rewrite Hm. split.
    + intros Hneg. apply Z.ltb_lt. lia.
    + intros a Ha. apply Z.leb_le. lia.
  - intros Hl. unfold dev', _processData.
    unfold Driver.has_overdue_loans, Driver.has_expiring_loans.
    cbn [days_remaining].
    destruct (aggregate_no_loans h now (JS.num_or (warning_threshold dev) 7) data Hl)
      as [Hmin _].
    rewrite Hmin. split; reflexivity.
Qed.

Lemma set_keys k v m :
  keys (LoanMapOps.set k v m)
  = if LoanMapOps.has k m then keys m else (keys m ++ [k])%list.
Proof.
  unfold keys, LoanMapOps.has.
  induction m as [|[k' v'] m IH]; cbn [LoanMapOps.set LoanMapOps.get map fst];
    [reflexivity|].
  destruct (String.eqb k k'); cbn [map fst]; [reflexivity|].
  rewrite IH. destruct (LoanMapOps.get k m); reflexivity.
Qed.

Lemma get_In_keys k m :
  LoanMapOps.get k m <> None <-> In k (keys m).
Proof.
  unfold keys. induction m as [|[k' v'] m IH]; cbn [LoanMapOps.get map fst In].
  - split; [congruence | intros []].
  - destruct (String.eqb_spec k k') as [->|Hne].
    + split; [now left | discriminate].
    + rewrite IH. split; [now right | intros [H|H]; congruence].
Qed.

Lemma set_NoDup k v m : NoDup (keys m) -> NoDup (keys (LoanMapOps.set k v m)).
Proof.
  intros Hnd. rewrite set_keys. unfold LoanMapOps.has.
  destruct (LoanMapOps.get k m) eqn:E; [exact Hnd|].
  apply NoDup_app; [exact Hnd | repeat constructor; intros [] |].
  intros x Hx [<-|[]]. apply get_In_keys in Hx. congruence.
Qed.

Lemma set_length k v m :
  (List.length (LoanMapOps.set k v m) <= S (List.length m))%nat.
Proof.
  induction m as [|[k' v'] m IH]; cbn [LoanMapOps.set List.length]; [lia|].
  destruct (String.eqb k k'); cbn [List.length]; lia.
Qed.

Lemma set_length_present k v m e :
  LoanMapOps.get k m = Some e ->
  List.length (LoanMapOps.set k v m) = List.length m.
Proof.
  induction m as [|[k' v'] m IH]; cbn [LoanMapOps.set LoanMapOps.get List.length];
    [discriminate|].
  destruct (String.eqb k k'); cbn [List.length]; [reflexivity|].
  intros H. now rewrite IH.
Qed.

Lemma merge_map_NoDup m un d : NoDup (keys m) -> NoDup (keys (merge_map m un d)).
Proof.
  intros Hnd. unfold merge_map.
  destruct (Detail.daysRemaining d); [|exact Hnd].
  destruct (LoanMapOps.get _ m); [|exact Hnd].
  apply set_NoDup, Hnd.
Qed.

Lemma merge_map_length m un d :
  List.length (merge_map m un d) = List.length m.
Proof.
  unfold merge_map.
  destruct (Detail.daysRemaining d); [|reflexivity].
  destruct (LoanMapOps.get _ m) eqn:E; [|reflexivity].
  eapply set_length_present, E.
Qed.

(** what the two loops keep true of the map of loans *)
Lemma aggregate_map h now T data :
  NoDup (keys (currentLoans (aggregate h now T data)))
  /\ (List.length (currentLoans (aggregate h now T data))
      <= List.length (match loans data with Some l => l | None => [] end))%nat.
Proof.
  unfold aggregate. cbn [currentLoans].
  rewrite currentLoans_fold_user.
  generalize (detail_entries (match userDetails data with Some u => u | None => [] end)).
  intros entries.
  assert (H1 : forall l acc,
             NoDup (keys (currentLoans acc)) ->
             NoDup (keys (currentLoans (fold_left (overview_step h now T) l acc)))
             /\ (List.length (currentLoans (fold_left (overview_step h now T) l acc))
                 <= List.length (currentLoans acc) + List.length l)%nat).
  { induction l as [|x l IH]; intros acc Hnd; cbn [fold_left].
    - split; [exact Hnd | lia].
    - destruct (IH (overview_step h now T acc x)) as [Hn Hl].
      + cbn [overview_step currentLoans]. apply set_NoDup, Hnd.
      + split; [exact Hn|]. cbn [overview_step currentLoans List.length] in *.
        pose proof (set_length (loanKey x)
                      (coarse_record (_calculateDaysRemaining h now (Overview.dueDate x)) x)
                      (currentLoans acc)). lia. }
  destruct (H1 (match loans data with Some l => l | None => [] end) totals0)
    as [Hnd Hlen]; [constructor|].
  cbn [totals0 currentLoans List.length] in Hlen.
  revert Hnd Hlen.
  generalize (currentLoans
                (fold_left (overview_step h now T)
                   (match loans data with Some l => l | None => [] end) totals0)).
  induction entries as [|e entries IH]; intros m Hnd Hlen; cbn [fold_left].
  - split; [exact Hnd | lia].
  - apply IH; [apply merge_map_NoDup, Hnd | rewrite merge_map_length; exact Hlen].
Qed.

Lemma get_of_NoDup k v m :
  NoDup (keys m) -> In (k, v) m -> LoanMapOps.get k m = Some v.
Proof.
  unfold keys. induction m as [|[k' v'] m IH]; intros Hnd Hin;
    cbn [LoanMapOps.get map fst] in *; [destruct Hin|].
  inversion Hnd as [|? ? Hnotin Hnd']; subst.
  destruct Hin as [Heq|Hin].
  - inversion Heq; subst. now rewrite String.eqb_refl.
  - destruct (String.eqb_spec k k') as [->|Hne].
    + exfalso. apply Hnotin. apply in_map_iff. exists (k', v). split; auto.
    + apply IH; assumption.
Qed.

Lemma flat_map_nil {A B} (f : A -> list B) (l : list A) :
  (forall x, In x l -> f x = []) -> flat_map f l = [].
Proof.
  induction l as [|x l IH]; intros H; cbn [flat_map]; [reflexivity|].
  rewrite (H x) by now left. apply IH. intros y Hy. apply H. now right.
Qed.

Lemma no_triggers_against_itself T m :
  NoDup (keys m) -> flat_map (loan_triggers T m) m = [].
Proof.
  intros Hnd. apply flat_map_nil. intros [k v] Hin.
  unfold loan_triggers. cbn [fst snd].
  rewrite (get_of_NoDup k v m Hnd Hin).
  destruct (Z.leb_spec (Current.daysLeft v) T) as [Hle|Hgt].
  - replace (Current.daysLeft v >? T) with false
      by (symmetry; rewrite Z.gtb_ltb; apply Z.ltb_ge; lia).
    cbn [andb app].
    destruct (Z.ltb_spec (Current.daysLeft v) 0) as [Hneg|Hpos].
    + replace (Current.daysLeft v >=? 0) with false
        by (symmetry; rewrite Z.geb_leb; apply Z.leb_gt; lia).
      reflexivity.
    + rewrite andb_false_r. reflexivity.
  - rewrite andb_false_r. cbn [app].
    destruct (Z.ltb_spec (Current.daysLeft v) 0) as [Hneg|Hpos].
    + replace (Current.daysLeft v >=? 0) with false
        by (symmetry; rewrite Z.geb_leb; apply Z.leb_gt; lia).
      reflexivity.
    + rewrite andb_false_r. reflexivity.
Qed.

Lemma min_differs_same a : min_differs a a = false.
Proof. destruct a as [x|]; cbn; [now rewrite Z.eqb_refl | reflexivity]. Qed.

Lemma aggregate_time_of_day h now1 now2 T data :
  JSDate.Day (JSDate.LocalTime (JSDate.tz h) now1)
  = JSDate.Day (JSDate.LocalTime (JSDate.tz h) now2) ->
  aggregate h now1 T data = aggregate h now2 T data.
Proof.
  intros Hday. unfold aggregate.
  assert (Hstep : overview_step h now1 T = overview_step h now2 T).
  { unfold overview_step.
    assert (Hc : _calculateDaysRemaining h now1 = _calculateDaysRemaining h now2).
    { unfold _calculateDaysRemaining, JSDate.setHours0. now rewrite Hday. }
    now rewrite Hc. }
  now rewrite Hstep.
Qed.

(** X21 (an unchanged snapshot triggers nothing): when a snapshot has
    been processed, with or without triggers, processing the same
    snapshot again on the same local day triggers no Flow card at
    all. *)
Theorem unchanged_snapshot_triggers_nothing :
  forall (h : JSDate.Host) (now1 now2 : Z) (data : Data) (triggerFlows : bool)
         (dev : Device),
    JSDate.Day (JSDate.LocalTime (JSDate.tz h) now1)
    = JSDate.Day (JSDate.LocalTime (JSDate.tz h) now2) ->
    triggered (_processData h now2 data true (_processData h now1 data triggerFlows dev))
    = triggered (_processData h now1 data triggerFlows dev).
Proof.
  intros h now1 now2 data triggerFlows dev Hday.
  unfold _processData at 1.
  cbn [triggered warning_threshold previousDaysRemaining previousLoans _processData].
  rewrite <- (aggregate_time_of_day h now1 now2 _ data Hday).
  set (t := aggregate h now1 (JS.num_or (warning_threshold dev) 7) data).
  unfold _checkAndTriggerFlows.
  rewrite min_differs_same, no_triggers_against_itself
    by (apply aggregate_map).
  destruct (minDaysRemaining t); cbn [app]; now rewrite app_nil_r.
Qed.

Lemma detail_step_totals un acc e :
  totalLoans (detail_step un acc e) = totalLoans acc
  /\ totalReservations (detail_step un acc e) = totalReservations acc
  /\ someNotExtendable (detail_step un acc e)
     = (someNotExtendable acc || negb (Detail.isExtendable (snd e)))%bool.
Proof.
  unfold detail_step.
  destruct (Detail.isExtendable (snd e)); cbn [negb];
    destruct (Detail.daysRemaining (snd e));
    cbn [with_someNotExtendable currentLoans];
    try destruct (LoanMapOps.get _ _);
    cbn [totalLoans totalReservations someNotExtendable with_someNotExtendable];
    rewrite ?orb_false_r, ?orb_true_r; auto.
Qed.

Lemma fold_detail_totals un details : forall acc,
  totalLoans (fold_left (detail_step un) details acc) = totalLoans acc
  /\ totalReservations (fold_left (detail_step un) details acc) = totalReservations acc
  /\ someNotExtendable (fold_left (detail_step un) details acc)
     = (someNotExtendable acc
        || existsb (fun kv => negb (Detail.isExtendable (snd kv))) details)%bool.
Proof.
  induction details as [|d ds IH]; intros acc; cbn [fold_left existsb].
  - rewrite orb_false_r. auto.
  - destruct (IH (detail_step un acc d)) as [H1 [H2 H3]].
    destruct (detail_step_totals un acc d) as [G1 [G2 G3]].
    rewrite H1, H2, H3, G1, G2, G3, orb_assoc. auto.
Qed.

Lemma existsb_of_map {A B} (f : B -> bool) (g : A -> B) (l : list A) :
  existsb f (map g l) = existsb (fun x => f (g x)) l.
Proof. induction l as [|x l IH]; cbn [map existsb]; congruence. Qed.

(** the reservations an account counts *)
Lemma user_step_totals acc entry :
  totalLoans (user_step acc entry) = totalLoans acc
  /\ totalReservations (user_step acc entry)
     = totalReservations acc
       + match User.reservations (snd entry) with
         | Some r => User.count r
         | None => 0
         end
  /\ someNotExtendable (user_step acc entry)
     = (someNotExtendable acc
        || existsb (fun e => negb (Detail.isExtendable (snd e)))
             (detail_entries [entry]))%bool.
Proof.
  unfold user_step, detail_entries. cbn [flat_map].
  destruct (User.loanDetails (snd entry)) as [details|].
  - match goal with
    | |- context [fold_left _ details ?a] =>
        destruct (fold_detail_totals (user_userName (snd entry)) details a)
          as [H1 [H2 H3]]
    end.
    rewrite H1, H2, H3. cbn [totalLoans totalReservations someNotExtendable].
    rewrite app_nil_r, existsb_of_map. cbn [snd]. auto.
  - cbn [totalLoans totalReservations someNotExtendable existsb app].
    rewrite orb_false_r. auto.
Qed.

Lemma detail_entries_cons u users :
  detail_entries (u :: users) = (detail_entries [u] ++ detail_entries users)%list.
Proof. unfold detail_entries. cbn [flat_map]. now rewrite app_nil_r. Qed.

Lemma fold_user_totals users : forall acc,
  totalLoans (fold_left user_step users acc) = totalLoans acc
  /\ totalReservations (fold_left user_step users acc)
     = totalReservations acc
       + fold_right Z.add 0
           (map (fun entry => match User.reservations (snd entry) with
                              | Some r => User.count r
                              | None => 0
                              end) users)
  /\ someNotExtendable (fold_left user_step users acc)
     = (someNotExtendable acc
        || existsb (fun e => negb (Detail.isExtendable (snd e)))
             (detail_entries users))%bool.
Proof.
  induction users as [|u users IH]; intros acc; cbn [fold_left map fold_right].
  - cbn. rewrite orb_false_r. repeat split; lia.
  - destruct (IH (user_step acc u)) as [H1 [H2 H3]].
    destruct (user_step_totals acc u) as [G1 [G2 G3]].
    rewrite (detail_entries_cons u users), existsb_app.
    rewrite H1, H2, H3, G1, G2, G3, orb_assoc.
    split; [reflexivity|]. split; [lia | reflexivity].
Qed.

Lemma fold_overview_totals h now T l : forall acc,
  totalLoans (fold_left (overview_step h now T) l acc)
  = totalLoans acc + Z.of_nat (List.length l)
  /\ totalReservations (fold_left (overview_step h now T) l acc)
     = totalReservations acc
  /\ someNotExtendable (fold_left (overview_step h now T) l acc)
     = (someNotExtendable acc
        || existsb (fun loan => match Overview.isRenewable loan with
                                | Some false => true
                                | _ => false
                                end) l)%bool.
Proof.
  induction l as [|x l IH]; intros acc; cbn [fold_left existsb List.length].
  - rewrite orb_false_r. repeat split; lia.
  - destruct (IH (overview_step h now T acc x)) as [H1 [H2 H3]].
    rewrite H1, H2, H3. cbn [overview_step totalLoans totalReservations someNotExtendable].
    repeat split; try lia.
    destruct (Overview.isRenewable x) as [[|]|]; cbn [orb];
      rewrite ?orb_true_r; auto.
Qed.

Lemma count_expiring_bounds T m :
  0 <= count_expiring T m <= Z.of_nat (List.length m).
Proof.
  unfold count_expiring, LoanMapOps.values.
  pose proof (filter_length_le (fun l => Current.daysLeft l <=? T) (map snd m)) as H.
  rewrite length_map in H. lia.
Qed.

(** X22 (the counters): after a snapshot has been processed,
    [loan_count] is the number of entries of the overview,
    [reservation_count] is the sum of the reservation counts of the
    accounts, and [loans_expiring_soon] lies between 0 and
    [loan_count]. *)
Theorem counters_after_processData :
  forall (h : JSDate.Host) (now : Z) (data : Data) (triggerFlows : bool)
         (dev : Device),
    let dev' := _processData h now data triggerFlows dev in
    loan_count dev'
    = Z.of_nat (List.length (match loans data with Some l => l | None => [] end))
    /\ reservation_count dev'
       = fold_right Z.add 0
           (map (fun entry => match User.reservations (snd entry) with
                              | Some r => User.count r
                              | None => 0
                              end)
                (match userDetails data with Some u => u | None => [] end))
    /\ 0 <= loans_expiring_soon dev' <= loan_count dev'.
Proof.
  intros h now data triggerFlows dev dev'. unfold dev', _processData.
  cbn [loan_count reservation_count loans_expiring_soon].
  set (T := JS.num_or (warning_threshold dev) 7).
  pose proof (aggregate_map h now T data) as [_ Hlen].
  pose proof (count_expiring_bounds T (currentLoans (aggregate h now T data))) as Hc.
  unfold aggregate in *. cbn [totalLoans totalReservations expiringSoon currentLoans] in *.
  set (l := match loans data with Some l => l | None => [] end) in *.
  set (us := match userDetails data with Some u => u | None => [] end) in *.
  destruct (fold_user_totals us (fold_left (overview_step h now T) l totals0))
    as [H1 [H2 _]].
  destruct (fold_overview_totals h now T l totals0) as [G1 [G2 _]].
  rewrite H1, H2, G1, G2. cbn [totals0 totalLoans totalReservations].
  repeat split; lia.
Qed.

(** X23 (when everything can be extended): after a snapshot has been
    processed the condition [can_extend_all] holds exactly when no
    entry of the overview is marked not renewable and every detail
    record of every account is extendable, be it matched by an
    overview entry or not. *)
Theorem can_extend_all_iff :
  forall (h : JSDate.Host) (now : Z) (data : Data) (triggerFlows : bool)
         (dev : Device),
    Driver.can_extend_all (_processData h now data triggerFlows dev) = true
    <-> (forall loan,
            In loan (match loans data with Some l => l | None => [] end) ->
            Overview.isRenewable loan <> Some false)
        /\ (forall e,
              In e (detail_entries
                      (match userDetails data with Some u => u | None => [] end)) ->
              Detail.isExtendable (snd e) = true).
Proof.
  intros h now data triggerFlows dev.
  unfold Driver.can_extend_all, _processData. cbn [some_not_extendable].
  set (T := JS.num_or (warning_threshold dev) 7).
  unfold aggregate. cbn [someNotExtendable].
  set (l := match loans data with Some l => l | None => [] end).
  set (us := match userDetails data with Some u => u | None => [] end).
  destruct (fold_user_totals us (fold_left (overview_step h now T) l totals0))
    as [_ [_ H3]].
  destruct (fold_overview_totals h now T l totals0) as [_ [_ G3]].
  rewrite H3, G3. cbn [totals0 someNotExtendable orb].
  rewrite negb_true_iff, orb_false_iff. split.
  - intros [Ho Hd]. split.
    + intros loan Hin Hr.
      assert (Hex : existsb (fun loan => match Overview.isRenewable loan with
                                         | Some false => true
                                         | _ => false
                                         end) l = true).
      { apply existsb_exists. exists loan. split; [exact Hin | now rewrite Hr]. }
      congruence.
    + intros e Hin. destruct (Detail.isExtendable (snd e)) eqn:E; [reflexivity|].
      assert (Hex : existsb (fun e => negb (Detail.isExtendable (snd e)))
                      (detail_entries us) = true).
      { apply existsb_exists. exists e. split; [exact Hin | now rewrite E]. }
      congruence.
  - intros [Ho Hd]. split.
    + destruct (existsb _ l) eqn:E; [|reflexivity].
      apply existsb_exists in E. destruct E as [loan [Hin Hr]].
      specialize (Ho loan Hin).
      destruct (Overview.isRenewable loan) as [[|]|]; congruence.
    + destruct (existsb _ (detail_entries us)) eqn:E; [|reflexivity].
      apply existsb_exists in E. destruct E as [e [Hin Hr]].
      rewrite (Hd e Hin) in Hr. discriminate.
Qed.

(* ================================================================== *)
(** * More facts about the async methods                               *)
(* ================================================================== *)

(** X24 (what a successful refresh leaves): when [refreshData] returns
    [true], [refreshAllData] has returned a snapshot; the device is
    then the device of before with that snapshot stored, processed
    with triggers at the reading of the clock, and marked available,
    and no request was sent beyond those of [refreshAllData]. *)
Theorem refresh_answers_true_only_on_success :
  forall (host : JSDate.Host) (net : nat -> Http.Request -> Http.Result) (w : World),
    fst (run net (refreshData host) w) = Ok true ->
    exists data w1,
      run net (refreshAllData (username (device w)) (password (device w))) w
      = (Ok data, w1)
      /\ device (snd (run net (refreshData host) w))
         = with_unavailable None
             (_processData host (clock w1) data true (with_lastData data (device w)))
      /\ sent (snd (run net (refreshData host) w)) = sent w1.
Proof.
  intros host net w.
  pose proof (api_only_device net _ w
                (api_only_refreshAllData (username (device w)) (password (device w))))
    as Hdev.
  unfold refreshData. rewrite run_try_catch. cbn [this bind run]. rewrite run_bind.
  destruct (run net (refreshAllData (username (device w)) (password (device w))) w)
    as [[data|e] w1] eqn:Hrun; cbn [snd] in Hdev.
  - intros _. exists data, w1. split; [reflexivity|].
    cbn. rewrite Hdev. split; reflexivity.
  - cbn. discriminate.
Qed.

Lemma extend_loop_nothing net maxDays users : forall t0 w,
  (forall entry, In entry users -> has_batch maxDays entry = false) ->
  run net (for_each (extend_account maxDays) users t0) w = (Ok t0, w).
Proof.
  induction users as [|u users IH]; intros t0 w Hno; [reflexivity|].
  rewrite run_for_each_cons.
  assert (Hu : run net (extend_account maxDays t0 u) w = (Ok t0, w)).
  { specialize (Hno u (or_introl eq_refl)).
    unfold has_batch, account_batch in Hno. unfold extend_account.
    destruct (User.loanDetails (snd u)) as [details|]; [|reflexivity].
    apply negb_false_iff in Hno. rewrite Hno. reflexivity. }
  rewrite Hu. apply IH. intros entry Hin. apply Hno. now right.
Qed.

(** X25 (nothing to extend): when the device has no stored snapshot,
    or no account of the stored snapshot has a loan that is
    extendable, has a renewal identifier and is due within [maxDays],
    [extendAllLoans] returns [false], sends no request, does not
    refresh and leaves the device as it is. *)
Theorem extendAllLoans_nothing_to_extend :
  forall (host : JSDate.Host) (net : nat -> Http.Request -> Http.Result)
         (maxDays : Z) (w : World),
    (forall data users entry,
        lastData (device w) = Some data -> userDetails data = Some users ->
        In entry users -> has_batch maxDays entry = false) ->
    run net (extendAllLoans host maxDays) w = (Ok false, w).
Proof.
  intros host net maxDays w Hno. unfold extendAllLoans.
  rewrite run_try_catch. cbn [await bind run this].
  destruct (lastData (device w)) as [data|] eqn:Hdata; [|reflexivity].
  destruct (userDetails data) as [users|] eqn:Husers; [|reflexivity].
  rewrite run_bind, (extend_loop_nothing net maxDays users 0 w)
    by (intros entry Hin; eapply Hno; eauto).
  reflexivity.
Qed.

(** X26 (a start without network): when the device starts with a
    stored snapshot while no request gets through, [onInit] publishes
    the values of the stored snapshot, triggers no Flow card, tries
    the first request of the login once, and marks the device
    unavailable with the reason of the failure. *)
Theorem onInit_without_network :
  forall (host : JSDate.Host) (net : nat -> Http.Request -> Http.Result)
         (reason : string) (w : World) (storedData : Data),
    (forall n req, net n req = Http.Rejected reason) ->
    lastData (device w) = Some storedData ->
    let restored :=
      _processData host (clock w) storedData false (reset_fields (device w)) in
    run net (onInit host) w
    = (Ok false,
       with_device
         (fun _ => with_unavailable (Some (FetchRejected reason)) restored)
         (with_request auth_start_request w))
    /\ triggered restored = triggered (device w)
    /\ days_remaining restored
       = minDaysRemaining
           (aggregate host (clock w) (JS.num_or (warning_threshold (device w)) 7)
              storedData).
Proof.
  intros host net reason w storedData Hnet Hstored restored. split.
  - unfold onInit. cbn [update await bind run this apply_effect with_device device
                        reset_fields lastData].
    rewrite Hstored. cbn [await bind run read_clock update apply_effect clock
                          with_device device].
    unfold refreshData. rewrite run_try_catch. cbn [this bind run device].
    unfold refreshAllData, login. rewrite !run_bind.
    cbn [fetch bind run]. rewrite Hnet. reflexivity.
  - split.
    + unfold restored, _processData. cbn [triggered reset_fields].
      now rewrite app_nil_r.
    + reflexivity.
Qed.

(* ================================================================== *)
(** * The library name, on both sides                                  *)
(* ================================================================== *)

(** X27 (one library name): for a library given by a plain https URL
    (a host of letters and dots, then nothing or a plain path), the
    name [_processData] gives a loan that has only that URL and the
    name [refreshAllData] gives an account of that library are the
    same: the first label of the host in lower case, capitalised. *)
Theorem library_name_agrees :
  forall (host tail name : string) (labels : list string)
         (loan : Overview.Loan) (daysLeft : Z)
         (accountId : string) (account : Http.RawAccount)
         (activities : Http.Activities),
    host_labels host true = true ->
    plain_tail tail = true ->
    JS.split "." (JSString.toLowerCase host) = name :: labels ->
    Overview.location loan
    = Some {| Overview.libraryName := None;
              Overview.libraryUrl := Some (plain_url host tail) |} ->
    Http.library account = Some (plain_url host tail) ->
    Some (Current.libraryName (coarse_record daysLeft loan))
    = option_map User.libraryName
        (User.accountDetails (user_of_account accountId account activities))
    /\ Current.libraryName (coarse_record daysLeft loan) = URL.capitalize name.
Proof.
  intros host tail name labels loan daysLeft accountId account activities
         Hlabels Htail Hsplit Hloc Hlib.
  pose proof (hostname_plain host tail Hlabels Htail) as Hhost.
  fold (plain_url host tail) in Hhost.
  assert (Hurl : exists c r, plain_url host tail = String c r)
    by (now exists "h"%char, ("ttps://" ++ host ++ tail)).
  assert (Hname : name <> EmptyString).
  { destruct (host_labels_letter host Hlabels) as [c [r [-> Hc]]].
    destruct (letter_in_host c Hc) as [_ Hdot].
    unfold JSString.toLowerCase in Hsplit. cbn [URL.map_string JS.split] in Hsplit.
    rewrite Hdot in Hsplit.
    destruct (JS.split "." (URL.map_string URL.lower r));
      inversion Hsplit; discriminate. }
  generalize dependent (plain_url host tail). intros url Hloc Hlib Hhost Hurl.
  assert (Hcap : URL.capitalize name <> EmptyString)
    by (destruct name; [congruence | discriminate]).
  unfold coarse_record, user_of_account. rewrite Hloc, Hlib.
  cbn [Current.libraryName Overview.libraryName Overview.libraryUrl JS.truthy_str
       User.accountDetails option_map User.libraryName].
  unfold _extractLibraryFromUrl, extractLibraryNameFromUrl.
  destruct Hurl as [c [r ->]].
  cbn [JS.truthy_str negb JS.str_or]. rewrite Hhost, Hsplit.
  destruct (URL.capitalize name) eqn:E; [congruence|].
  cbn [JS.str_or]. split; reflexivity.
Qed.

(* ================================================================== *)
(** * Facts about the days read from a loans page                      *)
(* ================================================================== *)

Lemma digit_char c d :
  JS.digit_val c = Some d ->
  JS.is_ws c = false /\ URL.lower c = c /\ Ascii.eqb " " c = false
  /\ forall r, JSString.parseInt (String c r)
               = JS.nonempty_digits (JSString.digit_prefix (String c r)).
Proof.
  intros H.
  destruct c as [[|] [|] [|] [|] [|] [|] [|] [|]];
    vm_compute in H; try discriminate H;
    repeat split; reflexivity.
Qed.

Lemma string_app_empty_r (s : string) : s ++ "" = s.
Proof. induction s as [|c s IH]; cbn [append]; congruence. Qed.

Lemma digits_val_all_digits ds : forall acc n,
  JS.digits_val ds acc = Some n -> all_digits ds = true.
Proof.
  induction ds as [|c ds IH]; intros acc n H; cbn [JS.digits_val all_digits] in *;
    [reflexivity|].
  destruct (JS.digit_val c); [eapply IH; eauto | discriminate].
Qed.

Lemma all_digits_lower ds : all_digits ds = true -> JSString.toLowerCase ds = ds.
Proof.
  unfold JSString.toLowerCase.
  induction ds as [|c ds IH]; cbn [all_digits URL.map_string]; [reflexivity|].
  destruct (JS.digit_val c) as [d|] eqn:E; [|discriminate].
  intros H. destruct (digit_char c d E) as [_ [Hl _]]. now rewrite Hl, IH.
Qed.

Lemma map_string_app f (a b : string) :
  URL.map_string f (a ++ b) = URL.map_string f a ++ URL.map_string f b.
Proof. induction a as [|c a IH]; cbn [append URL.map_string]; congruence. Qed.

Lemma all_digits_prefix ds : all_digits ds = true -> JSString.digit_prefix ds = ds.
Proof.
  induction ds as [|c ds IH]; cbn [all_digits JSString.digit_prefix]; [reflexivity|].
  destruct (JS.digit_val c); [|discriminate]. intros H. now rewrite IH.
Qed.

Lemma all_digits_trim_left ds : all_digits ds = true -> JS.trim_left ds = ds.
Proof.
  destruct ds as [|c ds]; cbn [all_digits JS.trim_left]; [reflexivity|].
  destruct (JS.digit_val c) as [d|] eqn:E; [|discriminate].
  intros _. destruct (digit_char c d E) as [Hws _]. now rewrite Hws.
Qed.

Lemma rev_string_app (a b acc : string) :
  JS.rev_string (a ++ b) acc = JS.rev_string b (JS.rev_string a acc).
Proof.
  revert acc. induction a as [|c a IH]; intros acc; cbn [append JS.rev_string];
    [reflexivity | apply IH].
Qed.

Lemma rev_string_rev (s : string) : forall a b,
  JS.rev_string (JS.rev_string s a) b = JS.rev_string a (s ++ b).
Proof.
  induction s as [|c s IH]; intros a b; cbn [JS.rev_string append]; [reflexivity|].
  rewrite IH. reflexivity.
Qed.

Lemma rev_string_involutive (s : string) :
  JS.rev_string (JS.rev_string s "") "" = s.
Proof. rewrite rev_string_rev. cbn [JS.rev_string]. apply string_app_empty_r. Qed.

Lemma all_digits_rev ds : forall acc,
  all_digits ds = true -> all_digits acc = true ->
  all_digits (JS.rev_string ds acc) = true.
Proof.
  induction ds as [|c ds IH]; intros acc Hd Ha; cbn [JS.rev_string all_digits] in *;
    [exact Ha|].
  destruct (JS.digit_val c) eqn:E; [|discriminate].
  apply IH; [exact Hd|]. cbn [all_digits]. now rewrite E.
Qed.

Lemma all_digits_trim ds : all_digits ds = true -> JS.trim ds = ds.
Proof.
  intros H. unfold JS.trim.
  rewrite (all_digits_trim_left ds H).
  rewrite (all_digits_trim_left (JS.rev_string ds ""))
    by (apply all_digits_rev; [exact H | reflexivity]).
  apply rev_string_involutive.
Qed.

(** a separator that starts with a blank is not found among digits *)
Lemma cut_after_digits (sep ds t : string) :
  all_digits ds = true ->
  URL.cut (String " " sep) (ds ++ t)
  = match URL.cut (String " " sep) t with
    | Some (a, b) => Some (ds ++ a, b)
    | None => None
    end.
Proof.
  induction ds as [|c ds IH]; intros H; cbn [append all_digits] in *.
  - destruct (URL.cut (String " " sep) t) as [[a b]|]; reflexivity.
  - destruct (JS.digit_val c) as [d|] eqn:E; [|discriminate].
    destruct (digit_char c d E) as [_ [_ [Hsp _]]].
    cbn [URL.cut URL.prefix_of]. rewrite Hsp, (IH H).
    destruct (URL.cut (String " " sep) t) as [[a b]|]; reflexivity.
Qed.

Lemma days_of_digits ds n :
  JS.nonempty_digits ds = Some n ->
  all_digits ds = true
  /\ JS.num_or (JSString.parseInt (JS.trim ds)) 0 = n.
Proof.
  intros H. destruct ds as [|c ds]; [discriminate|].
  cbn [JS.nonempty_digits] in H.
  pose proof (digits_val_all_digits _ _ _ H) as Hd. split; [exact Hd|].
  rewrite (all_digits_trim _ Hd).
  pose proof Hd as Hd'. cbn [all_digits] in Hd'.
  destruct (JS.digit_val c) as [d|] eqn:E; [|discriminate].
  destruct (digit_char c d E) as [_ [_ [_ Hp]]].
  rewrite Hp, (all_digits_prefix _ Hd). cbn [JS.nonempty_digits]. rewrite H.
  destruct n; reflexivity.
Qed.

Lemma trim_between (first last : ascii) (body : string) :
  JS.is_ws first = false -> JS.is_ws last = false ->
  JS.trim (String first (body ++ String last "")) = String first (body ++ String last "").
Proof.
  intros Hf Hl. unfold JS.trim. cbn [JS.trim_left]. rewrite Hf.
  assert (Hrev : JS.rev_string (String first (body ++ String last "")) ""
                 = String last (JS.rev_string (String first body) "")).
  { change (String first (body ++ String last ""))
      with ((String first body) ++ String last "").
    rewrite rev_string_app. reflexivity. }
  rewrite Hrev. cbn [JS.trim_left]. rewrite Hl, <- Hrev.
  apply rev_string_involutive.
Qed.

Lemma prefix_of_app (p x : string) : URL.prefix_of p (p ++ x) = Some x.
Proof.
  induction p as [|c p IH]; cbn [append URL.prefix_of]; [now destruct x|].
  now rewrite Ascii.eqb_refl.
Qed.

Lemma remove_first_prefix (p x : string) : JSString.remove_first p (p ++ x) = x.
Proof.
  unfold JSString.remove_first.
  assert (H : URL.cut p (p ++ x) = Some (EmptyString, x)).
  { pose proof (prefix_of_app p x) as Hp.
    destruct (p ++ x); cbn [URL.cut]; now rewrite Hp. }
  rewrite H. reflexivity.
Qed.

Lemma remove_first_after_digits (sep ds t : string) :
  all_digits ds = true ->
  JSString.remove_first (String " " sep) (ds ++ t)
  = ds ++ JSString.remove_first (String " " sep) t.
Proof.
  intros Hd. unfold JSString.remove_first. rewrite (cut_after_digits sep ds t Hd).
  destruct (URL.cut (String " " sep) t) as [[a b]|]; [|reflexivity].
  apply string_app_assoc.
Qed.

Lemma days_of_phrase (ds suffix : string) (n : Z) :
  JS.nonempty_digits ds = Some n ->
  suffix = " dagen" \/ suffix = " dag" ->
  days_of_text ("Nog " ++ ds ++ suffix) = n.
Proof.
  intros Hn Hsuffix. destruct (days_of_digits ds n Hn) as [Hd Hparse].
  assert (Htrim : JS.trim ("Nog " ++ ds ++ suffix) = "Nog " ++ ds ++ suffix).
  { destruct Hsuffix as [-> | ->].
    - replace ("Nog " ++ ds ++ " dagen")
        with (String "N" (("og " ++ ds ++ " dage") ++ String "n" ""))
        by (cbn [append]; rewrite !string_app_assoc; reflexivity).
      apply trim_between; reflexivity.
    - replace ("Nog " ++ ds ++ " dag")
        with (String "N" (("og " ++ ds ++ " da") ++ String "g" ""))
        by (cbn [append]; rewrite !string_app_assoc; reflexivity).
      apply trim_between; reflexivity. }
  assert (Hlow : JSString.toLowerCase ("Nog " ++ ds ++ suffix)
                 = "nog " ++ ds ++ suffix).
  { unfold JSString.toLowerCase. rewrite !map_string_app.
    fold (JSString.toLowerCase ds). rewrite (all_digits_lower ds Hd).
    destruct Hsuffix as [-> | ->]; reflexivity. }
  assert (Hrem : JSString.remove_first " dag"
                   (JSString.remove_first " dagen" (ds ++ suffix)) = ds).
  { rewrite (remove_first_after_digits _ ds suffix Hd).
    destruct Hsuffix as [-> | ->].
    - change (JSString.remove_first " dagen" " dagen") with "".
      rewrite (remove_first_after_digits _ ds "" Hd).
      change (JSString.remove_first " dag" "") with "".
      apply string_app_empty_r.
    - change (JSString.remove_first " dagen" " dag") with " dag".
      rewrite (remove_first_after_digits _ ds " dag" Hd).
      change (JSString.remove_first " dag" " dag") with "".
      apply string_app_empty_r. }
  unfold days_of_text. rewrite Htrim.
  change ("Nog " ++ ds ++ suffix)
    with (String "N" ("og " ++ ds ++ suffix)) at 1.
  cbv iota beta.
  change (String "N" ("og " ++ ds ++ suffix)) with ("Nog " ++ ds ++ suffix).
  rewrite Hlow, remove_first_prefix, Hrem. exact Hparse.
Qed.

(** X28 (the days read from the page): for a loan whose page says
    [Nog N dagen] or [Nog N dag], with N in decimal digits and below
    2^53 (where [parseInt] gives the number itself),
    [getLoanDetails] records N as the days remaining. *)
Theorem days_of_text_reads_the_number :
  forall (ds : string) (n : Z) (accountId : option string) (el : Http.LoanElement),
    JS.nonempty_digits ds = Some n ->
    n < 9007199254740992 ->
    Http.days_text el = "Nog " ++ ds ++ " dagen"
    \/ Http.days_text el = "Nog " ++ ds ++ " dag" ->
    Detail.daysRemaining (snd (loan_of_element accountId el)) = Some n.
Proof.
  intros ds n accountId el Hn _ Htext.
  unfold loan_of_element. cbn [snd Detail.daysRemaining]. f_equal.
  destruct Htext as [-> | ->]; apply days_of_phrase; auto.
Qed.


(* ================================================================== *)
(** * A loan without a usable due date                                 *)
(* ================================================================== *)

Lemma rev_string_acc (s : string) : forall acc,
  JS.rev_string s acc = JS.rev_string s "" ++ acc.
Proof.
  induction s as [|c s IH]; intros acc; cbn [JS.rev_string]; [reflexivity|].
  rewrite (IH (String c acc)), (IH (String c "")), string_app_assoc. reflexivity.
Qed.

Lemma trim_left_last (y : string) (c : ascii) :
  JS.is_ws c = false ->
  exists z, JS.trim_left (y ++ String c "") = z ++ String c "".
Proof.
  intros Hc. induction y as [|a y IH]; cbn [append JS.trim_left].
  - rewrite Hc. now exists "".
  - destruct (JS.is_ws a); [exact IH | now exists (String a y)].
Qed.

(** trimming keeps a first character that is not white space *)
Lemma trim_head (c : ascii) (r : string) :
  JS.is_ws c = false -> exists r', JS.trim (String c r) = String c r'.
Proof.
  intros Hc. unfold JS.trim. cbn [JS.trim_left]. rewrite Hc.
  cbn [JS.rev_string]. rewrite (rev_string_acc r (String c "")).
  destruct (trim_left_last (JS.rev_string r "") c Hc) as [z Hz].
  rewrite Hz, rev_string_app. cbn [JS.rev_string]. now eexists.
Qed.

(** a text that starts with a letter is not a number *)
Lemma letter_not_number (part : string) :
  starts_with_letter part = true -> JS.Number part = None.
Proof.
  destruct part as [|c r]; [discriminate|]. cbn [starts_with_letter].
  intros H. apply andb_prop in H. destruct H as [Ha _].
  destruct c as [[|] [|] [|] [|] [|] [|] [|] [|]];
    vm_compute in Ha; try discriminate Ha;
    (match goal with
     | |- JS.Number (String ?c r) = None =>
         destruct (trim_head c r eq_refl) as [r' Hr']
     end;
     unfold JS.Number; rewrite Hr'; reflexivity).
Qed.

Lemma undated_is_zero h now dueDate :
  undated dueDate -> _calculateDaysRemaining h now dueDate = 0.
Proof.
  unfold _calculateDaysRemaining. intros [Hf|[day [month [year [Hsplit Hnan]]]]].
  - now rewrite Hf.
  - destruct (JS.truthy_str dueDate); [|reflexivity]. cbn [negb].
    rewrite Hsplit. unfold JSDate.Date_ymd.
    destruct Hnan as [H|[H|H]]; apply letter_not_number in H; rewrite H;
      cbn [option_map];
      destruct (JS.Number year); destruct (JS.Number month);
      destruct (JS.Number day); try discriminate; reflexivity.
Qed.

Lemma get_In k v (m : LoanMap) : LoanMapOps.get k m = Some v -> In (k, v) m.
Proof.
  induction m as [|[k' v'] m IH]; cbn [LoanMapOps.get]; [discriminate|].
  destruct (String.eqb_spec k k') as [->|Hne].
  - intros H. inversion H. now left.
  - intros H. right. now apply IH.
Qed.

(** X29 (a loan without a usable due date is due today): let an entry
    of the overview have a due date that is missing, empty, or of
    three parts one of which starts with a letter (a month given by
    name, say) and so is not a number; let it be the last
    entry under its key, with no detail record under that key, and
    the loan not known from before.  Then with a warning threshold of
    0 or more, processing the snapshot triggers loan_expiring for it
    with 0 days left. *)
Theorem undated_loan_is_due_today :
  forall (h : JSDate.Host) (now : Z) (data : Data) (dev : Device)
         (before after : list Overview.Loan) (loan : Overview.Loan),
    undated (Overview.dueDate loan) ->
    loans data = Some (before ++ loan :: after)%list ->
    (forall c, In c after -> loanKey c <> loanKey loan) ->
    (forall e,
        In e (detail_entries
                (match userDetails data with Some u => u | None => [] end)) ->
        detailKey (fst e) (snd e) <> loanKey loan) ->
    LoanMapOps.get (loanKey loan) (previousLoans dev) = None ->
    0 <= JS.num_or (warning_threshold dev) 7 ->
    In (loan_expiring (Current.title (coarse_record 0 loan)) 0
          (Current.libraryName (coarse_record 0 loan))
          (Current.userName (coarse_record 0 loan)))
       (triggered (_processData h now data true dev)).
Proof.
  intros h now data dev before after loan Hund Hloans Hafter Hdetail Hprev HT.
  unfold _processData. cbn [triggered]. apply in_or_app. right.
  set (T := JS.num_or (warning_threshold dev) 7) in *.
  assert (Hget : LoanMapOps.get (loanKey loan) (currentLoans (aggregate h now T data))
                 = Some (coarse_record 0 loan)).
  { unfold aggregate. cbn [currentLoans]. rewrite currentLoans_fold_user.
    rewrite merge_fold_get_other by exact Hdetail.
    rewrite Hloans, overview_fold_get_last by exact Hafter.
    now rewrite (undated_is_zero h now _ Hund). }
  unfold _checkAndTriggerFlows. apply in_or_app. right.
  apply in_flat_map. exists (loanKey loan, coarse_record 0 loan).
  split; [apply get_In, Hget|].
  unfold loan_triggers. cbn [fst snd]. rewrite Hprev.
  cbn [coarse_record Current.daysLeft].
  apply in_or_app. left.
  replace (0 <=? T) with true by (symmetry; apply Z.leb_le; lia).
  cbn. left. reflexivity.
Qed.

(* ================================================================== *)
(** * More witnesses                                                   *)
(* ================================================================== *)

(** one change of the polling interval after the start *)
Lemma polling_keeps_one_timer_witness :
  let p := settings_changes [(["poll_interval"], Scenario.fresh_device)]
             (onInit_polling Scenario.fresh_device Fixture.no_timers) in
  (exists handle ms,
      _pollInterval p = Some handle
      /\ Timers.running (timers p) = ([] ++ [(handle, ms)])%list)
  /\ Timers.running (timers (onDeleted p)) = [].
Proof.
  exact (polling_keeps_one_timer Scenario.fresh_device
           [(["poll_interval"], Scenario.fresh_device)] Fixture.no_timers
           (Forall_nil _)).
Defined.

(** a loan first seen five days from due, threshold 7, a card set to 7 days *)
Lemma expiring_events_and_the_listener_witness :
  Driver.loan_expiring_runListener 7 5 = true.
Proof.
  refine (proj1 (proj2 (expiring_events_and_the_listener None []
                          [("Dune|An", Scenario.loan_at 5)] (Some 5) 1 7
                          "Dune" 5 "Gent" "An" _)) 7 _).
  - vm_compute. left. reflexivity.
  - lia.
Defined.

(** the renewal of one loan whose resubmission is answered 500 *)
Lemma extendLoans_counts_what_it_asked_witness :
  fst (run (Scenario.script Fixture.extension_answered_500)
         (extendLoans "https://bibliotheek.be/my-library/memberships/1001" ["x1"])
         (Scenario.world0 Scenario.fresh_device 0))
  = Ok 1.
Proof.
  refine (proj2 (extendLoans_counts_what_it_asked
                   (Scenario.script Fixture.extension_answered_500)
                   "https://bibliotheek.be/my-library/memberships/1001" ["x1"]
                   (Scenario.world0 Scenario.fresh_device 0))
            {| Http.status := 200; Http.location := None;
               Http.document :=
                 Http.ExtendPage (Some [(Some "form_id", Some "extend_loan_form")]) |}
            [(Some "form_id", Some "extend_loan_form")]
            {| Http.status := 500; Http.location := None; Http.document := Http.Blank |}
            _ _ _ _ _); try reflexivity.
  discriminate.
Defined.

(** a user device that has an eligible loan and no loans URL *)
Lemma user_extendLoans_requests_witness :
  run (Scenario.script Scenario.extension_of_dune)
    (LibraryUserDevice.extendLoans JSDate.host_utc Fixture.store_dune true 7)
    (Scenario.world0 Scenario.device_with_dune Scenario.noon_2_nov_2026)
  = (Ok false, Scenario.world0 Scenario.device_with_dune Scenario.noon_2_nov_2026).
Proof.
  apply (proj1 (proj2 (user_extendLoans_requests JSDate.host_utc
           (Scenario.script Scenario.extension_of_dune) Fixture.store_dune true 7
           (Scenario.world0 Scenario.device_with_dune Scenario.noon_2_nov_2026)))).
  left. reflexivity.
Defined.

(** the widget asked for the device under its platform id *)
Lemma widget_lists_detail_records_most_urgent_first_witness :
  ascending WidgetAPI.daysRemaining
    (JSArray.sort_by WidgetAPI.daysRemaining (WidgetAPI.rows Scenario.snapshot_dune)).
Proof.
  destruct (widget_lists_detail_records_most_urgent_first
              (inr [Fixture.widget_device]) (Some "a1b2")
              (JSArray.sort_by WidgetAPI.daysRemaining
                 (WidgetAPI.rows Scenario.snapshot_dune))
              (Some (lastUpdated Scenario.snapshot_dune)) eq_refl)
    as [devices [device [storedData [_ [_ [_ [_ [_ [Hsorted _]]]]]]]]].
  exact Hsorted.
Defined.

(** the loan of [cycle_dune], five days from due, and a card set to 7 days *)
Lemma conditions_see_every_loan_witness :
  Driver.has_expiring_loans Fixture.device_after_dune 7 = true.
Proof.
  refine (proj2 (proj1 (conditions_see_every_loan JSDate.host_utc
                          Scenario.noon_2_nov_2026 Scenario.snapshot_dune true
                          Scenario.fresh_device)
                   (hd ("", Scenario.loan_at 0)
                       (previousLoans Fixture.device_after_dune)) _) 7 _).
  - vm_compute. left. reflexivity.
  - vm_compute. discriminate.
Defined.

(** the snapshot of [cycle_dune] processed at noon and again an hour later *)
Lemma unchanged_snapshot_triggers_nothing_witness :
  triggered
    (_processData JSDate.host_utc (Scenario.noon_2_nov_2026 + 3600000)
       Scenario.snapshot_dune true Fixture.device_after_dune)
  = triggered Fixture.device_after_dune.
Proof.
  apply (unchanged_snapshot_triggers_nothing JSDate.host_utc
           Scenario.noon_2_nov_2026 (Scenario.noon_2_nov_2026 + 3600000)
           Scenario.snapshot_dune true Scenario.fresh_device).
  vm_compute. reflexivity.
Defined.

(** the loan of [cycle_dune] is five days from due: nothing to extend at 2 days *)
Lemma extendAllLoans_nothing_to_extend_witness :
  run (Scenario.script Scenario.extension_of_dune)
    (extendAllLoans JSDate.host_utc 2)
    (Scenario.world0 Scenario.device_with_dune Scenario.noon_2_nov_2026)
  = (Ok false, Scenario.world0 Scenario.device_with_dune Scenario.noon_2_nov_2026).
Proof.
  apply (extendAllLoans_nothing_to_extend JSDate.host_utc
           (Scenario.script Scenario.extension_of_dune) 2
           (Scenario.world0 Scenario.device_with_dune Scenario.noon_2_nov_2026)).
  intros data users entry Hdata Husers Hin.
  inversion Hdata; subst. inversion Husers; subst.
  destruct Hin as [<-|[]]. reflexivity.
Defined.

(** a start with the snapshot of [cycle_dune] in the store while every
    request times out *)
Lemma onInit_without_network_witness :
  let w := Scenario.world0 Scenario.device_with_dune Scenario.noon_2_nov_2026 in
  let restored :=
    _processData JSDate.host_utc (clock w) Scenario.snapshot_dune false
      (reset_fields (device w)) in
  run (Scenario.script []) (onInit JSDate.host_utc) w
  = (Ok false,
     with_device
       (fun _ => with_unavailable (Some (FetchRejected "timeout")) restored)
       (with_request auth_start_request w))
  /\ triggered restored = triggered (device w)
  /\ days_remaining restored
     = minDaysRemaining
         (aggregate JSDate.host_utc (clock w)
            (JS.num_or (warning_threshold (device w)) 7) Scenario.snapshot_dune).
Proof.
  apply (onInit_without_network JSDate.host_utc (Scenario.script []) "timeout"
           (Scenario.world0 Scenario.device_with_dune Scenario.noon_2_nov_2026)
           Scenario.snapshot_dune).
  - intros n req. unfold Scenario.script. destruct n; reflexivity.
  - reflexivity.
Defined.

(** the library of Gent, by its URL *)
Lemma library_name_agrees_witness :
  Some (Current.libraryName (coarse_record 3 Fixture.loan_by_url))
  = option_map User.libraryName
      (User.accountDetails
         (user_of_account "1001" Scenario.account_an Scenario.one_loan))
  /\ Current.libraryName (coarse_record 3 Fixture.loan_by_url) = URL.capitalize "gent".
Proof.
  apply (library_name_agrees "gent.bibliotheek.be" "" "gent" ["bibliotheek"; "be"]
           Fixture.loan_by_url 3 "1001" Scenario.account_an Scenario.one_loan);
    reflexivity.
Defined.

(** a loan of the overview whose due date names the month *)
Lemma undated_loan_is_due_today_witness :
  In (loan_expiring "Dune" 0 "Gent" "An")
     (triggered (_processData JSDate.host_utc Scenario.noon_2_nov_2026
                   Fixture.snapshot_undated true Scenario.fresh_device)).
Proof.
  apply (undated_loan_is_due_today JSDate.host_utc Scenario.noon_2_nov_2026
           Fixture.snapshot_undated Scenario.fresh_device [] []
           Fixture.loan_undated).
  - right. exists "05", "nov", "2026". split; [reflexivity|].
    right. left. reflexivity.
  - reflexivity.
  - intros c [].
  - intros e [].
  - reflexivity.
  - vm_compute. discriminate.
Defined.

(** the page says five days *)
Lemma days_of_text_reads_the_number_witness :
  Detail.daysRemaining
    (snd (loan_of_element (Some "1001")
            (Scenario.loan_element "Dune" "Nog 5 dagen" (Some "x1"))))
  = Some 5.
Proof.
  apply (days_of_text_reads_the_number "5" 5 (Some "1001")
           (Scenario.loan_element "Dune" "Nog 5 dagen" (Some "x1"))).
  - reflexivity.
  - reflexivity.
  - left. reflexivity.
Defined.

(** the activities of An are served, her loans page is answered 500 *)
Lemma loans_page_failure_is_absorbed_witness :
  exists libraries,
    run (Scenario.script Fixture.loans_page_fails)
      (account_step ([], []) Scenario.account_an)
      (Scenario.world0 Scenario.fresh_device 0)
    = (Ok (Obj.set "1001"
             (user_of_account "1001" Scenario.account_an Scenario.one_loan) [],
           libraries),
       with_request (get_request (loans_url "1001") Http.follow)
         (with_request
            (get_request "https://bibliotheek.be/api/my-library/1001/activities"
               Http.follow)
            (Scenario.world0 Scenario.fresh_device 0)))
    /\ User.loanDetails (user_of_account "1001" Scenario.account_an Scenario.one_loan)
       = None.
Proof.
  refine (proj1 (loans_page_failure_is_absorbed
                   (Scenario.script Fixture.loans_page_fails) ([], [])
                   Scenario.account_an (Scenario.world0 Scenario.fresh_device 0))
            "1001" Scenario.one_loan 1 _ eq_refl eq_refl eq_refl eq_refl eq_refl
            eq_refl eq_refl).
Defined.

(** the cycle of [cycle_dune] *)
Lemma refresh_answers_true_only_on_success_witness :
  exists data w1,
    run (Scenario.script Scenario.cycle_dune)
      (refreshAllData "an@example.org" "secret")
      (Scenario.world0 Scenario.fresh_device Scenario.noon_2_nov_2026)
    = (Ok data, w1)
    /\ device (snd (run (Scenario.script Scenario.cycle_dune)
                      (refreshData JSDate.host_utc)
                      (Scenario.world0 Scenario.fresh_device
                         Scenario.noon_2_nov_2026)))
       = with_unavailable None
           (_processData JSDate.host_utc (clock w1) data true
              (with_lastData data Scenario.fresh_device))
    /\ sent (snd (run (Scenario.script Scenario.cycle_dune)
                    (refreshData JSDate.host_utc)
                    (Scenario.world0 Scenario.fresh_device
                       Scenario.noon_2_nov_2026)))
       = sent w1.
Proof.
  apply (refresh_answers_true_only_on_success JSDate.host_utc
           (Scenario.script Scenario.cycle_dune)
           (Scenario.world0 Scenario.fresh_device Scenario.noon_2_nov_2026)).
  vm_compute. reflexivity.
Defined.

(** the start page answers 500 *)
Lemma login_without_redirect_witness :
  let w := Scenario.world0 Scenario.fresh_device 0 in
  run (Scenario.script [Scenario.reply 500 Http.Blank])
    (login "an@example.org" "secret") w
  = (Ok true, with_authenticated true (with_request auth_start_request w)).
Proof.
  apply (login_without_redirect (Scenario.script [Scenario.reply 500 Http.Blank])
           "an@example.org" "secret" (Scenario.world0 Scenario.fresh_device 0)
           {| Http.status := 500; Http.location := None; Http.document := Http.Blank |}).
  - reflexivity.
  - discriminate.
Defined.
